(** * slam_metrics: the evaluation script [script_evaluate_metrics.py]

    A shallow embedding of the [__main__] block of the script: the Python
    namespace is a finite map from names to dynamically typed values, the
    calls into [utils], [slam_metrics] and [plot_utils] go through an
    explicit table of callees and are logged, and the numpy expressions the
    script evaluates itself ([np.divide], [np.linalg.norm], row slices) are
    functions on arrays. *)

From Stdlib Require Import ZArith List Ascii String Reals Floats SpecFloat Lia Lra Sorted.
From stdpp Require Import base option list gmap strings.

Local Open Scope string_scope.
Local Open Scope list_scope.

Set Warnings "-register-all".

(** ** Scalars

    The script computes on numpy [float64] values.  The arithmetic it needs
    is collected in a class so that the same embedding runs on IEEE binary64
    (what numpy does) and on the real numbers (what the specification
    reasons with). *)

Class Arith (num : Type) : Type := {
  of_Z  : Z -> num;
  add   : num -> num -> num;
  sub   : num -> num -> num;
  mul   : num -> num -> num;
  div   : num -> num -> num;
  sqrt  : num -> num;
  leb   : num -> num -> bool;
  trunc : num -> option Z
}.

Module Binary64.

Definition from_Z (z : Z) : float :=
  match z with
  | Z0 => PrimFloat.zero
  | Zpos _ => PrimFloat.of_uint63 (Uint63.of_Z z)
  | Zneg p => PrimFloat.opp (PrimFloat.of_uint63 (Uint63.of_Z (Zpos p)))
  end.

(** [int(x)]: truncation towards zero; infinities and NaN have none. *)
Definition to_Z (x : float) : option Z :=
  match Prim2SF x with
  | S754_zero _ => Some 0%Z
  | S754_finite s m e =>
      let a := (if 0 <=? e then Zpos m * 2 ^ e else Zpos m / 2 ^ (- e))%Z in
      Some (if s then - a else a)%Z
  | _ => None
  end.

#[export] Instance arith : Arith float := {|
  of_Z := from_Z;
  add := PrimFloat.add; sub := PrimFloat.sub;
  mul := PrimFloat.mul; div := PrimFloat.div;
  sqrt := PrimFloat.sqrt;
  leb := PrimFloat.leb;
  trunc := to_Z
|}.

End Binary64.

Module Exact.

Definition le_bool (x y : R) : bool := if Rle_dec x y then true else false.

Definition to_Z (x : R) : option Z :=
  Some (if Rle_dec 0 x then Int_part x else - Int_part (- x))%Z.

#[export] Instance arith : Arith R := {|
  of_Z := IZR;
  add := Rplus; sub := Rminus; mul := Rmult; div := Rdiv;
  sqrt := R_sqrt.sqrt;
  leb := le_bool;
  trunc := to_Z
|}.

End Exact.

(** ** Values, exceptions, events *)

(** A 2-D array is the list of its rows. *)
Abbreviation Matrix num := (list (list num)).

Section Values.

Context {num : Type}.

Inductive value : Type :=
| VNone
| VBool (b : bool)
| VInt (z : Z)
| VFloat (x : num)
| VStr (s : string)
| VVec (v : list num)              (* 1-D array *)
| VArr (m : Matrix num)            (* 2-D array or matrix *)
| VDict (d : list (num * value))   (* dictionary keyed by timestamp, in insertion order *)
| VList (l : list value)
| VTuple (l : list value).

Inductive exn : Type :=
| NameError (name : string)
| TypeError (what : string)
| ValueError (what : string)
| IndexError (what : string)
| AttributeError (what : string)
| CalleeError (callee : string).   (* raised inside utils, slam_metrics or plot_utils *)

(** What a run does that is visible from outside: the calls it makes into
    the other modules, with their positional and keyword arguments, and the
    lines it prints (format string and the values formatted into it). *)
Inductive event : Type :=
| ECall (callee : string) (args : list value) (kwargs : list (string * value))
| EPrint (fmt : string) (args : list value).

End Values.

Arguments value : clear implicits.
Arguments event : clear implicits.

(** A trajectory: timestamp and 4x4 pose (or 6x6 covariance), in the order
    of the dictionary. *)
Abbreviation Trajectory num := (list (num * value num)).

(** Results of the pure parts: a value or the exception raised. *)
Definition res (A : Type) : Type := exn + A.

Definition res_bind {A B : Type} (r : res A) (k : A -> res B) : res B :=
  match r with
  | inl e => inl e
  | inr a => k a
  end.

Notation "'try' x := r 'in' k" := (res_bind r (fun x => k))
  (at level 10, x name, r at level 100, k at level 200, only parsing).

(** ** The numpy expressions of the script *)

Section Numpy.

Context {num : Type} `{Arith num}.

Inductive ndarray : Type :=
| Scalar (x : num)
| Arr1 (v : list num)
| Arr2 (m : Matrix num).

Definition ncols (m : Matrix num) : nat :=
  match m with
  | [] => 0
  | r :: _ => length r
  end.

(** Every row as long as the first: numpy arrays are rectangular. *)
Definition rect (m : Matrix num) : bool :=
  forallb (fun r => Nat.eqb (length r) (ncols m)) m.

Definition as_scalar (v : value num) : option num :=
  match v with
  | VFloat x => Some x
  | VInt z => Some (of_Z z)
  | VBool b => Some (of_Z (if b then 1 else 0))
  | _ => None
  end.

Definition as_row (v : value num) : option (list num) :=
  match v with
  | VVec r => Some r
  | VList l | VTuple l => mapM as_scalar l
  | _ => None
  end.

(** [np.asarray]: numbers, arrays, and (nested) sequences of numbers. *)
Definition as_array (v : value num) : res ndarray :=
  match as_scalar v with
  | Some x => inr (Scalar x)
  | None =>
      match as_row v with
      | Some r => inr (Arr1 r)
      | None =>
          let rows :=
            match v with
            | VArr m => Some m
            | VList l | VTuple l => mapM as_row l
            | _ => None
            end in
          match rows with
          | Some m =>
              if rect m then inr (Arr2 m)
              else inl (ValueError "inhomogeneous shape")
          | None => inl (TypeError "not array-like")
          end
      end
  end.

Definition ndim (a : ndarray) : nat :=
  match a with
  | Scalar _ => 0
  | Arr1 _ => 1
  | Arr2 _ => 2
  end.

(** An array of at most two dimensions seen as a 2-D one, as broadcasting
    does by prepending axes of length 1. *)
Definition rows (a : ndarray) : Matrix num :=
  match a with
  | Scalar x => [[x]]
  | Arr1 v => [v]
  | Arr2 m => m
  end.

Definition pack (d : nat) (m : Matrix num) : value num :=
  match d, m with
  | 0, [[x]] => VFloat x
  | 1, [v] => VVec v
  | _, _ => VArr m
  end.

(** numpy broadcasting along one axis: equal lengths pair up, an axis of
    length 1 is stretched, anything else does not broadcast. *)
Definition broadcast {A B C : Type} (f : A -> B -> C)
    (l1 : list A) (l2 : list B) : option (list C) :=
  match l1, l2 with
  | [a], _ => Some (map (f a) l2)
  | _, [b] => Some (map (fun a => f a b) l1)
  | _, _ =>
      if Nat.eqb (length l1) (length l2) then Some (zip_with f l1 l2)
      else None
  end.

Definition broadcast2 (f : num -> num -> num)
    (m1 m2 : Matrix num) : option (Matrix num) :=
  match broadcast (broadcast f) m1 m2 with
  | Some rs => mapM (M := option) (fun r => r) rs
  | None => None
  end.

(** [np.divide(a, b)]: element-wise true division with broadcasting.  The
    quotient of each pair of elements is [div]; numpy does not raise on a
    zero divisor. *)
Definition np_divide (a b : value num) : res (value num) :=
  try a' := as_array a in
  try b' := as_array b in
  match broadcast2 div (rows a') (rows b') with
  | Some m => inr (pack (Nat.max (ndim a') (ndim b')) m)
  | None => inl (ValueError "operands could not be broadcast together")
  end.

Definition sq (x : num) : num := mul x x.

(** [np.add.reduce(m, axis=0)]: the rows added up, first to last. *)
Definition sum_rows (m : Matrix num) : list num :=
  match m with
  | [] => []
  | r :: rs => foldl (zip_with add) r rs
  end.

Definition sum_vec (v : list num) : num :=
  match v with
  | [] => of_Z 0
  | x :: xs => foldl add x xs
  end.

(** [np.linalg.norm(x, axis=0)] with the default order:
    [sqrt(add.reduce(x * x, axis=0))].  On a 2-D array this is the vector
    of the Euclidean norms of the columns.  A list of rows keeps the number
    of columns only while it has a row: for an array without rows numpy
    returns one zero per column, and the list here is empty.  What is
    proved about the norms of a block of rows is proved for blocks that
    have their rows. *)
Definition col_norms (m : Matrix num) : list num :=
  map sqrt (sum_rows (map (map sq) m)).

Definition np_linalg_norm_axis0 (x : value num) : res (value num) :=
  try a := as_array x in
  match a with
  | Arr2 m => inr (VVec (col_norms m))
  | Arr1 v => inr (VFloat (sqrt (sum_vec (map sq v))))
  | Scalar _ => inl (ValueError "axis 0 is out of bounds for array of dimension 0")
  end.

(** [x[lo:hi, :]]: a block of rows of a 2-D array. *)
Definition rows_slice (lo hi : nat) (x : value num) : res (value num) :=
  match x with
  | VArr m => inr (VArr (take (hi - lo) (drop lo m)))
  | VVec _ => inl (IndexError "too many indices for array")
  | _ => inl (TypeError "cannot be indexed by a tuple of slices")
  end.

(** [T[0:3, 3]]: the translation of a 4x4 pose. *)
Definition translation_of (T : value num) : res (value num) :=
  match T with
  | VArr m =>
      match mapM (fun r : list num => r !! 3) (take 3 m) with
      | Some t => inr (VVec t)
      | None => inl (IndexError "index 3 is out of bounds for axis 1")
      end
  | VVec _ => inl (IndexError "too many indices for array")
  | _ => inl (TypeError "cannot be indexed by a tuple")
  end.

(** [T[0:3, 0:3]]: the rotation block of a 4x4 pose. *)
Definition rotation_of (T : value num) : res (value num) :=
  match T with
  | VArr m => inr (VArr (map (take 3) (take 3 m)))
  | VVec _ => inl (IndexError "too many indices for array")
  | _ => inl (TypeError "cannot be indexed by a tuple of slices")
  end.

Fixpoint transpose_rows (n : nat) (m : Matrix num) : Matrix num :=
  match n with
  | 0 => []
  | S n' => omap head m :: transpose_rows n' (map tail m)
  end.

(** [np.matrix(seq).transpose()] for a sequence of equally long rows. *)
Definition np_matrix_transposed (rows_ : list (value num)) : res (value num) :=
  match rows_ with
  | [] => inr (VArr [])
  | _ =>
      try a := as_array (VList rows_) in
      match a with
      | Scalar x => inr (VArr [[x]])
      | Arr1 v => inr (VArr (map (fun x => [x]) v))
      | Arr2 m => inr (VArr (transpose_rows (ncols m) m))
      end
  end.

End Numpy.

(** ** The Python built-ins the script applies *)

Section Builtins.

Context {num : Type} `{Arith num}.

(** [float(s)] and [int(s)] on text are left to the interpreter: the two
    functions stand for its parsers. *)
Variable float_of_str : string -> option num.
Variable int_of_str : string -> option Z.

Definition py_float (v : value num) : res num :=
  match v with
  | VFloat x => inr x
  | VInt z => inr (of_Z z)
  | VBool b => inr (of_Z (if b then 1 else 0))
  | VStr s =>
      match float_of_str s with
      | Some x => inr x
      | None => inl (ValueError "could not convert string to float")
      end
  | _ => inl (TypeError "float() argument must be a string or a real number")
  end.

Definition py_int (v : value num) : res Z :=
  match v with
  | VInt z => inr z
  | VBool b => inr (if b then 1 else 0)%Z
  | VFloat x =>
      match trunc x with
      | Some z => inr z
      | None => inl (ValueError "cannot convert float infinity or NaN to integer")
      end
  | VStr s =>
      match int_of_str s with
      | Some z => inr z
      | None => inl (ValueError "invalid literal for int()")
      end
  | _ => inl (TypeError "int() argument must be a string or a real number")
  end.

(** [v == 'text'] for a value compared with a string literal. *)
Definition py_eq_str (v : value num) (s : string) : bool :=
  match v with
  | VStr s' => bool_decide (s' = s)
  | _ => false
  end.

Definition chars (s : string) : list (value num) :=
  map (fun c => VStr (String c EmptyString)) (list_ascii_of_string s).

(** The items iterating over a value yields (a dictionary yields its keys). *)
Definition py_iter (v : value num) : option (list (value num)) :=
  match v with
  | VTuple l | VList l => Some l
  | VDict d => Some (map (fun kv => VFloat kv.1) d)
  | VVec r => Some (map VFloat r)
  | VArr m => Some (map VVec m)
  | VStr s => Some (chars s)
  | _ => None
  end.

(** A Python or numpy number. *)
Definition is_real (v : value num) : bool :=
  match v with
  | VFloat _ | VInt _ | VBool _ => true
  | _ => false
  end.

(** What [float()] converts for the [%f] conversion: a number, or an array
    with a single element. *)
Definition single_number (v : value num) : bool :=
  match v with
  | VVec [_] | VArr [[_]] => true
  | _ => is_real v
  end.

(** The arguments of [fmt % v]: the items of [v] when it is a tuple, and
    otherwise [v] itself. *)
Definition operands (v : value num) : list (value num) :=
  match v with
  | VTuple l => l
  | _ => [v]
  end.

(** ['%f' % v] is accepted: there is exactly one argument, and it is a
    number. *)
Definition formats_f (v : value num) : bool :=
  match operands v with
  | [x] => single_number x
  | _ => false
  end.

Fixpoint insert_sorted (x : num) (l : list num) : list num :=
  match l with
  | [] => [x]
  | y :: l' => if leb x y then x :: l else y :: insert_sorted x l'
  end.

(** [list.sort()] on timestamps: a stable sort by [<=].  Where [<=] is
    total and transitive on the items, every stable sort gives this list;
    with a NaN among them the comparisons are not an order, the result of
    [list.sort()] depends on its algorithm, and this definition says
    nothing about it. *)
Definition py_sort (l : list num) : list num := foldr insert_sorted [] l.

(** [<=] is total and transitive on the items of [l]. *)
Definition ordered_by_leb (l : list num) : bool :=
  forallb (fun x => forallb (fun y => leb x y || leb y x) l) l
  && forallb (fun x =>
       forallb (fun y =>
         forallb (fun z => implb (leb x y && leb y z) (leb x z)) l) l) l.

End Builtins.

(** ** The command line

    [args] is the namespace [parser.parse_args()] returns (lines 24-51).  An
    option given on the command line arrives as text; an option left out
    keeps the default of its [add_argument], a number for the numeric ones.
    The flags are [store_true] booleans. *)

Module args.

Record t {num : Type} : Type := mk {
  gt_file : string;
  est_file : string;
  offset : value num;
  offset_initial : value num;
  scale : value num;
  max_pairs : value num;
  max_difference : value num;
  fixed_delta : bool;
  delta : value num;
  delta_unit : string;
  alignment : string;
  plot_lang : string;
  plot_format : string;
  ate_manifold : bool;
  rpe : bool;
  ddt : bool;
  automatic_scale : bool;
  show_plots : bool;
  no_metrics : bool;
  verbose : bool;
  ignore_timestamp_match : bool;
  recommended_offset : bool
}.

Arguments t : clear implicits.

(** The namespace when only the two file names are given. *)
Definition defaults {num : Type} `{Arith num} (gt est : string) : t num := {|
  gt_file := gt;
  est_file := est;
  offset := VFloat (of_Z 0);
  offset_initial := VFloat (of_Z 0);
  scale := VFloat (of_Z 1);
  max_pairs := VInt 10000;
  max_difference := VFloat (div (of_Z 2) (of_Z 100));
  fixed_delta := false;
  delta := VFloat (of_Z 1);
  delta_unit := "m";
  alignment := "horn";
  plot_lang := "EN";
  plot_format := "pdf";
  ate_manifold := false;
  rpe := false;
  ddt := false;
  automatic_scale := false;
  show_plots := false;
  no_metrics := false;
  verbose := false;
  ignore_timestamp_match := false;
  recommended_offset := false
|}.

(** The same command line with another [--scale]. *)
Definition with_scale {num : Type} (s : value num) (a : t num) : t num := {|
  gt_file := gt_file a;
  est_file := est_file a;
  offset := offset a;
  offset_initial := offset_initial a;
  scale := s;
  max_pairs := max_pairs a;
  max_difference := max_difference a;
  fixed_delta := fixed_delta a;
  delta := delta a;
  delta_unit := delta_unit a;
  alignment := alignment a;
  plot_lang := plot_lang a;
  plot_format := plot_format a;
  ate_manifold := ate_manifold a;
  rpe := rpe a;
  ddt := ddt a;
  automatic_scale := automatic_scale a;
  show_plots := show_plots a;
  no_metrics := no_metrics a;
  verbose := verbose a;
  ignore_timestamp_match := ignore_timestamp_match a;
  recommended_offset := recommended_offset a
|}.

End args.

(** ** The interpreter state and the script *)

(** Everything outside the script: the functions of [utils], [slam_metrics]
    and [plot_utils] it calls, by dotted name (a callee that raises returns
    [None]), and the interpreter's parsers behind [float()] and [int()]. *)
Record World {num : Type} : Type := {
  callee : string -> list (value num) -> list (string * value num) -> option (value num);
  float_of_str : string -> option num;
  int_of_str : string -> option Z
}.

Arguments World : clear implicits.

(** The module namespace and what the run has done so far, oldest first. *)
Record state {num : Type} : Type := State {
  ns : gmap string (value num);
  out : list (event num)
}.

Arguments state : clear implicits.
Arguments State {num} ns out.

Definition M (num A : Type) : Type := state num -> res A * state num.

Section Monad.

Context {num : Type}.

Definition ret {A : Type} (a : A) : M num A := fun st => (inr a, st).

Definition raise {A : Type} (e : exn) : M num A := fun st => (inl e, st).

Definition bind {A B : Type} (m : M num A) (k : A -> M num B) : M num B :=
  fun st =>
    match m st with
    | (inl e, st') => (inl e, st')
    | (inr a, st') => k a st'
    end.

Definition lift {A : Type} (r : res A) : M num A := fun st => (r, st).

(** Reading a name that was never bound raises [NameError]. *)
Definition get (n : string) : M num (value num) :=
  fun st =>
    match ns st !! n with
    | Some v => (inr v, st)
    | None => (inl (NameError n), st)
    end.

Definition set (n : string) (v : value num) : M num unit :=
  fun st => (inr tt, State (<[n := v]> (ns st)) (out st)).

Definition emit (e : event num) : M num unit :=
  fun st => (inr tt, State (ns st) (out st ++ [e])).

End Monad.

Notation "x <~ e ; k" := (bind e (fun x => k))
  (at level 100, e at next level, k at level 200, right associativity, only parsing).
Notation "e ;~ k" := (bind e (fun _ => k))
  (at level 100, k at level 200, right associativity, only parsing).

Section Script.

Context {num : Type} `{Arith num}.
Variable W : World num.

Abbreviation Mv := (M num (value num)).
Abbreviation Args := (args.t num).

(** *** Statements and expressions *)

Fixpoint eval_args (es : list Mv) : M num (list (value num)) :=
  match es with
  | [] => ret []
  | e :: es' => v <~ e ; vs <~ eval_args es' ; ret (v :: vs)
  end.

Fixpoint eval_kwargs (es : list (string * Mv)) : M num (list (string * value num)) :=
  match es with
  | [] => ret []
  | (k, e) :: es' => v <~ e ; vs <~ eval_kwargs es' ; ret ((k, v) :: vs)
  end.

(** [f(e1, ..., k1=e1', ...)] for a function of another module: the
    arguments are evaluated left to right, then the call is made. *)
Definition call (f : string) (es : list Mv) (kws : list (string * Mv)) : Mv :=
  vs <~ eval_args es ;
  kvs <~ eval_kwargs kws ;
  emit (ECall f vs kvs) ;~
  match callee W f vs kvs with
  | Some v => ret v
  | None => raise (CalleeError f)
  end.

(** [name = e] *)
Definition assign (n : string) (e : Mv) : M num unit :=
  v <~ e ; set n v.

Fixpoint set_all (nvs : list (string * value num)) : M num unit :=
  match nvs with
  | [] => ret tt
  | (n, v) :: nvs' => set n v ;~ set_all nvs'
  end.

(** [n1, ..., nk = e]: the value is unpacked first; nothing is bound unless
    it yields exactly [k] items. *)
Definition assign_tuple (names : list string) (e : Mv) : M num unit :=
  v <~ e ;
  match py_iter v with
  | None => raise (TypeError "cannot unpack non-iterable object")
  | Some items =>
      if Nat.eqb (length items) (length names) then set_all (zip names items)
      else raise (ValueError "wrong number of values to unpack")
  end.

Notation "n ::= e" := (assign n e) (at level 60, only parsing).
Notation "ns :::= e" := (assign_tuple ns e) (at level 60, only parsing).

Definition lit (v : value num) : Mv := ret v.

(** [float(v)] and [int(v)] *)
Definition float_ (v : value num) : Mv :=
  x <~ lift (py_float (float_of_str W) v) ; ret (VFloat x).

Definition int_ (v : value num) : Mv :=
  z <~ lift (py_int (int_of_str W) v) ; ret (VInt z).

(** [print(text)] *)
Definition print (text : string) : M num unit := emit (EPrint text []).

(** [print(fmt % (v1, ..., vk))] with [%s] conversions. *)
Definition print_s (fmt : string) (vs : list (value num)) : M num unit :=
  emit (EPrint fmt vs).

(** [print(fmt % e)] with one [%f] conversion. *)
Definition print_f (fmt : string) (e : Mv) : M num unit :=
  v <~ e ;
  if formats_f v then emit (EPrint fmt (operands v))
  else raise (TypeError "must be real number").

(** [np.linalg.norm(e, axis=0)], [e[lo:hi,:]] and [np.divide(e1, e2)] *)
Definition norm (e : Mv) : Mv := v <~ e ; lift (np_linalg_norm_axis0 v).

Definition slice (lo hi : nat) (e : Mv) : Mv := v <~ e ; lift (rows_slice lo hi v).

Definition divide (e1 e2 : Mv) : Mv := a <~ e1 ; b <~ e2 ; lift (np_divide a b).

(** [gt_format == 'tum_cov'] *)
Definition is_tum_cov : M num bool :=
  f <~ get "gt_format" ; ret (py_eq_str f "tum_cov").

(** *** Lines 53-55: plot configuration *)

Definition configure (a : Args) : M num unit :=
  call "plot_utils.set_language" [] [("lang", lit (VStr (args.plot_lang a)))] ;~
  call "plot_utils.set_file_extension" [] [("ext", lit (VStr (args.plot_format a)))] ;~
  ret tt.

(** *** Lines 57-71: reading the two files and building the poses *)

Definition load (a : Args) : M num unit :=
  "gt_dict" ::= call "utils.read_file_dict" [lit (VStr (args.gt_file a))] [] ;~
  "est_dict" ::= call "utils.read_file_dict" [lit (VStr (args.est_file a))] [] ;~
  "gt_format" ::= call "utils.check_valid_pose_format" [get "gt_dict"] [] ;~
  "est_format" ::= call "utils.check_valid_pose_format" [get "est_dict"] [] ;~
  cov <~ is_tum_cov ;
  if cov : bool then
    ["gt_poses"; "gt_cov"] :::=
      call "utils.convert_file_dict_to_pose_dict" [get "gt_dict"]
        [("file_format", get "gt_format")] ;~
    ["est_poses"; "est_cov"] :::=
      call "utils.convert_file_dict_to_pose_dict" [get "est_dict"]
        [("file_format", get "est_format")]
  else
    "gt_poses" ::=
      call "utils.convert_file_dict_to_pose_dict" [get "gt_dict"]
        [("file_format", get "gt_format")] ;~
    "est_poses" ::=
      call "utils.convert_file_dict_to_pose_dict" [get "est_dict"]
        [("file_format", get "est_format")].

(** *** Lines 76-85: scale *)

Definition apply_scale (a : Args) : M num unit :=
  "scale" ::= float_ (args.scale a) ;~
  (if args.automatic_scale a then
     "scale" ::=
       call "utils.compute_scale_from_trajectories" [get "gt_poses"; get "est_poses"] []
   else ret tt) ;~
  print_f "Using scale: %f" (get "scale") ;~
  "gt_poses" ::= call "utils.scale_dict" [get "gt_poses"] [("scale_factor", lit (VInt 1))] ;~
  "est_poses" ::= call "utils.scale_dict" [get "est_poses"] [("scale_factor", get "scale")] ;~
  cov <~ is_tum_cov ;
  if cov : bool then
    "gt_cov_" ::=
      call "utils.scale_dict" [get "gt_cov"]
        [("scale_factor", lit (VInt 1)); ("is_cov", lit (VBool true))] ;~
    "est_cov" ::=
      call "utils.scale_dict" [get "est_cov"]
        [("scale_factor", get "scale"); ("is_cov", lit (VBool true))]
  else ret tt.

(** *** Lines 87-91: association by timestamp *)

Definition associate_kwargs (a : Args) : list (string * Mv) :=
  [("offset", float_ (args.offset a));
   ("max_difference", float_ (args.max_difference a));
   ("offset_initial", float_ (args.offset_initial a));
   ("recommended_offset", lit (VBool (args.recommended_offset a)))].

Definition associate (a : Args) : M num unit :=
  if negb (args.ignore_timestamp_match a) then
    ["gt_poses"; "est_poses"] :::=
      call "utils.associate_and_filter" [get "gt_poses"; get "est_poses"]
        (associate_kwargs a) ;~
    cov <~ is_tum_cov ;
    if cov : bool then
      ["gt_cov"; "est_cov"] :::=
        call "utils.associate_and_filter" [get "gt_cov"; get "est_cov"]
          (associate_kwargs a)
    else ret tt
  else ret tt.

(** *** Lines 93-102: alignment *)

Definition align (a : Args) : M num unit :=
  if bool_decide (args.alignment a = "manifold") then
    cov <~ is_tum_cov ;
    if cov : bool then
      ["gt_poses_align"; "est_poses_align"; "T_align_man"] :::=
        call "utils.align_trajectories_manifold" [get "gt_poses"; get "est_poses"]
          [("cov_est", get "est_cov"); ("align_gt", lit (VBool false))]
    else
      ["gt_poses_align"; "est_poses_align"; "T_align_man"] :::=
        call "utils.align_trajectories_manifold" [get "gt_poses"; get "est_poses"]
          [("align_gt", lit (VBool false))]
  else if bool_decide (args.alignment a = "horn") then
    ["gt_poses_align"; "est_poses_align"; "T_align_horn"] :::=
      call "utils.align_trajectories_horn" [get "gt_poses"; get "est_poses"]
        [("align_gt", lit (VBool false))]
  else if bool_decide (args.alignment a = "first") then
    ["gt_poses_align"; "est_poses_align"] :::=
      call "utils.align_trajectories_to_first" [get "gt_poses"; get "est_poses"] []
  else ret tt.

(** *** Lines 105-155: the metrics

    The texts printed keep the escape sequences of the source as written. *)

Definition statistics (x : Mv) (kws : list (string * Mv)) : M num unit :=
  call "slam_metrics.compute_statistics" [norm x] kws ;~ ret tt.

Definition verbose_kw (a : Args) : string * Mv :=
  ("verbose", lit (VBool (args.verbose a))).

(** Lines 108-110, and again with [axes] at 112-122. *)
Definition ate_horn (a : Args) (title : string) (kws : list (string * Mv)) : M num unit :=
  print title ;~
  "ate_horn_error" ::=
    call "slam_metrics.ATE_Horn" [get "gt_poses_align"; get "est_poses_align"] kws ;~
  statistics (get "ate_horn_error") [verbose_kw a].

Definition ate_horn_all (a : Args) : M num unit :=
  ate_horn a "\nATE - Horn" [] ;~
  ate_horn a "\nATE - Horn - X" [("axes", lit (VStr "X"))] ;~
  ate_horn a "\nATE - Horn - Y" [("axes", lit (VStr "Y"))] ;~
  ate_horn a "\nATE - Horn - Z" [("axes", lit (VStr "Z"))].

(** The two summaries every 6-row error array gets: rows 0-2 and rows 3-5. *)
Definition statistics_split (a : Args) (name : string) : M num unit :=
  statistics (slice 0 3 (get name))
    [("variable", lit (VStr "Translational")); verbose_kw a] ;~
  statistics (slice 3 6 (get name))
    [("variable", lit (VStr "Rotational")); verbose_kw a].

(** Lines 127-134. *)
Definition ate_se3 (a : Args) : M num unit :=
  print "\nATE - Manifold" ;~
  "ate_se3_error" ::=
    call "slam_metrics.ATE_SE3" [get "gt_poses_align"; get "est_poses_align"]
      [("offset", float_ (args.offset a));
       ("max_difference", float_ (args.max_difference a))] ;~
  statistics_split a "ate_se3_error".

(** Lines 137-148. *)
Definition rpe_names : list string :=
  ["rpe_error"; "rpe_trans_error"; "rpe_rot_error"; "rpe_distance"].

Definition rpe (a : Args) : M num unit :=
  print_s "\nRPE - %s [%s]" [args.delta a; VStr (args.delta_unit a)] ;~
  rpe_names :::=
    call "slam_metrics.RPE" [get "gt_poses_align"; get "est_poses_align"]
      [("param_max_pairs", int_ (args.max_pairs a));
       ("param_fixed_delta", lit (VBool (args.fixed_delta a)));
       ("param_delta", float_ (args.delta a));
       ("param_delta_unit", lit (VStr (args.delta_unit a)));
       ("param_offset", float_ (args.offset a))] ;~
  statistics_split a "rpe_error".

(** Lines 151-155. *)
Definition ddt (a : Args) : M num unit :=
  print "\nDDT" ;~
  "ddt" ::= divide (get "rpe_error") (get "rpe_distance") ;~
  statistics_split a "ddt".

Definition metrics (a : Args) : M num unit :=
  ate_horn_all a ;~
  (if args.ate_manifold a then ate_se3 a else ret tt) ;~
  (if args.rpe a then rpe a else ret tt) ;~
  (if args.ddt a then ddt a else ret tt).

(** *** Lines 157-181: the plot *)

(** [list(d.keys())] *)
Definition keys_list (e : Mv) : Mv :=
  v <~ e ;
  match v with
  | VDict d => ret (VList (map (fun kv => VFloat kv.1) d))
  | _ => raise (AttributeError "keys")
  end.

Definition as_float (v : value num) : option num :=
  match v with
  | VFloat x => Some x
  | _ => None
  end.

(** [l.sort()] for the list bound to [n]. *)
Definition sort_in_place (n : string) : M num unit :=
  v <~ get n ;
  match v with
  | VList l =>
      match mapM as_float l with
      | Some xs => set n (VList (map VFloat (py_sort xs)))
      | None => raise (TypeError "cannot order the items")
      end
  | _ => raise (AttributeError "sort")
  end.

Fixpoint for_each {A B : Type} (f : A -> M num B) (l : list A) : M num (list B) :=
  match l with
  | [] => ret []
  | x :: l' => y <~ f x ; ys <~ for_each f l' ; ret (y :: ys)
  end.

(** [np.matrix([f(d[a]) for a in d]).transpose()]; [d[a]] for a key [a] of
    [d] is the value stored with it. *)
Definition matrix_over (e : Mv) (f : value num -> Mv) : Mv :=
  v <~ e ;
  match v with
  | VDict d =>
      rows_ <~ for_each (fun kv : num * value num => f kv.2) d ;
      lift (np_matrix_transposed rows_)
  | _ => raise (TypeError "not a dictionary of poses")
  end.

Definition plot : M num unit :=
  "gt_data" ::= get "gt_poses_align" ;~
  "est_data" ::= get "est_poses_align" ;~
  "gt_stamps" ::= keys_list (get "gt_data") ;~
  sort_in_place "gt_stamps" ;~
  "est_stamps" ::= keys_list (get "est_data") ;~
  sort_in_place "est_stamps" ;~
  "gt_xyz" ::= matrix_over (get "gt_data") (fun T => lift (translation_of T)) ;~
  "est_xyz" ::= matrix_over (get "est_data") (fun T => lift (translation_of T)) ;~
  "gt_angles" ::=
    matrix_over (get "gt_data")
      (fun T => call "utils.rotm_to_rpy" [lift (rotation_of T)] []) ;~
  "est_angles" ::=
    matrix_over (get "est_data")
      (fun T => call "utils.rotm_to_rpy" [lift (rotation_of T)] []) ;~
  call "plot_utils.plot_2d_traj_xyz"
    [get "gt_stamps"; get "gt_xyz"; get "est_stamps"; get "est_xyz"]
    [("save_fig", lit (VBool true))] ;~
  ret tt.

(** *** The whole block *)

Definition main (a : Args) : M num unit :=
  configure a ;~
  load a ;~
  apply_scale a ;~
  associate a ;~
  align a ;~
  (if negb (args.no_metrics a) then metrics a else ret tt) ;~
  (if args.show_plots a then plot else ret tt).

Definition initial : state num := State ∅ [].

Definition run (a : Args) : res unit * state num := main a initial.

End Script.

Notation "n ::= e" := (assign n e) (at level 60, only parsing).
Notation "ns :::= e" := (assign_tuple ns e) (at level 60, only parsing).

(** ** The callees the specification describes

    [utils.py] and [slam_metrics.py] are not among the sources.  The two
    functions below follow the specification's description of them; the
    properties of scaling and of the Horn variant of the ATE are stated
    against these. *)

Section Described.

Context {num : Type} `{Arith num}.

(** Which components of the tangent space are translational.  The
    specification fixes an order without saying which, so the layout is a
    parameter. *)
Variable translational : nat -> bool.

(** [T[0:3,3] = k * T[0:3,3]]: column 3 of the first three rows. *)
Definition scale_pose (k : num) (T : Matrix num) : Matrix num :=
  map (alter (mul k) 3) (take 3 T) ++ drop 3 T.

(** The entries whose row and column are both translational. *)
Definition scale_cov (k : num) (C : Matrix num) : Matrix num :=
  imap (fun i row =>
          imap (fun j x => if translational i && translational j then mul k x else x) row)
       C.

Definition scale_entry (k : num) (is_cov : bool) (v : value num) : option (value num) :=
  match v with
  | VArr m => Some (VArr (if is_cov then scale_cov k m else scale_pose k m))
  | _ => None
  end.

(** Modelled from the spec: [utils.scale_dict] is missing from the sources.
    "scales only translational components of poses (and, if requested, the
    translational block of covariances) by factor; rotations are untouched";
    "scaling and alignment produce new Trajectory instances". *)
Definition scale_dict (d : Trajectory num) (k : num) (is_cov : bool) : option (Trajectory num) :=
  mapM (fun kv : num * value num => pair kv.1 <$> scale_entry k is_cov kv.2) d.

(** The keyword argument [k], when the call gives it. *)
Definition kwarg (kws : list (string * value num)) (k : string) : option (value num) :=
  (fun r : nat * (string * value num) => r.2.2)
    <$> list_find (fun kv : string * value num => bool_decide (kv.1 = k)) kws.

(** [utils.scale_dict(d, scale_factor=1, is_cov=False)] as a callee. *)
Definition scale_dict_callee (pos : list (value num))
    (kws : list (string * value num)) : option (value num) :=
  match pos with
  | [VDict d] =>
      k ← as_scalar (default (VInt 1) (kwarg kws "scale_factor"));
      c ← match default (VBool false) (kwarg kws "is_cov") with
           | VBool b => Some b
           | _ => None
           end;
      VDict <$> scale_dict d k c
  | _ => None
  end.

Inductive axis : Type := AxisX | AxisY | AxisZ.

(** The position of a pose: [T[0:3,3]]. *)
Definition position (T : Matrix num) : option (num * num * num) :=
  match mapM (fun r : list num => r !! 3) (take 3 T) with
  | Some [x; y; z] => Some (x, y, z)
  | _ => None
  end.

(** Restriction to one axis zeroes the other two components. *)
Definition restrict (axes : option axis) (v : num * num * num) : num * num * num :=
  match axes, v with
  | None, _ => v
  | Some AxisX, (x, _, _) => (x, of_Z 0, of_Z 0)
  | Some AxisY, (_, y, _) => (of_Z 0, y, of_Z 0)
  | Some AxisZ, (_, _, z) => (of_Z 0, of_Z 0, z)
  end.

Definition pair_error (axes : option axis) (g e : value num) : option (num * num * num) :=
  match g, e with
  | VArr g, VArr e =>
      '(gx, gy, gz) ← position g;
      '(ex, ey, ez) ← position e;
      Some (restrict axes (sub ex gx, sub ey gy, sub ez gz))
  | _, _ => None
  end.

(** Modelled from the spec: [slam_metrics.ATE_Horn] is missing from the
    sources.  "for each matched pair, error = (aligned_est_position −
    gt_position), optionally restricted to a single coordinate axis (X/Y/Z)
    by zeroing the other components before taking the norm".  The result is
    the 3xN array of the error vectors, one column per pair; the script takes
    the norms.  Pairs are matched by position in the two trajectories. *)
Definition ATE_Horn (gt est : Trajectory num) (axes : option axis) : option (Matrix num) :=
  if Nat.eqb (length gt) (length est) then
    errs ← mapM (fun ge : (num * value num) * (num * value num) =>
                   pair_error axes ge.1.2 ge.2.2) (zip gt est);
    Some [map (fun v : num * num * num => v.1.1) errs;
          map (fun v : num * num * num => v.1.2) errs;
          map (fun v : num * num * num => v.2) errs]
  else None.

Definition axes_kwarg (kws : list (string * value num)) : option (option axis) :=
  match kwarg kws "axes" with
  | None => Some None
  | Some (VStr s) =>
      if bool_decide (s = "X") then Some (Some AxisX)
      else if bool_decide (s = "Y") then Some (Some AxisY)
      else if bool_decide (s = "Z") then Some (Some AxisZ)
      else if bool_decide (s = "XYZ") then Some None
      else None
  | Some _ => None
  end.

(** [slam_metrics.ATE_Horn(gt, est, axes='XYZ')] as a callee. *)
Definition ATE_Horn_callee (pos : list (value num))
    (kws : list (string * value num)) : option (value num) :=
  match pos with
  | [VDict gt; VDict est] =>
      ax ← axes_kwarg kws;
      VArr <$> ATE_Horn gt est ax
  | _ => None
  end.

End Described.

(** ** A small world to run the script in

    Two recorded trajectories stand for the two files; the callees the
    specification describes are the ones above, the others do the least that
    lets a run go through (alignment by the identity, no statistics printed).
    The relative pose errors and the distances that [RPE] returns are fixed
    when the world is built. *)

Module Sample.

Section Sample.

Context {num : Type} `{Arith num}.

Definition pose (x y z : Z) : value num :=
  VArr [[of_Z 1; of_Z 0; of_Z 0; of_Z x];
        [of_Z 0; of_Z 1; of_Z 0; of_Z y];
        [of_Z 0; of_Z 0; of_Z 1; of_Z z];
        [of_Z 0; of_Z 0; of_Z 0; of_Z 1]].

Definition digit (c : ascii) : option Z :=
  let n := nat_of_ascii c in
  if Nat.leb 48 n && Nat.leb n 57 then Some (Z.of_nat (n - 48)) else None.

Fixpoint digits (acc : Z) (l : list ascii) : option Z :=
  match l with
  | [] => Some acc
  | c :: l' => d ← digit c; digits (10 * acc + d)%Z l'
  end.

(** Whole numbers in decimal, with an optional minus sign. *)
Definition int_of_text (s : string) : option Z :=
  match list_ascii_of_string s with
  | [] => None
  | c :: l =>
      if bool_decide (c = "-"%char) then
        match l with
        | [] => None
        | _ => Z.opp <$> digits 0 l
        end
      else digits 0 (c :: l)
  end.

Definition files : list (string * Trajectory num) := [
  ("gt.txt",  [(of_Z 0, pose 0 0 0); (of_Z 1, pose 1 0 0); (of_Z 2, pose 2 0 0)]);
  ("est.txt", [(of_Z 0, pose 0 0 0); (of_Z 1, pose 1 1 0); (of_Z 2, pose 2 0 2)]);
  ("short.txt", [(of_Z 0, pose 0 0 0); (of_Z 1, pose 1 1 0)])
].

Definition lookup_by_name {A : Type} (l : list (string * A)) (k : string) : option A :=
  (fun r : nat * (string * A) => r.2.2)
    <$> list_find (fun kv : string * A => bool_decide (kv.1 = k)) l.

Definition identity_pose : value num := pose 0 0 0.

(** What [slam_metrics.RPE] returns in this world: the 6xN error array, its
    translational and rotational parts, and the N traveled distances. *)
Variable rpe_error : Matrix num.
Variable rpe_distance : list num.

Definition translational (i : nat) : bool := Nat.ltb i 3.

Definition table :
    list (string * (list (value num) -> list (string * value num) -> option (value num))) := [
  ("plot_utils.set_language", fun _ _ => Some VNone);
  ("plot_utils.set_file_extension", fun _ _ => Some VNone);
  ("utils.read_file_dict", fun pos _ =>
     match pos with
     | [VStr f] => VDict <$> lookup_by_name files f
     | _ => None
     end);
  ("utils.check_valid_pose_format", fun _ _ => Some (VStr "tum"));
  ("utils.convert_file_dict_to_pose_dict", fun pos _ => head pos);
  ("utils.compute_scale_from_trajectories", fun _ _ => Some (VFloat (of_Z 2)));
  ("utils.scale_dict", scale_dict_callee translational);
  ("utils.associate_and_filter", fun pos _ => Some (VTuple pos));
  ("utils.align_trajectories_horn", fun pos _ => Some (VTuple (pos ++ [identity_pose])));
  ("utils.align_trajectories_manifold", fun pos _ => Some (VTuple (pos ++ [identity_pose])));
  ("utils.align_trajectories_to_first", fun pos _ => Some (VTuple pos));
  ("slam_metrics.ATE_Horn", ATE_Horn_callee);
  ("slam_metrics.ATE_SE3", fun _ _ => Some (VArr rpe_error));
  ("slam_metrics.RPE", fun _ _ =>
     Some (VTuple [VArr rpe_error; VArr (take 3 rpe_error);
                   VArr (take 3 (drop 3 rpe_error)); VVec rpe_distance]));
  ("slam_metrics.compute_statistics", fun _ _ => Some VNone);
  ("utils.rotm_to_rpy", fun _ _ => Some (VVec [of_Z 0; of_Z 0; of_Z 0]));
  ("plot_utils.plot_2d_traj_xyz", fun _ _ => Some VNone)
].

Definition world : World num := {|
  callee f pos kws :=
    match lookup_by_name table f with
    | Some g => g pos kws
    | None => None
    end;
  float_of_str s := of_Z <$> int_of_text s;
  int_of_str := int_of_text
|}.

End Sample.

End Sample.

(** ** What is observed of a run *)

Section Observations.

Context {num : Type}.

(** An event's name: the callee, or the text printed. *)
Definition label (e : event num) : string :=
  match e with
  | ECall f _ _ => f
  | EPrint text _ => text
  end.

Definition mem (n : string) (l : list string) : bool := existsb (String.eqb n) l.

Definition labels (st : state num) : list string := map label (out st).

(** The callee [f] was called at some point of the run. *)
Definition called (f : string) (st : state num) : bool := mem f (labels st).

(** The name [n] is bound when the run ends. *)
Definition bound (n : string) (st : state num) : bool := bool_decide (is_Some (ns st !! n)).

(** The stages of the pipeline. *)
Inductive stage : Type :=
| Configure | Load | Scaling | Association | Alignment | MetricEngine | Plotting.

Definition stage_table : list (string * stage) := [
  ("plot_utils.set_language", Configure);
  ("plot_utils.set_file_extension", Configure);
  ("utils.read_file_dict", Load);
  ("utils.check_valid_pose_format", Load);
  ("utils.convert_file_dict_to_pose_dict", Load);
  ("utils.compute_scale_from_trajectories", Scaling);
  ("Using scale: %f", Scaling);
  ("utils.scale_dict", Scaling);
  ("utils.associate_and_filter", Association);
  ("utils.align_trajectories_manifold", Alignment);
  ("utils.align_trajectories_horn", Alignment);
  ("utils.align_trajectories_to_first", Alignment);
  ("\nATE - Horn", MetricEngine);
  ("\nATE - Horn - X", MetricEngine);
  ("\nATE - Horn - Y", MetricEngine);
  ("\nATE - Horn - Z", MetricEngine);
  ("slam_metrics.ATE_Horn", MetricEngine);
  ("\nATE - Manifold", MetricEngine);
  ("slam_metrics.ATE_SE3", MetricEngine);
  ("\nRPE - %s [%s]", MetricEngine);
  ("slam_metrics.RPE", MetricEngine);
  ("\nDDT", MetricEngine);
  ("slam_metrics.compute_statistics", MetricEngine);
  ("utils.rotm_to_rpy", Plotting);
  ("plot_utils.plot_2d_traj_xyz", Plotting)
].

Definition stage_of_label (l : string) : option stage :=
  (fun r : nat * (string * stage) => r.2.2)
    <$> list_find (fun kv : string * stage => bool_decide (kv.1 = l)) stage_table.

(** The stage an event belongs to: the callee's, or that of the line printed. *)
Definition stage_of (e : event num) : option stage := stage_of_label (label e).

(** The order in which the script runs its stages. *)
Definition code_rank (s : option stage) : nat :=
  match s with
  | None => 0
  | Some Configure => 1
  | Some Load => 2
  | Some Scaling => 3
  | Some Association => 4
  | Some Alignment => 5
  | Some MetricEngine => 6
  | Some Plotting => 7
  end.

(** The order the specification gives: load, association, scale and
    alignment selection, alignment, metrics, report. *)
Definition spec_rank (s : option stage) : nat :=
  match s with
  | None => 0
  | Some Configure => 1
  | Some Load => 2
  | Some Association => 3
  | Some Scaling => 4
  | Some Alignment => 5
  | Some MetricEngine => 6
  | Some Plotting => 7
  end.

Fixpoint nondecreasing (l : list nat) : bool :=
  match l with
  | a :: (b :: _) as l' => Nat.leb a b && nondecreasing l'
  | _ => true
  end.

(** Every event belongs to a stage, and the stages never step back. *)
Definition in_order (rank : option stage -> nat) (evs : list (event num)) : bool :=
  forallb (fun e => bool_decide (is_Some (stage_of e))) evs
  && nondecreasing (map (fun e => rank (stage_of e)) evs).

End Observations.

(** ** The blocks of the script

    The same statements as in [main], grouped by the lines they come from,
    with the names each block may bind and the events it may emit. *)

Definition configure_labels : list string :=
  ["plot_utils.set_language"; "plot_utils.set_file_extension"].

Definition load_names : list string :=
  ["gt_dict"; "est_dict"; "gt_format"; "est_format";
   "gt_poses"; "gt_cov"; "est_poses"; "est_cov"].

Definition load_labels : list string :=
  ["utils.read_file_dict"; "utils.check_valid_pose_format";
   "utils.convert_file_dict_to_pose_dict"].

Definition scale_names : list string :=
  ["scale"; "gt_poses"; "est_poses"; "gt_cov_"; "est_cov"].

Definition scale_labels : list string :=
  ["utils.compute_scale_from_trajectories"; "Using scale: %f"; "utils.scale_dict"].

Definition associate_names : list string :=
  ["gt_poses"; "est_poses"; "gt_cov"; "est_cov"].

Definition associate_labels : list string := ["utils.associate_and_filter"].

Definition align_names : list string :=
  ["gt_poses_align"; "est_poses_align"; "T_align_man"; "T_align_horn"].

Definition align_labels : list string :=
  ["utils.align_trajectories_manifold"; "utils.align_trajectories_horn";
   "utils.align_trajectories_to_first"].

Definition ate_horn_labels : list string :=
  ["\nATE - Horn"; "\nATE - Horn - X"; "\nATE - Horn - Y"; "\nATE - Horn - Z";
   "slam_metrics.ATE_Horn"; "slam_metrics.compute_statistics"].

Definition ate_se3_labels : list string :=
  ["\nATE - Manifold"; "slam_metrics.ATE_SE3"; "slam_metrics.compute_statistics"].

Definition rpe_labels : list string :=
  ["\nRPE - %s [%s]"; "slam_metrics.RPE"; "slam_metrics.compute_statistics"].

Definition ddt_labels : list string := ["\nDDT"; "slam_metrics.compute_statistics"].

Definition plot_names : list string :=
  ["gt_data"; "est_data"; "gt_stamps"; "est_stamps";
   "gt_xyz"; "est_xyz"; "gt_angles"; "est_angles"].

Definition plot_labels : list string :=
  ["utils.rotm_to_rpy"; "plot_utils.plot_2d_traj_xyz"].

Definition prepare_names : list string :=
  load_names ++ scale_names ++ associate_names ++ align_names.

Definition prepare_labels : list string :=
  configure_labels ++ load_labels ++ scale_labels ++ associate_labels ++ align_labels.

Definition before_align_names : list string :=
  load_names ++ scale_names ++ associate_names.

Definition before_align_labels : list string :=
  configure_labels ++ load_labels ++ scale_labels ++ associate_labels.

Definition bypass_labels : list string :=
  configure_labels ++ load_labels ++ scale_labels ++ align_labels.

Section Blocks.

Context {num : Type} `{Arith num}.
Variable W : World num.
Variable a : args.t num.

(** Lines 77-79. *)
Definition choose_scale : M num unit :=
  "scale" ::= float_ W (args.scale a) ;~
  (if args.automatic_scale a then
     "scale" ::=
       call W "utils.compute_scale_from_trajectories" [get "gt_poses"; get "est_poses"] []
   else ret tt).

(** Lines 80-85. *)
Definition scale_both : M num unit :=
  print_f "Using scale: %f" (get "scale") ;~
  "gt_poses" ::= call W "utils.scale_dict" [get "gt_poses"] [("scale_factor", lit (VInt 1))] ;~
  "est_poses" ::= call W "utils.scale_dict" [get "est_poses"] [("scale_factor", get "scale")] ;~
  cov <~ is_tum_cov ;
  if cov : bool then
    "gt_cov_" ::=
      call W "utils.scale_dict" [get "gt_cov"]
        [("scale_factor", lit (VInt 1)); ("is_cov", lit (VBool true))] ;~
    "est_cov" ::=
      call W "utils.scale_dict" [get "est_cov"]
        [("scale_factor", get "scale"); ("is_cov", lit (VBool true))]
  else ret tt.

(** Lines 80-181. *)
Definition after_scale_choice : M num unit :=
  scale_both ;~ associate W a ;~ align W a ;~
  (if negb (args.no_metrics a) then metrics W a else ret tt) ;~
  (if args.show_plots a then plot W else ret tt).

(** Lines 53-102: everything up to and including the alignment. *)
Definition prepare : M num unit :=
  configure W a ;~ load W a ;~ apply_scale W a ;~ associate W a ;~ align W a.

(** Lines 105-181: the metrics and the plot. *)
Definition finish : M num unit :=
  (if negb (args.no_metrics a) then metrics W a else ret tt) ;~
  (if args.show_plots a then plot W else ret tt).

(** Lines 105-134: the metrics before RPE. *)
Definition before_rpe : M num unit :=
  ate_horn_all W a ;~ (if args.ate_manifold a then ate_se3 W a else ret tt).

(** Lines 53-148: all that runs before the DDT block when metrics are on. *)
Definition before_ddt : M num unit :=
  prepare ;~ before_rpe ;~ (if args.rpe a then rpe W a else ret tt).

(** Lines 150-181: the DDT block and the plot. *)
Definition from_ddt : M num unit :=
  (if args.ddt a then ddt W a else ret tt) ;~
  (if args.show_plots a then plot W else ret tt).

(** [--alignment] is none of the three modes the script tests for. *)
Definition unknown_alignment : Prop :=
  args.alignment a <> "manifold" /\ args.alignment a <> "horn"
  /\ args.alignment a <> "first".

(** Names and events of the metrics and the plot, by the options given. *)
Definition metrics_names : list string :=
  ["ate_horn_error"]
  ++ (if args.ate_manifold a then ["ate_se3_error"] else [])
  ++ (if args.rpe a then rpe_names else [])
  ++ (if args.ddt a then ["ddt"] else []).

Definition metrics_labels : list string :=
  ate_horn_labels
  ++ (if args.ate_manifold a then ate_se3_labels else [])
  ++ (if args.rpe a then rpe_labels else [])
  ++ (if args.ddt a then ddt_labels else []).

Definition finish_names : list string :=
  (if args.no_metrics a then [] else metrics_names)
  ++ (if args.show_plots a then plot_names else []).

Definition finish_labels : list string :=
  (if args.no_metrics a then [] else metrics_labels)
  ++ (if args.show_plots a then plot_labels else []).

(** The quotient of a 2-D array by a vector with one entry per column:
    each row is divided entry by entry; no column is dropped. *)
Definition divide_rows (e : Matrix num) (d : list num) : Matrix num :=
  map (fun row => zip_with div row d) e.

(** The two summaries of a 6-row array: the norms of the columns of rows
    0-2 as 'Translational', those of rows 3-5 as 'Rotational'. *)
Definition split_events (m : Matrix num) : list (event num) :=
  [ECall "slam_metrics.compute_statistics" [VVec (col_norms (take 3 m))]
     [("variable", VStr "Translational"); ("verbose", VBool (args.verbose a))];
   ECall "slam_metrics.compute_statistics" [VVec (col_norms (take 3 (drop 3 m)))]
     [("variable", VStr "Rotational"); ("verbose", VBool (args.verbose a))]].

End Blocks.

(** ** Properties of computations *)

Section Judgements.

Context {num : Type}.

(** [steps m Ws Ls]: whatever the state, [m] only appends events, each with
    a label of [Ls], and leaves every name outside [Ws] as it was. *)
Definition steps {A : Type} (m : M num A) (Ws Ls : list string) : Prop :=
  forall st, exists evs,
    out (m st).2 = out st ++ evs
    /\ forallb (fun e => mem (label e) Ls) evs = true
    /\ forall n, mem n Ws = false -> ns (m st).2 !! n = ns st !! n.

(** [post m Q]: [Q] holds of the state whenever [m] returns normally. *)
Definition post {A : Type} (m : M num A) (Q : state num -> Prop) : Prop :=
  forall st x st', m st = (inr x, st') -> Q st'.

(** Events of one stage [k]. *)
Definition of_stage (k : nat) (evs : list (event num)) : bool :=
  forallb (fun e => Nat.eqb (code_rank (stage_of e)) k) evs.

(** Events in order, none of a stage before [k]. *)
Definition from_stage (k : nat) (evs : list (event num)) : Prop :=
  in_order code_rank evs = true
  /\ Forall (fun e => k <= code_rank (stage_of e)) evs.

(** A computation whose events are in order and of no stage before [k]. *)
Definition ordered_from {A : Type} (k : nat) (m : M num A) : Prop :=
  forall st, exists evs, out (m st).2 = out st ++ evs /\ from_stage k evs.

End Judgements.

(** ** Scaling on objects *)

(** The trajectories as Python objects: a store of dictionaries, a name
    holding the address of one. *)
Abbreviation store num := (list (Trajectory num)).

Section Objects.

Context {num : Type} `{Arith num}.
Variable translational : nat -> bool.



(** The entry in row [i] and column [j] of an array. *)
Definition entry (m : Matrix num) (i j : nat) : option num :=
  m !! i ≫= (fun row : list num => row !! j).


End Objects.

(** ** Sample command lines and runs *)

Module Demo.

Section Commands.

Context {num : Type} `{Arith num}.

(** [gt.txt est --alignment ALIGNMENT] with the flags given. *)
Definition command (est alignment : string)
    (ate_manifold rpe ddt automatic_scale show_plots no_metrics ignore : bool)
    : args.t num := {|
  args.gt_file := "gt.txt";
  args.est_file := est;
  args.offset := VFloat (of_Z 0);
  args.offset_initial := VFloat (of_Z 0);
  args.scale := VFloat (of_Z 1);
  args.max_pairs := VInt 10000;
  args.max_difference := VFloat (div (of_Z 2) (of_Z 100));
  args.fixed_delta := false;
  args.delta := VFloat (of_Z 1);
  args.delta_unit := "m";
  args.alignment := alignment;
  args.plot_lang := "EN";
  args.plot_format := "pdf";
  args.ate_manifold := ate_manifold;
  args.rpe := rpe;
  args.ddt := ddt;
  args.automatic_scale := automatic_scale;
  args.show_plots := show_plots;
  args.no_metrics := no_metrics;
  args.verbose := false;
  args.ignore_timestamp_match := ignore;
  args.recommended_offset := false
|}.

(** Two pairs; the first has not moved (distance 0) and has no error. *)
Definition errors : Matrix num :=
  map (map of_Z) [[0; 3]; [0; 4]; [0; 12]; [0; 1]; [0; 2]; [0; 2]]%Z.

Definition distances : list num := map of_Z [0; 2]%Z.

Definition world : World num := Sample.world errors distances.

(** A state in which only the two results of RPE that DDT reads are bound. *)
Definition after_rpe : state num :=
  State (<["rpe_distance" := VVec distances]> (<["rpe_error" := VArr errors]> ∅)) [].

(** A state in which the two aligned trajectories are bound. *)
Definition after_align : state num :=
  State (<["est_poses_align" := VDict [(of_Z 0, Sample.pose 1 2 3)]]>
           (<["gt_poses_align" := VDict [(of_Z 0, Sample.pose 0 0 0)]]> ∅)) [].

End Commands.

(** [gt.txt est.txt] *)
Definition plain : args.t float :=
  command (H := Binary64.arith) "est.txt" "horn" false false false false false false false.

(** [gt.txt est.txt --rpe --ddt] *)
Definition rpe_ddt : args.t float :=
  command (H := Binary64.arith) "est.txt" "horn" false true true false false false false.

(** [gt.txt est.txt --ddt] *)
Definition ddt_only : args.t float :=
  command (H := Binary64.arith) "est.txt" "horn" false false true false false false false.

(** [gt.txt est.txt --alignment icp --show_plots] *)
Definition icp : args.t float :=
  command (H := Binary64.arith) "est.txt" "icp" false false false false true false false.

(** [gt.txt est.txt --automatic_scale] *)
Definition automatic : args.t float :=
  command (H := Binary64.arith) "est.txt" "horn" false false false true false false false.

(** [gt.txt short.txt --ignore_timestamp_match --no_metrics]: three poses
    against two. *)
Definition bypass_short : args.t float :=
  command (H := Binary64.arith) "short.txt" "horn" false false false false false true true.

End Demo.

(** ** More blocks, judgements and data for the remaining lines *)

Section HornPass.
Context {num : Type} `{Arith num}.
Variable a : args.t num.

(** The three events of one pass of lines 108-122: the title, the call of
    [ATE_Horn] and the statistics of the column norms of its result. *)
Definition horn_pass (g e : value num) (title : string)
    (kws : list (string * value num)) (m : Matrix num) : list (event num) :=
  [EPrint title [];
   ECall "slam_metrics.ATE_Horn" [g; e] kws;
   ECall "slam_metrics.compute_statistics" [VVec (col_norms m)]
     [("verbose", VBool (args.verbose a))]].

End HornPass.

Section Failures.

Context {num : Type} `{Arith num}.
Variable W : World num.

(** [stops_at_call m]: when [m] ends with the exception of a callee, the
    call that raised is the last event, and the callee indeed refused it. *)
Definition stops_at_call {A : Type} (m : M num A) : Prop :=
  forall st f st',
    m st = (inl (CalleeError f), st') ->
    exists pos kws,
      last (out st') = Some (ECall f pos kws) /\ callee W f pos kws = None.

(** A result of the script's own expressions (numpy and the built-ins): if
    it is an error, it is neither the exception of a callee nor a name
    that is unbound. *)
Definition own_error {A : Type} (r : res A) : Prop :=
  forall e, r = inl e ->
    match e with
    | NameError _ | CalleeError _ => False
    | _ => True
    end.

End Failures.

Section PlotData.

Context {num : Type} `{Arith num}.

(** A 4x4 array, the shape of a pose. *)
Definition pose_shaped (T : Matrix num) : Prop :=
  length T = 4 /\ Forall (fun r => length r = 4) T.

(** A dictionary of poses, from its items in order. *)
Definition pose_dict (items : list (num * Matrix num)) : value num :=
  VDict (map (fun p : num * Matrix num => (p.1, VArr p.2)) items).

(** [T[0:3,3]] as a list. *)
Definition xyz_of (T : Matrix num) : list num :=
  omap (fun r : list num => r !! 3) (take 3 T).

(** [np.matrix([T[0:3,3] for ...]).transpose()]: one column per pose, in the
    order the poses are given; no rows when there is no pose. *)
Definition positions (poses : list (Matrix num)) : Matrix num :=
  match poses with
  | [] => []
  | _ => transpose_rows 3 (map xyz_of poses)
  end.

(** The call line 178 or 179 makes for one pose. *)
Definition rpy_event (T : Matrix num) : event num :=
  ECall "utils.rotm_to_rpy" [VArr (map (take 3) (take 3 T))] [].

(** The sorted timestamps of a dictionary, as the list the script builds. *)
Definition sorted_stamps (items : list (num * Matrix num)) : value num :=
  VList (map VFloat (py_sort (map fst items))).

End PlotData.

Section Names.

Context {num : Type}.

(** Every name of [B] is bound. *)
Definition has (B : list string) (st : state num) : Prop :=
  forall n, mem n B = true -> is_Some (ns st !! n).

Definition no_name_error {A : Type} (r : res A) : Prop :=
  forall n, r <> inl (NameError n).

(** [safe inv B m]: from a state in which the names of [B] are bound (and
    [gt_format] holds [f], when [inv] is [Some f]), the computation [m]
    reads no unbound name, unbinds nothing, and with [inv] leaves
    [gt_format] as it is. *)
Definition safe {A : Type} (inv : option (value num)) (B : list string)
    (m : M num A) : Prop :=
  forall st,
    has B st ->
    (forall f, inv = Some f -> ns st !! "gt_format" = Some f) ->
    no_name_error (m st).1
    /\ (forall n, is_Some (ns st !! n) -> is_Some (ns (m st).2 !! n))
    /\ (forall f, inv = Some f -> ns (m st).2 !! "gt_format" = Some f).

(** The names the load leaves bound, by the format [f] of the ground truth. *)
Definition loaded_names {A : Type} `{Arith A} (f : value A) : list string :=
  ["gt_format"; "gt_poses"; "est_poses"]
  ++ (if py_eq_str f "tum_cov" then ["gt_cov"; "est_cov"] else []).

End Names.

(** ** More sample worlds, command lines and states *)

Module Cases.

Section Cases.

Context {num : Type} `{Arith num}.

(** The same command line with another [--max_pairs]. *)
Definition with_max_pairs (v : value num) (a : args.t num) : args.t num := {|
  args.gt_file := args.gt_file a;
  args.est_file := args.est_file a;
  args.offset := args.offset a;
  args.offset_initial := args.offset_initial a;
  args.scale := args.scale a;
  args.max_pairs := v;
  args.max_difference := args.max_difference a;
  args.fixed_delta := args.fixed_delta a;
  args.delta := args.delta a;
  args.delta_unit := args.delta_unit a;
  args.alignment := args.alignment a;
  args.plot_lang := args.plot_lang a;
  args.plot_format := args.plot_format a;
  args.ate_manifold := args.ate_manifold a;
  args.rpe := args.rpe a;
  args.ddt := args.ddt a;
  args.automatic_scale := args.automatic_scale a;
  args.show_plots := args.show_plots a;
  args.no_metrics := args.no_metrics a;
  args.verbose := args.verbose a;
  args.ignore_timestamp_match := args.ignore_timestamp_match a;
  args.recommended_offset := args.recommended_offset a
|}.


(** The two entries of the ground truth and of the estimate as matrices. *)
Definition matrix (x y z : Z) : Matrix num :=
  [[of_Z 1; of_Z 0; of_Z 0; of_Z x];
   [of_Z 0; of_Z 1; of_Z 0; of_Z y];
   [of_Z 0; of_Z 0; of_Z 1; of_Z z];
   [of_Z 0; of_Z 0; of_Z 0; of_Z 1]].

(** Two poses each, the later one first: dictionaries keep insertion order. *)
Definition gt_items : list (num * Matrix num) :=
  [(of_Z 2, matrix 2 0 0); (of_Z 1, matrix 1 0 0)].

Definition est_items : list (num * Matrix num) :=
  [(of_Z 2, matrix 2 0 2); (of_Z 1, matrix 1 1 0)].

Definition aligned : state num :=
  State (<["est_poses_align" := pose_dict est_items]>
           (<["gt_poses_align" := pose_dict gt_items]> ∅)) [].

(** A state as the load leaves it for plain TUM files. *)
Definition loaded : state num :=
  State (<["gt_format" := VStr "tum"]>
           (<["est_poses" := pose_dict est_items]>
              (<["gt_poses" := pose_dict gt_items]> ∅))) [].

(** Three distances for the two pairs of [Demo.errors]. *)
Definition mismatched : state num :=
  State (<["rpe_distance" := VVec [of_Z 1; of_Z 2; of_Z 3]]>
           (<["rpe_error" := VArr Demo.errors]> ∅)) [].



End Cases.

(** [gt.txt est.txt --rpe --max_pairs 1e4] *)
Definition text_pairs : args.t float :=
  with_max_pairs (VStr "1e4") Demo.rpe_ddt.

(** [gt.txt est.txt --scale abc] *)
Definition text_scale : args.t float := args.with_scale (VStr "abc") Demo.plain.

(** [gt.txt est.txt --alignment manifold] *)
Definition manifold : args.t float :=
  Demo.command (H := Binary64.arith) "est.txt" "manifold"
    false false false false false false false.

(** [gt.txt est.txt --show_plots] *)
Definition plots : args.t float :=
  Demo.command (H := Binary64.arith) "est.txt" "horn"
    false false false false true false false.

(** [gt.txt missing.txt] *)
Definition missing : args.t float :=
  Demo.command (H := Binary64.arith) "missing.txt" "horn"
    false false false false false false false.




End Cases.

(** * Proofs *)

(** ** The monad *)

Section MonadFacts.

Context {num : Type}.

Lemma bind_inr {A B : Type} (m : M num A) (k : A -> M num B) st b st2 :
  bind m k st = (inr b, st2) ->
  exists a st1, m st = (inr a, st1) /\ k a st1 = (inr b, st2).
Proof.
  unfold bind. destruct (m st) as [[e | a] st1]; intros Hk.
  - discriminate.
  - exists a, st1. split; [reflexivity | exact Hk].
Qed.

Lemma bind_inl {A B : Type} (m : M num A) (k : A -> M num B) st e st2 :
  bind m k st = (inl e, st2) ->
  m st = (inl e, st2) \/ exists a st1, m st = (inr a, st1) /\ k a st1 = (inl e, st2).
Proof.
  unfold bind. destruct (m st) as [[e' | a] st1]; intros Hk.
  - left. injection Hk as -> ->. reflexivity.
  - right. exists a, st1. split; [reflexivity | exact Hk].
Qed.

Lemma bind_cases {A B : Type} (m : M num A) (k : A -> M num B) st r st2 :
  bind m k st = (r, st2) ->
  (exists e, m st = (inl e, st2) /\ r = inl e)
  \/ exists a st1, m st = (inr a, st1) /\ k a st1 = (r, st2).
Proof.
  unfold bind. destruct (m st) as [[e | a] st1]; intros Hk.
  - left. exists e. injection Hk as <- <-. auto.
  - right. exists a, st1. auto.
Qed.

(** *** Footprint of a computation

    [steps m Ws Ls]: whatever the state, [m] only appends events, each with
    a label of [Ls], and leaves every name outside [Ws] as it was. *)

Lemma steps_ret {A : Type} (a : A) Ws Ls : steps (ret a : M num A) Ws Ls.
Proof. intros st. exists []. cbn. rewrite app_nil_r. auto. Qed.

Lemma steps_raise {A : Type} e Ws Ls : steps (raise e : M num A) Ws Ls.
Proof. intros st. exists []. cbn. rewrite app_nil_r. auto. Qed.

Lemma steps_lift {A : Type} (r : res A) Ws Ls : steps (lift r : M num A) Ws Ls.
Proof. intros st. exists []. cbn. rewrite app_nil_r. auto. Qed.

Lemma steps_get n Ws Ls : steps (get n : M num (value num)) Ws Ls.
Proof.
  intros st. exists []. unfold get.
  destruct (ns st !! n); cbn; rewrite app_nil_r; auto.
Qed.

Lemma mem_false_ne n m l : mem n l = false -> mem m l = true -> m <> n.
Proof. intros Hn Hm ->. congruence. Qed.

Lemma steps_set n (v : value num) Ws Ls : mem n Ws = true -> steps (set n v) Ws Ls.
Proof.
  intros Hn st. exists []. cbn. rewrite app_nil_r. repeat split.
  intros n' Hn'. apply lookup_insert_ne. eapply mem_false_ne; eassumption.
Qed.

Lemma steps_emit (e : event num) Ws Ls : mem (label e) Ls = true -> steps (emit e) Ws Ls.
Proof.
  intros He st. exists [e]. cbn. rewrite He. auto.
Qed.

Lemma steps_bind {A B : Type} (m : M num A) (k : A -> M num B) Ws Ls :
  steps m Ws Ls -> (forall a, steps (k a) Ws Ls) -> steps (bind m k) Ws Ls.
Proof.
  intros Hm Hk st. destruct (Hm st) as (evs1 & Ho1 & Hl1 & Hn1).
  unfold bind. destruct (m st) as [[e | a] st1]; cbn in *.
  - exists evs1. auto.
  - destruct (Hk a st1) as (evs2 & Ho2 & Hl2 & Hn2).
    exists (evs1 ++ evs2). rewrite Ho2, Ho1, app_assoc, forallb_app, Hl1, Hl2.
    repeat split. intros n Hn. rewrite Hn2, Hn1; auto.
Qed.

Lemma mem_weaken n l l' :
  forallb (fun x => mem x l') l = true -> mem n l = true -> mem n l' = true.
Proof.
  unfold mem at 2. rewrite forallb_forall, existsb_exists.
  intros Hl (x & Hx & Heq). apply String.eqb_eq in Heq. subst x. auto.
Qed.

Lemma steps_weaken {A : Type} (m : M num A) Ws Ls Ws' Ls' :
  steps m Ws Ls ->
  forallb (fun x => mem x Ws') Ws = true ->
  forallb (fun x => mem x Ls') Ls = true ->
  steps m Ws' Ls'.
Proof.
  intros Hm HW HL st. destruct (Hm st) as (evs & Ho & Hl & Hn).
  exists evs. repeat split; [exact Ho | | ].
  - rewrite forallb_forall in Hl |- *. intros e He. eapply mem_weaken; eauto.
  - intros n Hn'. apply Hn. destruct (mem n Ws) eqn:E; [| reflexivity].
    rewrite (mem_weaken _ _ _ HW E) in Hn'. discriminate.
Qed.

End MonadFacts.

(** ** Footprints of the script's statements *)

Section Footprints.

Context {num : Type} `{Arith num}.
Variable W : World num.

Lemma steps_eval_args (es : list (M num (value num))) Ws Ls :
  Forall (fun e => steps e Ws Ls) es -> steps (eval_args es) Ws Ls.
Proof.
  induction 1 as [| e es He _ IH]; cbn.
  - apply steps_ret.
  - apply steps_bind; [exact He | intros v].
    apply steps_bind; [exact IH | intros vs]. apply steps_ret.
Qed.

Lemma steps_eval_kwargs (kws : list (string * M num (value num))) Ws Ls :
  Forall (fun ke => steps ke.2 Ws Ls) kws -> steps (eval_kwargs kws) Ws Ls.
Proof.
  induction 1 as [| [k e] kws He _ IH]; cbn.
  - apply steps_ret.
  - apply steps_bind; [exact He | intros v].
    apply steps_bind; [exact IH | intros vs]. apply steps_ret.
Qed.

Lemma steps_call f es kws Ws Ls :
  mem f Ls = true ->
  Forall (fun e => steps e Ws Ls) es ->
  Forall (fun ke => steps ke.2 Ws Ls) kws ->
  steps (call W f es kws) Ws Ls.
Proof.
  intros Hf Hes Hkws. unfold call.
  apply steps_bind; [apply steps_eval_args; exact Hes | intros vs].
  apply steps_bind; [apply steps_eval_kwargs; exact Hkws | intros kvs].
  apply steps_bind; [apply steps_emit; exact Hf | intros _].
  destruct (callee W f vs kvs); [apply steps_ret | apply steps_raise].
Qed.

Lemma steps_assign n (e : M num (value num)) Ws Ls :
  mem n Ws = true -> steps e Ws Ls -> steps (assign n e) Ws Ls.
Proof.
  intros Hn He. unfold assign.
  apply steps_bind; [exact He | intros v]. apply steps_set. exact Hn.
Qed.

Lemma steps_set_all (nvs : list (string * value num)) Ws Ls :
  forallb (fun nv => mem nv.1 Ws) nvs = true -> steps (set_all nvs) Ws Ls.
Proof.
  induction nvs as [| [n v] nvs IH]; cbn; intros Hall.
  - apply steps_ret.
  - apply andb_prop in Hall as [Hn Hall].
    apply steps_bind; [apply steps_set; exact Hn | intros _; apply IH; exact Hall].
Qed.

Lemma forallb_zip_names (names : list string) (items : list (value num)) Ws :
  forallb (fun n => mem n Ws) names = true ->
  forallb (fun nv : string * value num => mem nv.1 Ws) (zip names items) = true.
Proof.
  revert items. induction names as [| n names IH]; intros [| v items] Hall; cbn in *; auto.
  apply andb_prop in Hall as [-> Hall]. cbn. apply IH. exact Hall.
Qed.

Lemma steps_assign_tuple names (e : M num (value num)) Ws Ls :
  forallb (fun n => mem n Ws) names = true ->
  steps e Ws Ls -> steps (assign_tuple names e) Ws Ls.
Proof.
  intros Hn He. unfold assign_tuple.
  apply steps_bind; [exact He | intros v].
  destruct (py_iter v) as [items |]; [| apply steps_raise].
  destruct (Nat.eqb _ _); [| apply steps_raise].
  apply steps_set_all, forallb_zip_names, Hn.
Qed.

Lemma steps_for_each {A B : Type} (f : A -> M num B) (l : list A) Ws Ls :
  (forall x, steps (f x) Ws Ls) -> steps (for_each f l) Ws Ls.
Proof.
  intros Hf. induction l as [| x l IH]; cbn.
  - apply steps_ret.
  - apply steps_bind; [apply Hf | intros y].
    apply steps_bind; [exact IH | intros ys]. apply steps_ret.
Qed.

End Footprints.

Ltac head_of t :=
  lazymatch t with
  | ?f _ => head_of f
  | _ => t
  end.

(** Footprints are found by following the syntax of a block. *)
Ltac footprint :=
  repeat first
    [ apply steps_ret
    | apply steps_raise
    | apply steps_lift
    | apply steps_get
    | apply steps_set; reflexivity
    | apply steps_emit; reflexivity
    | apply steps_assign; [reflexivity |]
    | apply steps_assign_tuple; [reflexivity |]
    | apply steps_call; [reflexivity | repeat constructor | repeat constructor]
    | apply steps_for_each; intros
    | apply steps_bind; [| intros]
    | match goal with
      | |- steps (if ?b then _ else _) _ _ => destruct b
      | |- steps (match ?x with _ => _ end) _ _ => destruct x
      | |- steps ?m _ _ => let h := head_of m in progress unfold h
      end
    | progress cbn [snd] ].

Section Stages.

Context {num : Type} `{Arith num}.
Variable W : World num.
Variable a : args.t num.

Lemma configure_steps : steps (configure W a) [] configure_labels.
Proof. footprint. Qed.

Lemma load_steps : steps (load W a) load_names load_labels.
Proof. footprint. Qed.

Lemma apply_scale_steps : steps (apply_scale W a) scale_names scale_labels.
Proof. footprint. Qed.

Lemma associate_steps : steps (associate W a) associate_names associate_labels.
Proof. footprint. Qed.

Lemma align_steps : steps (align W a) align_names align_labels.
Proof. footprint. Qed.

Lemma ate_horn_all_steps : steps (ate_horn_all W a) ["ate_horn_error"] ate_horn_labels.
Proof. footprint. Qed.

Lemma ate_se3_steps : steps (ate_se3 W a) ["ate_se3_error"] ate_se3_labels.
Proof. footprint. Qed.

Lemma rpe_steps : steps (rpe W a) rpe_names rpe_labels.
Proof. footprint. Qed.

Lemma ddt_steps : steps (ddt W a) ["ddt"] ddt_labels.
Proof. footprint. Qed.

Lemma plot_steps : steps (plot W) plot_names plot_labels.
Proof. footprint. Qed.

End Stages.

(** ** Order of the stages *)

Section Order.

Context {num : Type}.

Lemma nondecreasing_app (k : nat) (l1 l2 : list nat) :
  nondecreasing l1 = true -> nondecreasing l2 = true ->
  Forall (fun x => x <= k) l1 -> Forall (fun x => k <= x) l2 ->
  nondecreasing (l1 ++ l2) = true.
Proof.
  intros H1 H2 Hle Hge. induction l1 as [| x l1 IH]; [exact H2 |].
  apply Forall_cons in Hle as [Hx Hle].
  destruct l1 as [| y l1].
  - destruct l2 as [| z l2]; [reflexivity |]. cbn.
    apply Forall_cons in Hge as [Hz _].
    rewrite (proj2 (Nat.leb_le x z)) by lia. exact H2.
  - cbn in H1 |- *. apply andb_prop in H1 as [Hxy H1].
    rewrite Hxy. cbn. apply IH; assumption.
Qed.

Lemma nondecreasing_const (k : nat) (l : list nat) :
  Forall (fun x => x = k) l -> nondecreasing l = true.
Proof.
  induction 1 as [| x l -> Hl IH]; [reflexivity |].
  destruct Hl as [| y l -> Hl]; [reflexivity |].
  change (Nat.leb k k && nondecreasing (k :: l) = true).
  rewrite Nat.leb_refl. exact IH.
Qed.

Lemma from_stage_nil k : @from_stage num k [].
Proof. split; [reflexivity | constructor]. Qed.

Lemma rank_known (e : event num) : 1 <= code_rank (stage_of e) -> is_Some (stage_of e).
Proof. destruct (stage_of e); cbn; [eauto | lia]. Qed.

Lemma of_stage_from_stage k (evs : list (event num)) k' :
  1 <= k -> k <= k' -> of_stage k evs = true ->
  forall evs', from_stage k' evs' -> from_stage k (evs ++ evs').
Proof.
  intros Hk Hkk' Hevs evs' [Hord Hge].
  unfold of_stage in Hevs. rewrite forallb_forall in Hevs.
  unfold in_order in Hord. apply andb_prop in Hord as [Hs Hnd].
  split.
  - unfold in_order. rewrite forallb_app, map_app, Hs, andb_true_r.
    apply andb_true_intro; split.
    + apply forallb_forall. intros e He. apply bool_decide_eq_true_2, rank_known.
      specialize (Hevs e He). apply Nat.eqb_eq in Hevs. lia.
    + apply (nondecreasing_app k); [| exact Hnd | |].
      * apply nondecreasing_const with (k := k).
        apply List.Forall_forall. intros x Hx. apply in_map_iff in Hx as (e & <- & He).
        apply Nat.eqb_eq, Hevs, He.
      * apply List.Forall_forall. intros x Hx. apply in_map_iff in Hx as (e & <- & He).
        specialize (Hevs e He). apply Nat.eqb_eq in Hevs. lia.
      * apply List.Forall_forall. intros x Hx. apply in_map_iff in Hx as (e & <- & He).
        rewrite List.Forall_forall in Hge. specialize (Hge e He). lia.
  - apply Forall_app; split.
    + apply List.Forall_forall. intros e He. specialize (Hevs e He).
      apply Nat.eqb_eq in Hevs. lia.
    + eapply Forall_impl; [exact Hge |]. cbn. intros e He. lia.
Qed.

Lemma ordered_ret {A : Type} k (x : A) : ordered_from k (ret x : M num A).
Proof. intros st. exists []. cbn. rewrite app_nil_r. split; [reflexivity | apply from_stage_nil]. Qed.

Lemma steps_of_stage {A : Type} (m : M num A) Ws Ls k :
  steps m Ws Ls ->
  forallb (fun l => Nat.eqb (code_rank (stage_of_label l)) k) Ls = true ->
  forall st, exists evs, out (m st).2 = out st ++ evs /\ of_stage k evs = true.
Proof.
  intros Hm HLs st. destruct (Hm st) as (evs & Ho & Hl & _).
  exists evs. split; [exact Ho |].
  unfold of_stage. rewrite forallb_forall in *. intros e He.
  specialize (Hl e He). unfold mem in Hl. apply existsb_exists in Hl as (l & Hin & Heq).
  apply String.eqb_eq in Heq. unfold stage_of. rewrite Heq. apply HLs, Hin.
Qed.

Lemma ordered_seq {A B : Type} (m1 : M num A) (m2 : M num B) Ws Ls k k' :
  steps m1 Ws Ls ->
  forallb (fun l => Nat.eqb (code_rank (stage_of_label l)) k) Ls = true ->
  1 <= k -> k <= k' ->
  ordered_from k' m2 ->
  ordered_from k (bind m1 (fun _ => m2)).
Proof.
  intros H1 HLs Hk Hkk' H2 st.
  destruct (steps_of_stage m1 Ws Ls k H1 HLs st) as (evs1 & Ho1 & Hs1).
  unfold bind. destruct (m1 st) as [[e | x] st1]; cbn in *.
  - exists evs1. split; [exact Ho1 |].
    rewrite <- (app_nil_r evs1).
    apply (of_stage_from_stage k evs1 k'); auto using from_stage_nil.
  - destruct (H2 st1) as (evs2 & Ho2 & Hf2).
    exists (evs1 ++ evs2). split.
    + rewrite Ho2, Ho1, app_assoc. reflexivity.
    + apply (of_stage_from_stage k evs1 k'); auto.
Qed.

Lemma ordered_last {A : Type} (m : M num A) Ws Ls k :
  steps m Ws Ls ->
  forallb (fun l => Nat.eqb (code_rank (stage_of_label l)) k) Ls = true ->
  1 <= k ->
  ordered_from k m.
Proof.
  intros H1 HLs Hk st.
  destruct (steps_of_stage m Ws Ls k H1 HLs st) as (evs1 & Ho1 & Hs1).
  exists evs1. split; [exact Ho1 |].
  rewrite <- (app_nil_r evs1).
  apply (of_stage_from_stage k evs1 k); auto using from_stage_nil.
Qed.

End Order.

Section RunOrder.

Context {num : Type} `{Arith num}.
Variable W : World num.
Variable a : args.t num.

Lemma metrics_steps :
  steps (metrics W a)
    (["ate_horn_error"; "ate_se3_error"; "ddt"] ++ rpe_names)
    (ate_horn_labels ++ ate_se3_labels ++ rpe_labels ++ ddt_labels).
Proof.
  unfold metrics.
  apply steps_bind; [| intros _].
  { eapply steps_weaken; [apply ate_horn_all_steps | reflexivity | reflexivity]. }
  apply steps_bind; [| intros _].
  { destruct (args.ate_manifold a); [| apply steps_ret].
    eapply steps_weaken; [apply ate_se3_steps | reflexivity | reflexivity]. }
  apply steps_bind; [| intros _].
  { destruct (args.rpe a); [| apply steps_ret].
    eapply steps_weaken; [apply rpe_steps | reflexivity | reflexivity]. }
  destruct (args.ddt a); [| apply steps_ret].
  eapply steps_weaken; [apply ddt_steps | reflexivity | reflexivity].
Qed.

Lemma main_ordered : ordered_from 1 (main W a).
Proof.
  unfold main.
  apply (ordered_seq _ _ _ _ 1 2 (configure_steps W a)); [reflexivity | lia | lia |].
  apply (ordered_seq _ _ _ _ 2 3 (load_steps W a)); [reflexivity | lia | lia |].
  apply (ordered_seq _ _ _ _ 3 4 (apply_scale_steps W a)); [reflexivity | lia | lia |].
  apply (ordered_seq _ _ _ _ 4 5 (associate_steps W a)); [reflexivity | lia | lia |].
  apply (ordered_seq _ _ _ _ 5 6 (align_steps W a)); [reflexivity | lia | lia |].
  apply (ordered_seq _ _
           (["ate_horn_error"; "ate_se3_error"; "ddt"] ++ rpe_names)
           (ate_horn_labels ++ ate_se3_labels ++ rpe_labels ++ ddt_labels) 6 7);
    [| reflexivity | lia | lia |].
  - destruct (negb (args.no_metrics a)); [apply metrics_steps | apply steps_ret].
  - destruct (args.show_plots a); [| apply ordered_ret].
    apply (ordered_last _ _ _ 7 (plot_steps W)); [reflexivity | lia].
Qed.

(** C3 (as amended): in every run the events come stage by stage in the
    order configuration, load, scaling, association, alignment, metrics,
    plot; every event belongs to one of these stages. *)
Theorem run_stages_in_code_order : in_order code_rank (out (run W a).2) = true.
Proof.
  destruct (main_ordered initial) as (evs & Ho & Hord & _).
  unfold run. rewrite Ho. exact Hord.
Qed.

End RunOrder.

(** ** Runs split at the alignment *)

Section Split.

Context {num : Type} `{Arith num}.
Variable W : World num.
Variable a : args.t num.

Lemma main_split st : main W a st = bind (prepare W a) (fun _ => (finish W a)) st.
Proof.
  unfold main, prepare, bind.
  destruct (configure W a st) as [[e | []] s1]; [reflexivity |].
  destruct (load W a s1) as [[e | []] s2]; [reflexivity |].
  destruct (apply_scale W a s2) as [[e | []] s3]; [reflexivity |].
  destruct (associate W a s3) as [[e | []] s4]; [reflexivity |].
  destruct (align W a s4) as [[e | []] s5]; reflexivity.
Qed.

Lemma prepare_steps : steps (prepare W a) prepare_names prepare_labels.
Proof.
  unfold prepare.
  apply steps_bind; [| intros _].
  { eapply steps_weaken; [apply configure_steps | reflexivity | reflexivity]. }
  apply steps_bind; [| intros _].
  { eapply steps_weaken; [apply load_steps | reflexivity | reflexivity]. }
  apply steps_bind; [| intros _].
  { eapply steps_weaken; [apply apply_scale_steps | reflexivity | reflexivity]. }
  apply steps_bind; [| intros _].
  { eapply steps_weaken; [apply associate_steps | reflexivity | reflexivity]. }
  eapply steps_weaken; [apply align_steps | reflexivity | reflexivity].
Qed.

(** *** An alignment mode that is none of the three *)

Lemma align_unknown st : (unknown_alignment a) -> align W a st = (inr tt, st).
Proof.
  intros (Hm & Hh & Hf). unfold align.
  rewrite !bool_decide_eq_false_2 by assumption. reflexivity.
Qed.

Lemma prepare_unknown_steps :
  (unknown_alignment a) -> steps (prepare W a) before_align_names before_align_labels.
Proof.
  intros Hu. unfold prepare.
  apply steps_bind; [| intros _].
  { eapply steps_weaken; [apply configure_steps | reflexivity | reflexivity]. }
  apply steps_bind; [| intros _].
  { eapply steps_weaken; [apply load_steps | reflexivity | reflexivity]. }
  apply steps_bind; [| intros _].
  { eapply steps_weaken; [apply apply_scale_steps | reflexivity | reflexivity]. }
  apply steps_bind; [| intros _].
  { eapply steps_weaken; [apply associate_steps | reflexivity | reflexivity]. }
  intros st. rewrite align_unknown by exact Hu.
  exists []. cbn. rewrite app_nil_r. auto.
Qed.

(** The metrics start by reading [gt_poses_align]: with the name unbound
    they stop there, after the first title. *)
Lemma metrics_unbound st :
  ns st !! "gt_poses_align" = None ->
  metrics W a st
  = (inl (NameError "gt_poses_align"),
     State (ns st) (out st ++ [EPrint "\nATE - Horn" []])).
Proof.
  intros Hns. unfold metrics, ate_horn_all, ate_horn, print, emit, assign, call, bind.
  cbn. unfold get, bind. cbn. rewrite Hns. reflexivity.
Qed.

Lemma plot_unbound st :
  ns st !! "gt_poses_align" = None ->
  plot W st = (inl (NameError "gt_poses_align"), st).
Proof.
  intros Hns. unfold plot, assign, bind, get. rewrite Hns. reflexivity.
Qed.

Lemma finish_unbound st :
  ns st !! "gt_poses_align" = None ->
  (finish W a) st =
    if negb (args.no_metrics a)
    then (inl (NameError "gt_poses_align"),
          State (ns st) (out st ++ [EPrint "\nATE - Horn" []]))
    else if args.show_plots a then (inl (NameError "gt_poses_align"), st)
    else (inr tt, st).
Proof.
  intros Hns. unfold finish, bind.
  destruct (negb (args.no_metrics a)).
  - rewrite metrics_unbound by exact Hns. reflexivity.
  - cbn. destruct (args.show_plots a); [apply plot_unbound, Hns | reflexivity].
Qed.

End Split.

(** ** The footprint of a whole run, by the options given *)

Section RunFootprint.

Context {num : Type} `{Arith num}.
Variable W : World num.
Variable a : args.t num.

Lemma metrics_steps_by_flags : steps (metrics W a) (metrics_names a) (metrics_labels a).
Proof.
  unfold metrics, metrics_names, metrics_labels.
  apply steps_bind; [| intros _].
  { eapply steps_weaken; [apply ate_horn_all_steps | |];
      destruct (args.ate_manifold a), (args.rpe a), (args.ddt a); reflexivity. }
  apply steps_bind; [| intros _].
  { destruct (args.ate_manifold a); [| apply steps_ret].
    eapply steps_weaken; [apply ate_se3_steps | |];
      destruct (args.rpe a), (args.ddt a); reflexivity. }
  apply steps_bind; [| intros _].
  { destruct (args.rpe a); [| apply steps_ret].
    eapply steps_weaken; [apply rpe_steps | |];
      destruct (args.ate_manifold a), (args.ddt a); reflexivity. }
  destruct (args.ddt a); [| apply steps_ret].
  eapply steps_weaken; [apply ddt_steps | |];
    destruct (args.ate_manifold a), (args.rpe a); reflexivity.
Qed.

Lemma finish_steps : steps (finish W a) (finish_names a) (finish_labels a).
Proof.
  unfold finish, finish_names, finish_labels.
  apply steps_bind; [| intros _].
  - destruct (args.no_metrics a); cbn [negb]; [apply steps_ret |].
    eapply steps_weaken; [apply metrics_steps_by_flags | |];
      unfold metrics_names, metrics_labels;
      destruct (args.ate_manifold a), (args.rpe a), (args.ddt a), (args.show_plots a);
      reflexivity.
  - destruct (args.show_plots a); [| apply steps_ret].
    eapply steps_weaken; [apply plot_steps | |];
      unfold metrics_names, metrics_labels;
      destruct (args.no_metrics a), (args.ate_manifold a), (args.rpe a), (args.ddt a);
      reflexivity.
Qed.

(** A run from the empty namespace: its events and the names it binds. *)
Lemma run_footprint {A : Type} (m : M num A) Ws Ls :
  steps m Ws Ls ->
  forallb (fun e => mem (label e) Ls) (out (m initial).2) = true
  /\ forall n, mem n Ws = false -> ns (m initial).2 !! n = None.
Proof.
  intros Hm. destruct (Hm initial) as (evs & Ho & Hl & Hn).
  split.
  - rewrite Ho. exact Hl.
  - intros n Hn'. rewrite Hn by exact Hn'. apply lookup_empty.
Qed.

Lemma not_called (f : string) (st : state num) Ls :
  forallb (fun e => mem (label e) Ls) (out st) = true ->
  mem f Ls = false -> called f st = false.
Proof.
  intros Hl Hf. unfold called, labels.
  destruct (mem f (map label (out st))) eqn:E; [| reflexivity].
  unfold mem in E. apply existsb_exists in E as (l & Hin & Heq).
  apply String.eqb_eq in Heq. subst l.
  apply in_map_iff in Hin as (e & He & Hin).
  rewrite forallb_forall in Hl. specialize (Hl e Hin). congruence.
Qed.

Lemma not_bound (n : string) (st : state num) :
  ns st !! n = None -> bound n st = false.
Proof.
  intros Hn. unfold bound. apply bool_decide_eq_false_2.
  rewrite Hn. intros [v Hv]. discriminate.
Qed.

Lemma is_bound (n : string) (st : state num) v :
  ns st !! n = Some v -> bound n st = true.
Proof. intros Hn. unfold bound. apply bool_decide_eq_true_2. eauto. Qed.

Lemma called_app (f : string) (ns1 : gmap string (value num)) evs evs' :
  called f (State ns1 (evs ++ evs')) = called f (State ns1 evs) || mem f (map label evs').
Proof. unfold called, labels, mem. cbn. rewrite map_app, existsb_app. reflexivity. Qed.

(** Later statements only add events. *)
Lemma called_later {A : Type} (m : M num A) Ws Ls f st :
  steps m Ws Ls -> called f st = true -> called f (m st).2 = true.
Proof.
  intros Hm Hc. destruct (Hm st) as (evs & Ho & _).
  unfold called, labels in *. rewrite Ho, map_app. unfold mem in *.
  rewrite existsb_app, Hc. reflexivity.
Qed.

End RunFootprint.

(** ** C10: an alignment mode outside the three *)

Section UnknownAlignment.

Context {num : Type} `{Arith num}.
Variable W : World num.
Variable a : args.t num.

(** With an unknown mode a run is the run of the first stages, followed at
    most by the first title of the metrics. *)
Lemma run_unknown_alignment :
  unknown_alignment a ->
  exists r1 st1,
    prepare W a initial = (r1, st1)
    /\ forallb (fun e => mem (label e) before_align_labels) (out st1) = true
    /\ (forall n, mem n before_align_names = false -> ns st1 !! n = None)
    /\ run W a =
         match r1 with
         | inl e => (inl e, st1)
         | inr _ =>
             if negb (args.no_metrics a)
             then (inl (NameError "gt_poses_align"),
                   State (ns st1) (out st1 ++ [EPrint "\nATE - Horn" []]))
             else if args.show_plots a then (inl (NameError "gt_poses_align"), st1)
             else (inr tt, st1)
         end.
Proof.
  intros Hu.
  destruct (run_footprint _ _ _ (prepare_unknown_steps W a Hu)) as [Hl Hn].
  destruct (prepare W a initial) as [r1 st1] eqn:Hp. cbn in Hl, Hn.
  exists r1, st1. repeat split; [exact Hl | exact Hn |].
  unfold run. rewrite main_split. unfold bind. rewrite Hp.
  destruct r1 as [e | []]; [reflexivity |].
  apply finish_unbound, Hn. reflexivity.
Qed.

(** C10: when [--alignment] is none of 'first', 'manifold' and 'horn', no
    alignment function is called and the two aligned trajectories are never
    bound; the metrics and the plot, from any state in which they are
    unbound, stop with [NameError] at their first statement that reads
    them; so a run that gets through the first stages and asks for metrics
    or plots ends in that error, and no run computes a statistic or plots
    anything (the metrics print their first title before they stop). *)
Theorem unknown_alignment_never_binds :
  unknown_alignment a ->
  let r := run W a in
  (ns r.2 !! "gt_poses_align" = None /\ ns r.2 !! "est_poses_align" = None)
  /\ (called "utils.align_trajectories_manifold" r.2 = false
      /\ called "utils.align_trajectories_horn" r.2 = false
      /\ called "utils.align_trajectories_to_first" r.2 = false)
  /\ (forall st, ns st !! "gt_poses_align" = None ->
        (metrics W a st).1 = inl (NameError "gt_poses_align")
        /\ (plot W st).1 = inl (NameError "gt_poses_align"))
  /\ (forall st1, prepare W a initial = (inr tt, st1) ->
        r.1 = if negb (args.no_metrics a) || args.show_plots a
              then inl (NameError "gt_poses_align") else inr tt)
  /\ (called "slam_metrics.ATE_Horn" r.2 = false
      /\ called "slam_metrics.compute_statistics" r.2 = false
      /\ called "plot_utils.plot_2d_traj_xyz" r.2 = false).
Proof.
  intros Hu r.
  destruct (run_unknown_alignment Hu) as (r1 & st1 & Hp & Hl & Hn & Hrun).
  assert (Hshape :
    ns r.2 = ns st1
    /\ (out r.2 = out st1 \/ out r.2 = out st1 ++ [EPrint "\nATE - Horn" []])).
  { subst r. rewrite Hrun. destruct r1 as [e | []]; [auto |].
    destruct (negb (args.no_metrics a)); [auto |].
    destruct (args.show_plots a); auto. }
  destruct Hshape as [Hns Hout].
  assert (Hcalled : forall f,
    mem f before_align_labels = false -> mem f ["\nATE - Horn"] = false ->
    called f r.2 = false).
  { intros f Hf Hf'. destruct r.2 as [ns2 out2]. cbn in Hns, Hout.
    destruct Hout as [-> | ->].
    - apply (not_called f st1 before_align_labels Hl) in Hf.
      unfold called, labels in *. exact Hf.
    - rewrite called_app. cbn [map label].
      apply (not_called f st1 before_align_labels Hl) in Hf.
      unfold called, labels in *. cbn [out] in *. rewrite Hf, Hf'. reflexivity. }
  repeat split.
  - rewrite Hns. apply Hn. reflexivity.
  - rewrite Hns. apply Hn. reflexivity.
  - apply Hcalled; reflexivity.
  - apply Hcalled; reflexivity.
  - apply Hcalled; reflexivity.
  - rewrite metrics_unbound by assumption. reflexivity.
  - rewrite plot_unbound by assumption. reflexivity.
  - intros st1' Hp'. rewrite Hp in Hp'. injection Hp' as -> ->.
    subst r. rewrite Hrun.
    destruct (negb (args.no_metrics a)); [reflexivity |].
    destruct (args.show_plots a); reflexivity.
  - apply Hcalled; reflexivity.
  - apply Hcalled; reflexivity.
  - apply Hcalled; reflexivity.
Qed.

End UnknownAlignment.

(** ** What a block has done once it returns *)

Section OnSuccess.

Context {num : Type} `{Arith num}.
Variable W : World num.

Lemma post_bind_r {A B : Type} (m : M num A) (k : A -> M num B) Q :
  (forall x, post (k x) Q) -> post (bind m k) Q.
Proof.
  intros Hk st y st' Hb. apply bind_inr in Hb as (x & st1 & _ & Hk').
  eapply Hk, Hk'.
Qed.

Lemma post_bind_l {A B : Type} (m : M num A) (k : A -> M num B) Q :
  post m Q -> (forall x st, Q st -> Q (k x st).2) -> post (bind m k) Q.
Proof.
  intros Hm Hk st y st' Hb. apply bind_inr in Hb as (x & st1 & Hm' & Hk').
  specialize (Hk x st1 (Hm _ _ _ Hm')). rewrite Hk' in Hk. exact Hk.
Qed.

Lemma post_call f es kws : post (call W f es kws) (fun st => called f st = true).
Proof.
  unfold call. apply post_bind_r; intros vs. apply post_bind_r; intros kvs.
  intros st x st' Hb. unfold bind, emit in Hb. cbn in Hb.
  destruct (callee W f vs kvs); cbn in Hb; [| discriminate].
  injection Hb as _ <-. rewrite called_app. cbn. rewrite String.eqb_refl.
  apply orb_true_r.
Qed.

Lemma called_kept {A : Type} (m : M num A) Ws Ls f :
  steps m Ws Ls -> forall st, called f st = true -> called f (m st).2 = true.
Proof. intros Hm st. eapply called_later, Hm. Qed.

Lemma bound_kept {A : Type} (m : M num A) Ws Ls n :
  steps m Ws Ls -> mem n Ws = false ->
  forall st, bound n st = true -> bound n (m st).2 = true.
Proof.
  intros Hm Hn st Hb. destruct (Hm st) as (_ & _ & _ & Hns).
  unfold bound in *. rewrite Hns by exact Hn. exact Hb.
Qed.

Lemma post_assign_called n (e : M num (value num)) f :
  post e (fun st => called f st = true) ->
  post (assign n e) (fun st => called f st = true).
Proof.
  intros He. unfold assign. apply post_bind_l; [exact He |].
  intros v st Hc. exact Hc.
Qed.

Lemma post_assign_tuple_called names (e : M num (value num)) f :
  post e (fun st => called f st = true) ->
  post (assign_tuple names e) (fun st => called f st = true).
Proof.
  intros He. unfold assign_tuple. apply post_bind_l; [exact He |].
  intros v st Hc.
  assert (Hs : steps (match py_iter v with
                      | Some items =>
                          if Nat.eqb (length items) (length names)
                          then set_all (zip names items)
                          else raise (ValueError "wrong number of values to unpack")
                      | None => raise (TypeError "cannot unpack non-iterable object")
                      end : M num unit) names []).
  { destruct (py_iter v) as [items |]; [| apply steps_raise].
    destruct (Nat.eqb _ _); [| apply steps_raise].
    apply steps_set_all, forallb_zip_names.
    apply forallb_forall. intros n Hn. unfold mem. apply existsb_exists.
    exists n. split; [exact Hn | apply String.eqb_refl]. }
  eapply called_kept; eassumption.
Qed.

Lemma post_assign_bound n (e : M num (value num)) :
  post (assign n e) (fun st => bound n st = true).
Proof.
  unfold assign. apply post_bind_r. intros v st x st' Hs.
  unfold set in Hs. injection Hs as _ <-.
  eapply is_bound. cbn. apply lookup_insert_eq.
Qed.

Variable a : args.t num.

Lemma statistics_split_steps name :
  steps (statistics_split W a name) [] ["slam_metrics.compute_statistics"].
Proof. footprint. Qed.

Lemma ate_horn_post title kws :
  Forall (fun ke : string * M num (value num) => steps ke.2 [] []) kws ->
  post (ate_horn W a title kws) (fun st => called "slam_metrics.ATE_Horn" st = true).
Proof.
  intros Hk. unfold ate_horn. apply post_bind_r; intros _.
  apply post_bind_l; [apply post_assign_called, post_call |].
  intros _. apply (called_kept _ [] ["slam_metrics.compute_statistics"]).
  footprint.
Qed.

Lemma ate_horn_all_post :
  post (ate_horn_all W a) (fun st => called "slam_metrics.ATE_Horn" st = true).
Proof.
  unfold ate_horn_all. apply post_bind_l; [apply ate_horn_post; constructor |].
  intros _. apply (called_kept _ ["ate_horn_error"] ate_horn_labels).
  footprint.
Qed.

Lemma ate_se3_post :
  post (ate_se3 W a) (fun st => called "slam_metrics.ATE_SE3" st = true).
Proof.
  unfold ate_se3. apply post_bind_r; intros _.
  apply post_bind_l; [apply post_assign_called, post_call |].
  intros _. eapply called_kept, statistics_split_steps.
Qed.

Lemma rpe_post : post (rpe W a) (fun st => called "slam_metrics.RPE" st = true).
Proof.
  unfold rpe. apply post_bind_r; intros _.
  apply post_bind_l; [apply post_assign_tuple_called, post_call |].
  intros _. eapply called_kept, statistics_split_steps.
Qed.

Lemma ddt_post : post (ddt W a) (fun st => bound "ddt" st = true).
Proof.
  unfold ddt. apply post_bind_r; intros _.
  apply post_bind_l; [apply post_assign_bound |].
  intros _. eapply bound_kept; [apply statistics_split_steps | reflexivity].
Qed.

End OnSuccess.

(** ** DDT without RPE *)

Section DdtNeedsRpe.

Context {num : Type} `{Arith num}.
Variable W : World num.
Variable a : args.t num.

(** A block with no footprint leaves the state as it is. *)
Lemma steps_pure {A : Type} (m : M num A) : steps m [] [] -> forall st, (m st).2 = st.
Proof.
  intros Hm st. destruct (Hm st) as (evs & Ho & Hl & Hn).
  destruct evs as [| e evs]; [| discriminate].
  rewrite app_nil_r in Ho.
  destruct (m st).2 as [ns2 out2], st as [ns1 out1]. cbn in *. subst out2.
  f_equal. apply map_eq. intros n. apply Hn. reflexivity.
Qed.

Lemma eval_args_pure (es : list (M num (value num))) st :
  Forall (fun e => steps e [] []) es -> (eval_args es st).2 = st.
Proof. intros He. apply steps_pure, steps_eval_args, He. Qed.

Lemma eval_kwargs_pure (kws : list (string * M num (value num))) st :
  Forall (fun ke => steps ke.2 [] []) kws -> (eval_kwargs kws st).2 = st.
Proof. intros He. apply steps_pure, steps_eval_kwargs, He. Qed.

Lemma metrics_split st :
  metrics W a st
  = bind (before_rpe W a)
      (fun _ => (if args.rpe a then rpe W a else ret tt) ;~
                (if args.ddt a then ddt W a else ret tt)) st.
Proof.
  unfold metrics, before_rpe, bind.
  destruct (ate_horn_all W a st) as [[e | []] s1]; [reflexivity |].
  destruct ((if args.ate_manifold a then ate_se3 W a else ret tt) s1) as [[e | []] s2];
    reflexivity.
Qed.

Lemma before_rpe_steps :
  steps (before_rpe W a) ["ate_horn_error"; "ate_se3_error"] (ate_horn_labels ++ ate_se3_labels).
Proof.
  unfold before_rpe. apply steps_bind; [| intros _].
  - eapply steps_weaken; [apply ate_horn_all_steps | reflexivity | reflexivity].
  - destruct (args.ate_manifold a); [| apply steps_ret].
    eapply steps_weaken; [apply ate_se3_steps | reflexivity | reflexivity].
Qed.

(** With [rpe_error] unbound the DDT block stops after its title. *)
Lemma ddt_unbound st :
  ns st !! "rpe_error" = None ->
  ddt W a st
  = (inl (NameError "rpe_error"), State (ns st) (out st ++ [EPrint "\nDDT" []])).
Proof.
  intros Hns. unfold ddt, print, emit, assign, divide, bind, get. cbn.
  rewrite Hns. reflexivity.
Qed.

Lemma set_all_ns (nvs : list (string * value num)) st :
  set_all nvs st
  = (inr tt, State (foldl (fun m nv => <[nv.1 := nv.2]> m) (ns st) nvs) (out st)).
Proof.
  revert st. induction nvs as [| [n v] nvs IH]; intros [ns1 out1]; [reflexivity |].
  cbn. unfold bind, set. cbn. rewrite IH. reflexivity.
Qed.

End DdtNeedsRpe.

Section DdtNeedsRpeRun.

Context {num : Type} `{Arith num}.
Variable W : World num.
Variable a : args.t num.

Lemma main_split_ddt st :
  args.no_metrics a = false ->
  main W a st = bind (before_ddt W a) (fun _ => (from_ddt W a)) st.
Proof.
  intros Hm. rewrite main_split. unfold finish, before_ddt, from_ddt.
  rewrite Hm. cbn [negb]. unfold bind.
  destruct (prepare W a st) as [[e | []] s1]; [reflexivity |].
  rewrite metrics_split. unfold bind.
  destruct (before_rpe W a s1) as [[e | []] s2]; [reflexivity |].
  destruct ((if args.rpe a then rpe W a else ret tt) s2) as [[e | []] s3]; [reflexivity |].
  destruct ((if args.ddt a then ddt W a else ret tt) s3) as [[e | []] s4]; reflexivity.
Qed.

Lemma steps_ext {A : Type} (m m' : M num A) Ws Ls :
  (forall st, m st = m' st) -> steps m' Ws Ls -> steps m Ws Ls.
Proof. intros Heq Hm st. rewrite Heq. apply Hm. Qed.

Lemma main_steps :
  steps (main W a) (prepare_names ++ finish_names a) (prepare_labels ++ finish_labels a).
Proof.
  eapply steps_ext; [apply main_split |].
  apply steps_bind; [| intros _].
  - eapply steps_weaken; [apply prepare_steps | |].
    + apply forallb_forall. intros n Hn. unfold mem. apply existsb_exists.
      exists n. split; [apply in_or_app; left; exact Hn | apply String.eqb_refl].
    + apply forallb_forall. intros n Hn. unfold mem. apply existsb_exists.
      exists n. split; [apply in_or_app; left; exact Hn | apply String.eqb_refl].
  - eapply steps_weaken; [apply finish_steps | |].
    + apply forallb_forall. intros n Hn. unfold mem. apply existsb_exists.
      exists n. split; [apply in_or_app; right; exact Hn | apply String.eqb_refl].
    + apply forallb_forall. intros n Hn. unfold mem. apply existsb_exists.
      exists n. split; [apply in_or_app; right; exact Hn | apply String.eqb_refl].
Qed.

Lemma event_kept {A : Type} (m : M num A) Ws Ls (e : event num) st :
  steps m Ws Ls -> In e (out st) -> In e (out (m st).2).
Proof.
  intros Hm He. destruct (Hm st) as (evs & Ho & _). rewrite Ho.
  apply in_or_app. left. exact He.
Qed.

Lemma before_ddt_steps_no_rpe :
  args.rpe a = false ->
  steps (before_ddt W a) (prepare_names ++ ["ate_horn_error"; "ate_se3_error"])
    (prepare_labels ++ ate_horn_labels ++ ate_se3_labels).
Proof.
  intros Hr. unfold before_ddt. rewrite Hr.
  apply steps_bind; [| intros _].
  { eapply steps_weaken; [apply prepare_steps | reflexivity | reflexivity]. }
  apply steps_bind; [| intros _; apply steps_ret].
  eapply steps_weaken; [apply before_rpe_steps | reflexivity | reflexivity].
Qed.

(** Without [--rpe] the name [rpe_error] is unbound when the DDT block is
    reached, and [ddt] is never bound. *)
Lemma run_ddt_without_rpe :
  args.ddt a = true -> args.rpe a = false -> args.no_metrics a = false ->
  exists r1 st1,
    (before_ddt W a) initial = (r1, st1)
    /\ ns st1 !! "ddt" = None
    /\ run W a =
         match r1 with
         | inl e => (inl e, st1)
         | inr _ => (inl (NameError "rpe_error"),
                     State (ns st1) (out st1 ++ [EPrint "\nDDT" []]))
         end.
Proof.
  intros Hd Hr Hm.
  destruct (run_footprint _ _ _ (before_ddt_steps_no_rpe Hr)) as [_ Hn].
  destruct ((before_ddt W a) initial) as [r1 st1] eqn:Hb. cbn in Hn.
  exists r1, st1. repeat split; [apply Hn; reflexivity |].
  unfold run. rewrite main_split_ddt by exact Hm. unfold bind at 1. rewrite Hb.
  destruct r1 as [e | []]; [reflexivity |].
  unfold from_ddt. rewrite Hd. unfold bind.
  rewrite ddt_unbound by (apply Hn; reflexivity). reflexivity.
Qed.

(** Without [--rpe] no run binds [ddt]. *)
Lemma run_never_binds_ddt_without_rpe :
  args.rpe a = false -> ns (run W a).2 !! "ddt" = None.
Proof.
  intros Hr.
  destruct (args.no_metrics a) eqn:Hm; [| destruct (args.ddt a) eqn:Hd].
  - destruct (run_footprint _ _ _ main_steps) as [_ Hn]. apply Hn.
    unfold finish_names. rewrite Hm. destruct (args.show_plots a); reflexivity.
  - destruct (run_ddt_without_rpe Hd Hr Hm) as (r1 & st1 & Hb & Hn & Hrun).
    rewrite Hrun. destruct r1; exact Hn.
  - destruct (run_footprint _ _ _ main_steps) as [_ Hn]. apply Hn.
    unfold finish_names, metrics_names. rewrite Hm, Hr, Hd.
    destruct (args.ate_manifold a), (args.show_plots a); reflexivity.
Qed.

End DdtNeedsRpeRun.

(** ** Which metrics a run computes *)

Section MetricSelection.

Context {num : Type} `{Arith num}.
Variable W : World num.
Variable a : args.t num.

Lemma called_in_footprint f :
  called f (run W a).2 = true -> mem f (prepare_labels ++ finish_labels a) = true.
Proof.
  intros Hc. unfold run in Hc.
  destruct (run_footprint _ _ _ (main_steps W a)) as [Hl _].
  destruct (mem f (prepare_labels ++ finish_labels a)) eqn:E; [reflexivity |].
  rewrite (not_called f _ _ Hl E) in Hc. discriminate.
Qed.

Lemma bound_in_footprint n :
  bound n (run W a).2 = true -> mem n (prepare_names ++ finish_names a) = true.
Proof.
  intros Hb. unfold run in Hb.
  destruct (run_footprint _ _ _ (main_steps W a)) as [_ Hn].
  destruct (mem n (prepare_names ++ finish_names a)) eqn:E; [reflexivity |].
  rewrite (not_bound n _ (Hn n E)) in Hb. discriminate.
Qed.

Lemma rest_after_ate_steps :
  steps ((if args.ate_manifold a then ate_se3 W a else ret tt) ;~
         (if args.rpe a then rpe W a else ret tt) ;~
         (if args.ddt a then ddt W a else ret tt))
    (["ate_se3_error"; "ddt"] ++ rpe_names) (ate_se3_labels ++ rpe_labels ++ ddt_labels).
Proof.
  apply steps_bind; [| intros _].
  { destruct (args.ate_manifold a); [| apply steps_ret].
    eapply steps_weaken; [apply ate_se3_steps | reflexivity | reflexivity]. }
  apply steps_bind; [| intros _].
  { destruct (args.rpe a); [| apply steps_ret].
    eapply steps_weaken; [apply rpe_steps | reflexivity | reflexivity]. }
  destruct (args.ddt a); [| apply steps_ret].
  eapply steps_weaken; [apply ddt_steps | reflexivity | reflexivity].
Qed.

Lemma rest_after_se3_steps :
  steps ((if args.rpe a then rpe W a else ret tt) ;~
         (if args.ddt a then ddt W a else ret tt))
    ("ddt" :: rpe_names) (rpe_labels ++ ddt_labels).
Proof.
  apply steps_bind; [| intros _].
  { destruct (args.rpe a); [| apply steps_ret].
    eapply steps_weaken; [apply rpe_steps | reflexivity | reflexivity]. }
  destruct (args.ddt a); [| apply steps_ret].
  eapply steps_weaken; [apply ddt_steps | reflexivity | reflexivity].
Qed.

Lemma metrics_post_ate :
  post (metrics W a) (fun st => called "slam_metrics.ATE_Horn" st = true).
Proof.
  unfold metrics. apply post_bind_l; [apply ate_horn_all_post |].
  intros _. eapply called_kept, rest_after_ate_steps.
Qed.

Lemma metrics_post_se3 :
  args.ate_manifold a = true ->
  post (metrics W a) (fun st => called "slam_metrics.ATE_SE3" st = true).
Proof.
  intros Hf. unfold metrics. rewrite Hf. apply post_bind_r; intros _.
  apply post_bind_l; [apply ate_se3_post |].
  intros _. eapply called_kept, rest_after_se3_steps.
Qed.

Lemma metrics_post_rpe :
  args.rpe a = true ->
  post (metrics W a) (fun st => called "slam_metrics.RPE" st = true).
Proof.
  intros Hf. unfold metrics. rewrite Hf. apply post_bind_r; intros _.
  apply post_bind_r; intros _.
  apply post_bind_l; [apply rpe_post |].
  intros _. destruct (args.ddt a).
  - eapply called_kept, ddt_steps.
  - intros st Hc. exact Hc.
Qed.

Lemma metrics_post_ddt :
  args.ddt a = true ->
  post (metrics W a) (fun st => bound "ddt" st = true).
Proof.
  intros Hf. unfold metrics. rewrite Hf. apply post_bind_r; intros _.
  apply post_bind_r; intros _. apply post_bind_r; intros _. apply ddt_post.
Qed.

(** A run that completes has completed its metrics, unless bypassed. *)
Lemma run_completed :
  (run W a).1 = inr tt ->
  args.no_metrics a = false ->
  exists st1 st2,
    metrics W a st1 = (inr tt, st2)
    /\ (run W a).2 = ((if args.show_plots a then plot W else ret tt) st2).2.
Proof.
  intros Hok Hm. unfold run in *. rewrite main_split in *.
  destruct (bind (prepare W a) (fun _ => finish W a) initial) as [r stf] eqn:Hrun.
  cbn in Hok. subst r.
  apply bind_inr in Hrun as ([] & st1 & _ & Hfin).
  unfold finish in Hfin. rewrite Hm in Hfin. cbn [negb] in Hfin.
  apply bind_inr in Hfin as ([] & st2 & Hmet & Hplot).
  exists st1, st2. split; [exact Hmet |]. rewrite Hplot. reflexivity.
Qed.

Lemma plot_if_steps :
  steps (if args.show_plots a then plot W else ret tt) plot_names plot_labels.
Proof. destruct (args.show_plots a); [apply plot_steps | apply steps_ret]. Qed.

End MetricSelection.

(** ** The scale under [--automatic_scale] *)

(** Reading the state built so far: projections and lookups after inserts. *)
Ltac simpl_state :=
  repeat (cbn [ns out fst snd];
          rewrite ?lookup_insert_eq;
          rewrite ?lookup_insert_ne by discriminate).

Section AutomaticScale.

Context {num : Type} `{Arith num}.
Variable W : World num.

Lemma bind_assoc {A B C : Type} (m : M num A) (k : A -> M num B) (k' : B -> M num C) st :
  bind (bind m k) k' st = bind m (fun x => bind (k x) k') st.
Proof. unfold bind. destruct (m st) as [[e | x] st1]; reflexivity. Qed.

Lemma apply_scale_split a st :
  apply_scale W a st = bind (choose_scale W a) (fun _ => scale_both W) st.
Proof. unfold apply_scale, choose_scale, scale_both. rewrite bind_assoc. reflexivity. Qed.

(** With the flag set, the scale is the computed one whatever was given. *)
Lemma choose_scale_automatic a st x :
  args.automatic_scale a = true ->
  py_float (float_of_str W) (args.scale a) = inr x ->
  choose_scale W a st =
    match ns st !! "gt_poses", ns st !! "est_poses" with
    | Some gt, Some est =>
        let evs := out st ++ [ECall "utils.compute_scale_from_trajectories" [gt; est] []] in
        match callee W "utils.compute_scale_from_trajectories" [gt; est] [] with
        | Some v => (inr tt, State (<["scale" := v]> (ns st)) evs)
        | None => (inl (CalleeError "utils.compute_scale_from_trajectories"),
                   State (<["scale" := VFloat x]> (ns st)) evs)
        end
    | Some _, None =>
        (inl (NameError "est_poses"), State (<["scale" := VFloat x]> (ns st)) (out st))
    | None, _ =>
        (inl (NameError "gt_poses"), State (<["scale" := VFloat x]> (ns st)) (out st))
    end.
Proof.
  intros Ha Hx. unfold choose_scale. rewrite Ha.
  unfold assign, float_, lift, call, eval_args, eval_kwargs, get, set, emit, bind, ret, raise.
  rewrite Hx. simpl_state.
  destruct (ns st !! "gt_poses") as [gt |]; [| reflexivity]. simpl_state.
  destruct (ns st !! "est_poses") as [est |]; [| reflexivity]. simpl_state.
  destruct (callee W _ _ _); [| reflexivity]. simpl_state.
  rewrite insert_insert_eq. reflexivity.
Qed.

(** Lines 80-82: the title, then the ground truth scaled by 1 and the
    estimate scaled by whatever [scale] holds. *)
Lemma scale_both_events st v gt est gt' :
  ns st !! "scale" = Some v -> formats_f v = true ->
  ns st !! "gt_poses" = Some gt -> ns st !! "est_poses" = Some est ->
  callee W "utils.scale_dict" [gt] [("scale_factor", VInt 1)] = Some gt' ->
  exists rest,
    out (scale_both W st).2
    = out st ++ [EPrint "Using scale: %f" (operands v);
                 ECall "utils.scale_dict" [gt] [("scale_factor", VInt 1)];
                 ECall "utils.scale_dict" [est] [("scale_factor", v)]] ++ rest.
Proof.
  intros Hs Hv Hgt Hest Hc. unfold scale_both.
  match goal with
  | |- context [bind is_tum_cov ?k] =>
      assert (Htail : steps (bind is_tum_cov k) scale_names scale_labels) by footprint;
      set (tail_ := bind is_tum_cov k) in *
  end.
  unfold print_f, assign, call, eval_args, eval_kwargs, lit, get, set, emit, ret, raise, bind.
  rewrite Hs, Hv. simpl_state. rewrite Hgt. simpl_state. rewrite Hc. simpl_state.
  rewrite Hest. simpl_state. rewrite Hs. simpl_state.
  destruct (callee W "utils.scale_dict" [est] [("scale_factor", v)]) as [est' |].
  2: { exists []. cbn [snd out]. rewrite <- !app_assoc. reflexivity. }
  simpl_state.
  match goal with
  | |- context [tail_ ?st0] => destruct (Htail st0) as (evs & Ho & _)
  end.
  exists evs. rewrite Ho. cbn [out]. rewrite <- !app_assoc. reflexivity.
Qed.

Lemma main_with_scale a s st :
  main W (args.with_scale s a) st
  = bind (configure W a)
      (fun _ => bind (load W a)
         (fun _ => bind (choose_scale W (args.with_scale s a))
            (fun _ => after_scale_choice W a))) st.
Proof.
  unfold main, bind.
  change (configure W (args.with_scale s a)) with (configure W a).
  destruct (configure W a st) as [[e | []] s1]; [reflexivity |].
  change (load W (args.with_scale s a)) with (load W a).
  destruct (load W a s1) as [[e | []] s2]; [reflexivity |].
  rewrite apply_scale_split. unfold bind.
  destruct (choose_scale W (args.with_scale s a) s2) as [[e | []] s3]; reflexivity.
Qed.

End AutomaticScale.

(** ** The bypass of the association *)

Section Bypass.

Context {num : Type} `{Arith num}.
Variable W : World num.
Variable a : args.t num.

Lemma associate_bypassed st :
  args.ignore_timestamp_match a = true -> associate W a st = (inr tt, st).
Proof. intros Hb. unfold associate. rewrite Hb. reflexivity. Qed.

Lemma prepare_bypass_steps :
  args.ignore_timestamp_match a = true ->
  steps (prepare W a) prepare_names bypass_labels.
Proof.
  intros Hb. unfold prepare.
  apply steps_bind; [| intros _].
  { eapply steps_weaken; [apply configure_steps | reflexivity | reflexivity]. }
  apply steps_bind; [| intros _].
  { eapply steps_weaken; [apply load_steps | reflexivity | reflexivity]. }
  apply steps_bind; [| intros _].
  { eapply steps_weaken; [apply apply_scale_steps | reflexivity | reflexivity]. }
  apply steps_bind; [| intros _].
  { intros st. rewrite associate_bypassed by exact Hb.
    exists []. cbn. rewrite app_nil_r. auto. }
  eapply steps_weaken; [apply align_steps | reflexivity | reflexivity].
Qed.

Lemma steps_app_l {A : Type} (m : M num A) Ws Ls Ws' Ls' :
  steps m Ws Ls -> steps m (Ws ++ Ws') (Ls ++ Ls').
Proof.
  intros Hm. eapply steps_weaken; [exact Hm | |].
  all: apply forallb_forall; intros n Hn; unfold mem; apply existsb_exists.
  all: exists n; split; [apply in_or_app; left; exact Hn | apply String.eqb_refl].
Qed.

Lemma steps_app_r {A : Type} (m : M num A) Ws Ls Ws' Ls' :
  steps m Ws Ls -> steps m (Ws' ++ Ws) (Ls' ++ Ls).
Proof.
  intros Hm. eapply steps_weaken; [exact Hm | |].
  all: apply forallb_forall; intros n Hn; unfold mem; apply existsb_exists.
  all: exists n; split; [apply in_or_app; right; exact Hn | apply String.eqb_refl].
Qed.

(** X18: with [--ignore_timestamp_match] the association step of lines
    87-91 does nothing at all: whatever the state it returns at once,
    without an error, an event or a change of binding, and no run calls
    [utils.associate_and_filter].  The script itself pairs nothing and
    compares no lengths in its place. *)
Theorem bypass_skips_association :
  args.ignore_timestamp_match a = true ->
  (forall st, associate W a st = (inr tt, st))
  /\ called "utils.associate_and_filter" (run W a).2 = false.
Proof.
  intros Hb. split; [intros st; apply associate_bypassed, Hb |].
  assert (Hm : steps (main W a) (prepare_names ++ finish_names a)
                 (bypass_labels ++ finish_labels a)).
  { eapply steps_ext; [apply main_split |].
    apply steps_bind; [| intros _].
    - apply steps_app_l, prepare_bypass_steps, Hb.
    - apply steps_app_r, finish_steps. }
  destruct (run_footprint _ _ _ Hm) as [Hl _].
  eapply not_called; [exact Hl |].
  unfold finish_labels, metrics_labels.
  destruct (args.no_metrics a), (args.ate_manifold a), (args.rpe a), (args.ddt a),
    (args.show_plots a); reflexivity.
Qed.

End Bypass.

(** ** C1: the DDT block *)

Section Ddt.

Context {num : Type} `{Arith num}.

Lemma broadcast_same_length {A B C : Type} (f : A -> B -> C) (l1 : list A) (l2 : list B) :
  length l1 = length l2 -> broadcast f l1 l2 = Some (zip_with f l1 l2).
Proof.
  intros Hlen. unfold broadcast.
  destruct l1 as [| a [| a' l1]], l2 as [| b [| b' l2]]; try discriminate Hlen;
    try reflexivity.
  rewrite (proj2 (Nat.eqb_eq _ _) Hlen). reflexivity.
Qed.

Lemma rect_same_length (m : Matrix num) (n : nat) :
  Forall (fun row => length row = n) m -> rect m = true.
Proof.
  intros Hm. unfold rect. apply forallb_forall. intros row Hrow.
  apply Nat.eqb_eq. rewrite List.Forall_forall in Hm. rewrite (Hm row Hrow).
  destruct m as [| r0 m]; [destruct Hrow |]. cbn. symmetry. apply Hm. left. reflexivity.
Qed.

Lemma mapM_Some_map {A B : Type} (f : A -> B) (l : list A) :
  mapM (M := option) (fun r => r) (map (fun x => Some (f x)) l) = Some (map f l).
Proof.
  induction l as [| x l IH]; [reflexivity |].
  cbn. rewrite IH. reflexivity.
Qed.

Lemma broadcast2_rows (e : Matrix num) (d : list num) :
  Forall (fun row => length row = length d) e ->
  broadcast2 div e [d] = Some (divide_rows e d).
Proof.
  intros He. unfold broadcast2.
  assert (Hb : broadcast (broadcast div) e [d]
               = Some (map (fun row => Some (zip_with div row d)) e)).
  { destruct e as [| r [| r' e]].
    - reflexivity.
    - cbn. apply Forall_cons in He as [Hr _].
      rewrite (broadcast_same_length div r d Hr). reflexivity.
    - cbn [broadcast]. f_equal. apply map_ext_in. intros row Hrow.
      apply broadcast_same_length. rewrite List.Forall_forall in He. apply He, Hrow. }
  rewrite Hb. apply mapM_Some_map.
Qed.

Lemma np_divide_rows (e : Matrix num) (d : list num) :
  Forall (fun row => length row = length d) e ->
  np_divide (VArr e) (VVec d) = inr (VArr (divide_rows e d)).
Proof.
  intros He. unfold np_divide, as_array. cbn.
  rewrite (rect_same_length e (length d) He). cbn.
  rewrite (broadcast2_rows e d He). reflexivity.
Qed.

Lemma divide_rows_length (e : Matrix num) (d : list num) :
  Forall (fun row => length row = length d) e ->
  Forall (fun row => length row = length d) (divide_rows e d).
Proof.
  intros He. unfold divide_rows. apply List.Forall_forall. intros row Hrow.
  apply in_map_iff in Hrow as (r & <- & Hr).
  rewrite List.Forall_forall in He. specialize (He r Hr).
  rewrite length_zip_with. lia.
Qed.

Lemma lookup_map {A B : Type} (f : A -> B) (l : list A) (i : nat) :
  map f l !! i = f <$> (l !! i).
Proof. exact (list_lookup_fmap f l i). Qed.

Lemma divide_rows_entry (e : Matrix num) (d : list num) i j row x y :
  e !! i = Some row -> row !! j = Some x -> d !! j = Some y ->
  exists qrow, divide_rows e d !! i = Some qrow /\ qrow !! j = Some (div x y).
Proof.
  intros Hi Hj Hd. exists (zip_with div row d). split.
  - unfold divide_rows. rewrite lookup_map, Hi. reflexivity.
  - rewrite lookup_zip_with, Hj. cbn. rewrite Hd. reflexivity.
Qed.

Lemma norm_of_rows (m : Matrix num) (n : nat) :
  Forall (fun row => length row = n) m ->
  np_linalg_norm_axis0 (VArr m) = inr (VVec (col_norms m)).
Proof.
  intros Hm. unfold np_linalg_norm_axis0, as_array. cbn.
  rewrite (rect_same_length m n Hm). reflexivity.
Qed.

Variable W : World num.
Variable a : args.t num.

Lemma statistics_split_array name st (m : Matrix num) (n : nat) :
  ns st !! name = Some (VArr m) ->
  Forall (fun row => length row = n) m ->
  (forall pos kws, is_Some (callee W "slam_metrics.compute_statistics" pos kws)) ->
  statistics_split W a name st = (inr tt, State (ns st) (out st ++ split_events a m)).
Proof.
  intros Hn Hm Hstat.
  unfold statistics_split, statistics, verbose_kw, norm, slice, call, eval_args,
    eval_kwargs, lit, get, emit, lift, ret, raise, bind.
  rewrite Hn. cbn [rows_slice Nat.sub].
  rewrite (norm_of_rows (take 3 (drop 0 m)) n) by (apply Forall_take, Forall_drop, Hm).
  cbn [ns out]. rewrite drop_0.
  destruct (Hstat [VVec (col_norms (take 3 m))]
              [("variable", VStr "Translational"); ("verbose", VBool (args.verbose a))])
    as [v1 ->].
  cbn [ns out]. rewrite Hn. cbn [rows_slice Nat.sub].
  rewrite (norm_of_rows (take 3 (drop 3 m)) n) by (apply Forall_take, Forall_drop, Hm).
  cbn [ns out].
  destruct (Hstat [VVec (col_norms (take 3 (drop 3 m)))]
              [("variable", VStr "Rotational"); ("verbose", VBool (args.verbose a))])
    as [v2 ->].
  unfold split_events. rewrite <- app_assoc. reflexivity.
Qed.

(** C1 (as amended): when [rpe_error] holds an array of six rows with one
    column per pair and [rpe_distance] one distance per pair, the DDT block
    binds [ddt] to the array of the same shape whose every entry is the
    entry of [rpe_error] divided by the distance of its pair: all pairs are
    kept, whatever their distance, and the division raises no error.  The
    norms of rows 0-2 and of rows 3-5 of that array go to the statistics. *)
Theorem ddt_divides_every_pair st (e : Matrix num) (d : list num) :
  ns st !! "rpe_error" = Some (VArr e) ->
  ns st !! "rpe_distance" = Some (VVec d) ->
  length e = 6 ->
  Forall (fun row => length row = length d) e ->
  (forall pos kws, is_Some (callee W "slam_metrics.compute_statistics" pos kws)) ->
  let q := divide_rows e d in
  ddt W a st
  = (inr tt, State (<["ddt" := VArr q]> (ns st))
               (out st ++ EPrint "\nDDT" [] :: split_events a q))
  /\ length q = 6
  /\ Forall (fun row => length row = length d) q
  /\ (forall i j row x y,
        e !! i = Some row -> row !! j = Some x -> d !! j = Some y ->
        exists qrow, q !! i = Some qrow /\ qrow !! j = Some (div x y)).
Proof.
  intros He Hd Hsix Hlen Hstat q. split; [| split; [| split]].
  2: { subst q. unfold divide_rows. rewrite length_map. exact Hsix. }
  - unfold ddt, print, assign, divide, get, emit, lift, set, bind.
    simpl_state. rewrite He. simpl_state. rewrite Hd.
    rewrite (np_divide_rows e d Hlen). simpl_state.
    rewrite (statistics_split_array "ddt" _ q (length d)).
    + cbn [ns out]. rewrite <- app_assoc. reflexivity.
    + cbn [ns]. apply lookup_insert_eq.
    + apply divide_rows_length, Hlen.
    + exact Hstat.
  - apply divide_rows_length, Hlen.
  - intros i j row x y. apply divide_rows_entry.
Qed.

End Ddt.

(** ** The Horn variant of the ATE *)

Section ColumnNorms.

Context {num : Type} `{Arith num}.






End ColumnNorms.

Section HornATE.

Import Exact.
Local Open Scope R_scope.



End HornATE.

(** ** Scaling a pose and a covariance *)

Section Objects.

Context {num : Type} `{Arith num}.
Variable translational : nat -> bool.









End Objects.

(** * Sample command lines *)

Section ManifoldSplit.

Context {num : Type} `{Arith num}.
Variable W : World num.
Variable a : args.t num.

(** X1: when [slam_metrics.ATE_SE3] returns an array of six rows for the
    two aligned trajectories, the manifold ATE block binds [ate_se3_error]
    to it and sends two summaries to the statistics: the column norms of
    its rows 0, 1, 2 under the name 'Translational' and those of its rows
    3, 4, 5 under the name 'Rotational'. *)
Theorem manifold_error_rows_split st gt est o md (m : Matrix num) (n : nat) :
  ns st !! "gt_poses_align" = Some gt ->
  ns st !! "est_poses_align" = Some est ->
  py_float (float_of_str W) (args.offset a) = inr o ->
  py_float (float_of_str W) (args.max_difference a) = inr md ->
  callee W "slam_metrics.ATE_SE3" [gt; est]
    [("offset", VFloat o); ("max_difference", VFloat md)] = Some (VArr m) ->
  length m = 6 ->
  Forall (fun row => length row = n) m ->
  (forall pos kws, is_Some (callee W "slam_metrics.compute_statistics" pos kws)) ->
  ate_se3 W a st
  = (inr tt,
     State (<["ate_se3_error" := VArr m]> (ns st))
       (out st ++ [EPrint "\nATE - Manifold" [];
                   ECall "slam_metrics.ATE_SE3" [gt; est]
                     [("offset", VFloat o); ("max_difference", VFloat md)];
                   ECall "slam_metrics.compute_statistics"
                     [VVec (col_norms (take 3 m))]
                     [("variable", VStr "Translational");
                      ("verbose", VBool (args.verbose a))];
                   ECall "slam_metrics.compute_statistics"
                     [VVec (col_norms (take 3 (drop 3 m)))]
                     [("variable", VStr "Rotational");
                      ("verbose", VBool (args.verbose a))]]))
  /\ length (take 3 m) = 3%nat /\ length (take 3 (drop 3 m)) = 3%nat
  /\ (forall i, (i < 3)%nat ->
        take 3 m !! i = m !! i /\ take 3 (drop 3 m) !! i = m !! (3 + i)%nat).
Proof.
  intros Hgt Hest Ho Hmd Hcall Hsix Hm Hstat. split; [| split; [| split]].
  2: { rewrite length_take. lia. }
  2: { rewrite length_take, length_drop. lia. }
  - unfold ate_se3.
    set (k := statistics_split W a "ate_se3_error").
    unfold print, assign, call, eval_args, eval_kwargs, float_, lit, get, set, emit,
      lift, ret, raise, bind.
    cbn [ns out]. rewrite Hgt. cbn [ns out]. rewrite Hest, Ho, Hmd. rewrite Hcall.
    cbn [ns out]. subst k.
    rewrite (statistics_split_array W a "ate_se3_error" _ m n);
      [| cbn [ns]; apply lookup_insert_eq | exact Hm | exact Hstat].
    cbn [ns out]. unfold split_events.
    rewrite <- !app_assoc. reflexivity.
  - intros i Hi. split.
    + apply lookup_take_lt, Hi.
    + rewrite lookup_take_lt by exact Hi. apply lookup_drop.
Qed.

End ManifoldSplit.

Section Runs.

Import Binary64.

Local Open Scope float_scope.

(** C1, on the sample: the DDT block on the two pairs of the sample, the
    first of distance 0, completes and binds [ddt]. *)
Lemma ddt_divides_every_pair_witness :
  (ddt Demo.world Demo.plain Demo.after_rpe).1 = inr tt
  /\ ns (ddt Demo.world Demo.plain Demo.after_rpe).2 !! "ddt"
     = Some (VArr (divide_rows Demo.errors Demo.distances)).
Proof.
  destruct (ddt_divides_every_pair Demo.world Demo.plain Demo.after_rpe
              Demo.errors Demo.distances) as [Hrun _].
  - vm_compute. reflexivity.
  - vm_compute. reflexivity.
  - reflexivity.
  - repeat constructor.
  - intros pos kws. exists VNone. reflexivity.
  - rewrite Hrun. split; [reflexivity|]. cbn [ns snd]. apply lookup_insert_eq.
Defined.

(** C1 as stated does not hold: in the run of [gt.txt est.txt --rpe --ddt]
    the first pair has distance 0, and it is neither excluded nor an
    error: the run completes, [ddt] has a column for it, which holds NaN
    (0/0), and that column goes to the statistics with the other. *)
Lemma ddt_keeps_zero_distance_pair :
  let r := run Demo.world Demo.rpe_ddt in
  r.1 = inr tt
  /\ ns r.2 !! "rpe_distance" = Some (VVec [0; 2])
  /\ ns r.2 !! "ddt"
     = Some (VArr [[nan; 1.5]; [nan; 2]; [nan; 6]; [nan; 0.5]; [nan; 1]; [nan; 1]])
  /\ last (out r.2)
     = Some (ECall "slam_metrics.compute_statistics" [VVec [nan; 1.5]]
               [("variable", VStr "Rotational"); ("verbose", VBool false)]).
Proof. vm_compute. repeat split. Qed.

(** C3 as stated does not hold: in the run of [gt.txt est.txt] the three
    events of scaling come before the call of the association, so the
    events are not in the order configuration, load, association, scaling,
    alignment, metrics, plot. *)
Lemma scaling_precedes_association :
  let evs := out (run Demo.world Demo.plain).2 in
  map stage_of (take 13 evs)
  = [Some Configure; Some Configure;
     Some Load; Some Load; Some Load; Some Load; Some Load; Some Load;
     Some Scaling; Some Scaling; Some Scaling;
     Some Association; Some Alignment]
  /\ in_order spec_rank evs = false
  /\ in_order code_rank evs = true.
Proof. vm_compute. repeat split. Qed.

(** C4 as stated does not hold: [gt.txt est.txt] selects no metric, and its
    run computes the Horn ATE all the same, four times. *)
Lemma ate_horn_without_selection :
  let r := run Demo.world Demo.plain in
  args.ate_manifold Demo.plain = false /\ args.rpe Demo.plain = false
  /\ args.ddt Demo.plain = false
  /\ r.1 = inr tt
  /\ called "slam_metrics.ATE_Horn" r.2 = true
  /\ length (filter (fun l => l = "slam_metrics.ATE_Horn") (labels r.2)) = 4%nat.
Proof. vm_compute. repeat split. Qed.

(** X18, on the sample: with [--ignore_timestamp_match] the association
    leaves the initial state as it is and the run never calls
    [utils.associate_and_filter]. *)
Lemma bypass_skips_association_witness :
  args.ignore_timestamp_match Demo.bypass_short = true
  /\ associate Demo.world Demo.bypass_short initial = (inr tt, initial)
  /\ called "utils.associate_and_filter" (run Demo.world Demo.bypass_short).2 = false.
Proof.
  destruct (bypass_skips_association Demo.world Demo.bypass_short eq_refl)
    as [Hskip Hnever].
  split; [reflexivity|]. split; [apply Hskip | exact Hnever].
Defined.

(** C10, on the sample: [--alignment icp --show_plots] never binds the
    aligned trajectories and ends with [NameError] for [gt_poses_align]. *)
Lemma unknown_alignment_never_binds_witness :
  ns (run Demo.world Demo.icp).2 !! "gt_poses_align" = None
  /\ (run Demo.world Demo.icp).1 = inl (NameError "gt_poses_align")
  /\ called "slam_metrics.compute_statistics" (run Demo.world Demo.icp).2 = false.
Proof.
  assert (Hicp : unknown_alignment Demo.icp)
    by (repeat split; discriminate).
  destruct (unknown_alignment_never_binds Demo.world Demo.icp Hicp)
    as ((Hgt & _) & _ & _ & Hend & _ & Hstat & _).
  split; [exact Hgt|]. split; [|exact Hstat].
  rewrite (Hend (prepare Demo.world Demo.icp initial).2).
  - reflexivity.
  - vm_compute. reflexivity.
Defined.

(** X1, on the sample. *)
Lemma manifold_error_rows_split_witness :
  (ate_se3 Demo.world Demo.plain Demo.after_align).1 = inr tt.
Proof.
  destruct (manifold_error_rows_split Demo.world Demo.plain Demo.after_align
              (VDict [(0, Sample.pose 0 0 0)]) (VDict [(0, Sample.pose 1 2 3)])
              0 (2 / 100) Demo.errors 2) as [Hrun _].
  - vm_compute. reflexivity.
  - vm_compute. reflexivity.
  - vm_compute. reflexivity.
  - vm_compute. reflexivity.
  - vm_compute. reflexivity.
  - reflexivity.
  - repeat constructor.
  - intros pos kws. exists VNone. reflexivity.
  - rewrite Hrun. reflexivity.
Defined.

End Runs.

(** * The remaining lines of the script *)

(** Unfolding of the statements down to the state. *)
Ltac run_monad :=
  unfold print, print_s, print_f, assign, assign_tuple, statistics, verbose_kw, norm,
    slice, divide, call, eval_args, eval_kwargs, float_, int_, lit, get, set, emit,
    lift, ret, raise, bind.

Section AlignmentBlock.

Context {num : Type} `{Arith num}.
Variable W : World num.
Variable a : args.t num.

(** X6: with [--alignment horn] (the default), line 100 calls
    [utils.align_trajectories_horn] on the two trajectories with
    [align_gt=False] and unpacks the result into [gt_poses_align],
    [est_poses_align] and [T_align_horn].  The unpacking is all or nothing:
    a result of three items binds the three names; any other number of
    items raises [ValueError] and a result that cannot be iterated
    [TypeError], in both cases after the call and with no name bound. *)
Theorem horn_alignment_unpacks_three st g e v :
  args.alignment a = "horn" ->
  ns st !! "gt_poses" = Some g ->
  ns st !! "est_poses" = Some e ->
  callee W "utils.align_trajectories_horn" [g; e] [("align_gt", VBool false)] = Some v ->
  let evs := out st ++ [ECall "utils.align_trajectories_horn" [g; e]
                          [("align_gt", VBool false)]] in
  align W a st =
    match py_iter v with
    | Some [x; y; z] =>
        (inr tt,
         State (<["T_align_horn" := z]>
                  (<["est_poses_align" := y]> (<["gt_poses_align" := x]> (ns st)))) evs)
    | Some _ => (inl (ValueError "wrong number of values to unpack"), State (ns st) evs)
    | None => (inl (TypeError "cannot unpack non-iterable object"), State (ns st) evs)
    end.
Proof.
  intros Ha Hg He Hv. unfold align. rewrite Ha.
  rewrite bool_decide_eq_false_2 by discriminate.
  rewrite bool_decide_eq_true_2 by reflexivity.
  run_monad. rewrite Hg. cbn [ns out]. rewrite He. cbn [ns out]. rewrite Hv.
  destruct (py_iter v) as [[| x [| y [| z [| w l]]]] |]; reflexivity.
Qed.

End AlignmentBlock.

Section MetricBlocks.

Context {num : Type} `{Arith num}.
Variable W : World num.
Variable a : args.t num.

Lemma eval_kwargs_lit (kvs : list (string * value num)) st :
  eval_kwargs (map (fun kv : string * value num => (kv.1, lit kv.2)) kvs) st = (inr kvs, st).
Proof.
  induction kvs as [| [k v] kvs IH]; [reflexivity |].
  cbn [map eval_kwargs fst snd]. unfold bind. unfold lit at 1. unfold ret at 1.
  rewrite IH. reflexivity.
Qed.

(** A call whose arguments evaluate without effect. *)
Lemma call_run f es kws st vs kvs :
  eval_args es st = (inr vs, st) ->
  eval_kwargs kws st = (inr kvs, st) ->
  call W f es kws st
  = match callee W f vs kvs with
    | Some v => (inr v, State (ns st) (out st ++ [ECall f vs kvs]))
    | None => (inl (CalleeError f), State (ns st) (out st ++ [ECall f vs kvs]))
    end.
Proof.
  intros Hes Hkws. unfold call, bind. rewrite Hes, Hkws. unfold emit.
  destruct (callee W f vs kvs); reflexivity.
Qed.

(** One pass of the Horn ATE: title, call, norms, statistics. *)
Lemma ate_horn_pass title (kvs : list (string * value num)) st g e (m : Matrix num) n :
  ns st !! "gt_poses_align" = Some g ->
  ns st !! "est_poses_align" = Some e ->
  callee W "slam_metrics.ATE_Horn" [g; e] kvs = Some (VArr m) ->
  Forall (fun row => length row = n) m ->
  (forall pos kws, is_Some (callee W "slam_metrics.compute_statistics" pos kws)) ->
  ate_horn W a title (map (fun kv : string * value num => (kv.1, lit kv.2)) kvs) st
  = (inr tt, State (<["ate_horn_error" := VArr m]> (ns st))
               (out st ++ horn_pass a g e title kvs m)).
Proof.
  intros Hg He Hm Hrows Hstat. unfold ate_horn.
  unfold print, assign, statistics, bind, emit, set.
  cbn [ns out].
  rewrite (call_run "slam_metrics.ATE_Horn" _ _ _ [g; e] kvs);
    [| run_monad; cbn [ns]; rewrite Hg; cbn [ns]; rewrite He; reflexivity | apply eval_kwargs_lit].
  rewrite Hm. cbn [ns out].
  erewrite (call_run "slam_metrics.compute_statistics" _ _ _
             [VVec (col_norms m)] [("verbose", VBool (args.verbose a))]);
    [| run_monad; cbn [ns]; rewrite lookup_insert_eq;
       rewrite (norm_of_rows m n Hrows); reflexivity
     | reflexivity].
  destruct (Hstat [VVec (col_norms m)] [("verbose", VBool (args.verbose a))]) as [v ->].
  cbn [ns out]. unfold ret, horn_pass. rewrite <- !app_assoc. reflexivity.
Qed.

(** X9: lines 108-122 compute the Horn ATE four times on the same aligned
    trajectories: without [axes], then with [axes] 'X', 'Y' and 'Z'.  Each
    pass prints its title, calls [slam_metrics.ATE_Horn], and passes the
    column norms of the result to the statistics with [verbose] only.  All
    four results go to the one name [ate_horn_error], which in the end holds
    the result of the 'Z' pass. *)
Theorem horn_ate_four_passes st g e (m mx my mz : Matrix num) n nx ny nz :
  ns st !! "gt_poses_align" = Some g ->
  ns st !! "est_poses_align" = Some e ->
  callee W "slam_metrics.ATE_Horn" [g; e] [] = Some (VArr m) ->
  callee W "slam_metrics.ATE_Horn" [g; e] [("axes", VStr "X")] = Some (VArr mx) ->
  callee W "slam_metrics.ATE_Horn" [g; e] [("axes", VStr "Y")] = Some (VArr my) ->
  callee W "slam_metrics.ATE_Horn" [g; e] [("axes", VStr "Z")] = Some (VArr mz) ->
  Forall (fun row => length row = n) m ->
  Forall (fun row => length row = nx) mx ->
  Forall (fun row => length row = ny) my ->
  Forall (fun row => length row = nz) mz ->
  (forall pos kws, is_Some (callee W "slam_metrics.compute_statistics" pos kws)) ->
  ate_horn_all W a st
  = (inr tt,
     State (<["ate_horn_error" := VArr mz]> (ns st))
       (out st
        ++ horn_pass a g e "\nATE - Horn" [] m
        ++ horn_pass a g e "\nATE - Horn - X" [("axes", VStr "X")] mx
        ++ horn_pass a g e "\nATE - Horn - Y" [("axes", VStr "Y")] my
        ++ horn_pass a g e "\nATE - Horn - Z" [("axes", VStr "Z")] mz)).
Proof.
  intros Hg He H0 HX HY HZ Hm Hmx Hmy Hmz Hstat. unfold ate_horn_all.
  assert (Hpass : forall title kvs st1 (m1 : Matrix num) n1,
             ns st1 !! "gt_poses_align" = Some g ->
             ns st1 !! "est_poses_align" = Some e ->
             callee W "slam_metrics.ATE_Horn" [g; e] kvs = Some (VArr m1) ->
             Forall (fun row => length row = n1) m1 ->
             ate_horn W a title (map (fun kv : string * value num => (kv.1, lit kv.2)) kvs) st1
             = (inr tt, State (<["ate_horn_error" := VArr m1]> (ns st1))
                          (out st1 ++ horn_pass a g e title kvs m1))).
  { intros. eapply ate_horn_pass; eauto. }
  pose proof (Hpass "\nATE - Horn" [] st m n Hg He H0 Hm) as P0.
  cbn [map fst snd] in P0. unfold bind at 1. rewrite P0. clear P0. cbv beta iota.
  unfold bind at 1.
  match goal with |- context [ate_horn W a "\nATE - Horn - X" _ ?s] =>
    assert (P1 := Hpass "\nATE - Horn - X" [("axes", VStr "X")] s mx nx);
    cbn [map fst snd] in P1; rewrite P1;
      [| simpl_state; assumption | simpl_state; assumption | assumption | assumption];
    clear P1
  end.
  cbv beta iota. unfold bind at 1.
  match goal with |- context [ate_horn W a "\nATE - Horn - Y" _ ?s] =>
    assert (P1 := Hpass "\nATE - Horn - Y" [("axes", VStr "Y")] s my ny);
    cbn [map fst snd] in P1; rewrite P1;
      [| simpl_state; assumption | simpl_state; assumption | assumption | assumption];
    clear P1
  end.
  cbv beta iota.
  match goal with |- context [ate_horn W a "\nATE - Horn - Z" _ ?s] =>
    assert (P1 := Hpass "\nATE - Horn - Z" [("axes", VStr "Z")] s mz nz);
    cbn [map fst snd] in P1; rewrite P1;
      [| simpl_state; assumption | simpl_state; assumption | assumption | assumption];
    clear P1
  end.
  cbn [ns out]. rewrite !insert_insert_eq. rewrite <- !app_assoc. reflexivity.
Qed.

(** X10: the RPE block (lines 137-148) prints its title with [--delta] as
    given, calls [slam_metrics.RPE] on the aligned trajectories with
    [int(max_pairs)], the [fixed_delta] flag, [float(delta)], the unit and
    [float(offset)], binds the four items of the result to [rpe_error],
    [rpe_trans_error], [rpe_rot_error] and [rpe_distance], and, the first
    item being an array of six rows, summarises rows 0-2 and rows 3-5 of
    [rpe_error]. *)
Theorem rpe_block_unpacks_four st g e mp dl o res (m : Matrix num) te re d n :
  ns st !! "gt_poses_align" = Some g ->
  ns st !! "est_poses_align" = Some e ->
  py_int (int_of_str W) (args.max_pairs a) = inr mp ->
  py_float (float_of_str W) (args.delta a) = inr dl ->
  py_float (float_of_str W) (args.offset a) = inr o ->
  let kws := [("param_max_pairs", VInt mp);
              ("param_fixed_delta", VBool (args.fixed_delta a));
              ("param_delta", VFloat dl);
              ("param_delta_unit", VStr (args.delta_unit a));
              ("param_offset", VFloat o)] in
  callee W "slam_metrics.RPE" [g; e] kws = Some res ->
  py_iter res = Some [VArr m; te; re; d] ->
  length m = 6 ->
  Forall (fun row => length row = n) m ->
  (forall pos kws, is_Some (callee W "slam_metrics.compute_statistics" pos kws)) ->
  rpe W a st
  = (inr tt,
     State (<["rpe_distance" := d]>
              (<["rpe_rot_error" := re]>
                 (<["rpe_trans_error" := te]> (<["rpe_error" := VArr m]> (ns st)))))
       (out st
        ++ [EPrint "\nRPE - %s [%s]" [args.delta a; VStr (args.delta_unit a)];
            ECall "slam_metrics.RPE" [g; e] kws]
        ++ split_events a m))
  /\ length (take 3 m) = 3 /\ length (take 3 (drop 3 m)) = 3.
Proof.
  intros Hg He Hmp Hdl Ho kws Hres Hit Hsix Hm Hstat.
  split; [| rewrite !length_take, length_drop; lia].
  unfold rpe.
  set (k := statistics_split W a "rpe_error").
  run_monad. cbn [ns out]. rewrite Hg. cbn [ns out]. rewrite He, Hmp, Hdl, Ho.
  cbn [ns out]. fold kws. rewrite Hres. cbn [ns out]. rewrite Hit.
  cbn [length Nat.eqb rpe_names zip zip_with]. rewrite set_all_ns.
  cbn [foldl fst snd ns out]. subst k.
  rewrite (statistics_split_array W a "rpe_error" _ m n);
    [| simpl_state; reflexivity | exact Hm | exact Hstat].
  cbn [ns out]. rewrite <- !app_assoc. reflexivity.
Qed.

(** X11: a [--max_pairs] that [int()] rejects (for example the text
    [1e4]) is only found out in the RPE block: the title is printed, the
    conversion raises, [slam_metrics.RPE] is not called and nothing is
    bound. *)
Theorem rpe_rejects_max_pairs_before_call st g e err :
  ns st !! "gt_poses_align" = Some g ->
  ns st !! "est_poses_align" = Some e ->
  py_int (int_of_str W) (args.max_pairs a) = inl err ->
  rpe W a st
  = (inl err,
     State (ns st)
       (out st ++ [EPrint "\nRPE - %s [%s]" [args.delta a; VStr (args.delta_unit a)]])).
Proof.
  intros Hg He Hmp. unfold rpe.
  run_monad. cbn [ns out]. rewrite Hg. cbn [ns out]. rewrite He, Hmp. reflexivity.
Qed.

Lemma broadcast_mismatch {A B C : Type} (f : A -> B -> C) (l1 : list A) (l2 : list B) :
  length l1 <> length l2 -> length l1 <> 1 -> length l2 <> 1 ->
  broadcast f l1 l2 = None.
Proof.
  intros Hne H1 H2. unfold broadcast.
  destruct l1 as [| x [| x' l1]]; destruct l2 as [| y [| y' l2]];
    cbn [length] in *; try congruence;
    try (apply Nat.eqb_neq in Hne; cbn [length]; rewrite Hne; reflexivity).
Qed.

Lemma mapM_None_all {A : Type} (l : list (option A)) :
  l <> [] -> Forall (fun x => x = None) l -> mapM (M := option) (fun r => r) l = None.
Proof.
  intros Hl Hall. destruct l as [| x l]; [congruence |].
  inversion Hall as [| ? ? Hx _]; subst. reflexivity.
Qed.

Lemma np_divide_mismatch (e : Matrix num) (d : list num) n :
  e <> [] -> Forall (fun row => length row = n) e ->
  n <> length d -> n <> 1 -> length d <> 1 ->
  np_divide (VArr e) (VVec d)
  = inl (ValueError "operands could not be broadcast together").
Proof.
  intros He Hrows Hn H1 Hd. unfold np_divide, as_array. cbn [as_scalar as_row].
  rewrite (rect_same_length e n Hrows). cbn [res_bind rows ndim].
  replace (broadcast2 div e [d]) with (@None (Matrix num)); [reflexivity |].
  symmetry. unfold broadcast2.
  assert (Hout : broadcast (broadcast div) e [d]
                 = Some (map (fun r => broadcast div r d) e)).
  { destruct e as [| r [| r' e']]; reflexivity. }
  rewrite Hout. apply mapM_None_all.
  - destruct e; [congruence | discriminate].
  - apply List.Forall_forall. intros x Hx. apply in_map_iff in Hx as (r & <- & Hr).
    apply broadcast_mismatch; [| | exact Hd].
    + rewrite List.Forall_forall in Hrows. rewrite (Hrows r Hr). exact Hn.
    + rewrite List.Forall_forall in Hrows. rewrite (Hrows r Hr). exact H1.
Qed.

(** X12: when [rpe_distance] has neither one entry per column of
    [rpe_error] nor a single entry (and [rpe_error] has not a single
    column), [np.divide] cannot broadcast: the DDT block stops with
    [ValueError] right after its title, with [ddt] unbound and no
    statistics. *)
Theorem ddt_shape_mismatch_raises st (e : Matrix num) (d : list num) n :
  ns st !! "rpe_error" = Some (VArr e) ->
  ns st !! "rpe_distance" = Some (VVec d) ->
  e <> [] -> Forall (fun row => length row = n) e ->
  n <> length d -> n <> 1 -> length d <> 1 ->
  ddt W a st
  = (inl (ValueError "operands could not be broadcast together"),
     State (ns st) (out st ++ [EPrint "\nDDT" []])).
Proof.
  intros Hre Hrd He Hrows Hn H1 Hd. unfold ddt.
  run_monad. cbn [ns out]. rewrite Hre. cbn [ns out]. rewrite Hrd.
  rewrite (np_divide_mismatch e d n He Hrows Hn H1 Hd). reflexivity.
Qed.

End MetricBlocks.

Section Inversions.

Context {num : Type} `{Arith num}.
Variable W : World num.

Lemma eval_args_unchanged (es : list (M num (value num))) st r st' :
  Forall (fun e => steps e [] []) es -> eval_args es st = (r, st') -> st' = st.
Proof.
  intros Hes Hrun. pose proof (eval_args_pure es st Hes) as Hp.
  rewrite Hrun in Hp. exact Hp.
Qed.

Lemma eval_kwargs_unchanged (kws : list (string * M num (value num))) st r st' :
  Forall (fun ke => steps ke.2 [] []) kws -> eval_kwargs kws st = (r, st') -> st' = st.
Proof.
  intros Hes Hrun. pose proof (eval_kwargs_pure kws st Hes) as Hp.
  rewrite Hrun in Hp. exact Hp.
Qed.

(** A call that returns: its arguments evaluated, the callee answered, and
    the call is the one event added. *)
Lemma call_inr f es kws st v st' :
  Forall (fun e => steps e [] []) es ->
  Forall (fun ke => steps ke.2 [] []) kws ->
  call W f es kws st = (inr v, st') ->
  exists vs kvs,
    eval_args es st = (inr vs, st)
    /\ eval_kwargs kws st = (inr kvs, st)
    /\ callee W f vs kvs = Some v
    /\ st' = State (ns st) (out st ++ [ECall f vs kvs]).
Proof.
  intros Hes Hkws Hrun. unfold call in Hrun.
  apply bind_inr in Hrun as (vs & st1 & Hargs & Hrun).
  pose proof (eval_args_unchanged _ _ _ _ Hes Hargs) as ->.
  apply bind_inr in Hrun as (kvs & st2 & Hkw & Hrun).
  pose proof (eval_kwargs_unchanged _ _ _ _ Hkws Hkw) as ->.
  exists vs, kvs. split; [exact Hargs |]. split; [exact Hkw |].
  unfold bind, emit, ret, raise in Hrun.
  destruct (callee W f vs kvs) as [v' |]; [| discriminate].
  injection Hrun as <- <-. split; reflexivity.
Qed.

Lemma assign_call_inr n f es kws st st' :
  Forall (fun e => steps e [] []) es ->
  Forall (fun ke => steps ke.2 [] []) kws ->
  assign n (call W f es kws) st = (inr tt, st') ->
  exists vs kvs v,
    eval_args es st = (inr vs, st)
    /\ eval_kwargs kws st = (inr kvs, st)
    /\ callee W f vs kvs = Some v
    /\ st' = State (<[n := v]> (ns st)) (out st ++ [ECall f vs kvs]).
Proof.
  intros Hes Hkws Hrun. unfold assign in Hrun.
  apply bind_inr in Hrun as (v & st1 & Hcall & Hset).
  apply (call_inr _ _ _ _ _ _ Hes Hkws) in Hcall as (vs & kvs & Ha & Hk & Hc & ->).
  exists vs, kvs, v. unfold set in Hset. injection Hset as <-. auto.
Qed.

Lemma assign_tuple_call_inr names f es kws st st' :
  Forall (fun e => steps e [] []) es ->
  Forall (fun ke => steps ke.2 [] []) kws ->
  assign_tuple names (call W f es kws) st = (inr tt, st') ->
  exists vs kvs v items,
    eval_args es st = (inr vs, st)
    /\ eval_kwargs kws st = (inr kvs, st)
    /\ callee W f vs kvs = Some v
    /\ py_iter v = Some items /\ length items = length names
    /\ st' = State (foldl (fun m nv => <[nv.1 := nv.2]> m) (ns st) (zip names items))
               (out st ++ [ECall f vs kvs]).
Proof.
  intros Hes Hkws Hrun. unfold assign_tuple in Hrun.
  apply bind_inr in Hrun as (v & st1 & Hcall & Hset).
  apply (call_inr _ _ _ _ _ _ Hes Hkws) in Hcall as (vs & kvs & Ha & Hk & Hc & ->).
  exists vs, kvs, v.
  destruct (py_iter v) as [items |]; [| discriminate].
  destruct (Nat.eqb (length items) (length names)) eqn:Hlen; [| discriminate].
  apply Nat.eqb_eq in Hlen. rewrite set_all_ns in Hset. injection Hset as <-.
  exists items. auto 10.
Qed.



Lemma is_tum_cov_inr (st : state num) c st' :
  is_tum_cov st = (inr c, st') ->
  st' = st /\ exists f, ns st !! "gt_format" = Some f /\ c = py_eq_str f "tum_cov".
Proof.
  unfold is_tum_cov, get, bind, ret. destruct (ns st !! "gt_format") as [f |]; [| discriminate].
  intros Hq. injection Hq as <- <-. eauto.
Qed.

End Inversions.

Section ScaleOption.

Context {num : Type} `{Arith num}.
Variable W : World num.
Variable a : args.t num.

Lemma apply_scale_rejected st e :
  py_float (float_of_str W) (args.scale a) = inl e -> apply_scale W a st = (inl e, st).
Proof.
  intros He. unfold apply_scale. unfold bind at 1. unfold assign, float_, lift, bind.
  rewrite He. reflexivity.
Qed.

Lemma read_steps :
  steps (bind (configure W a) (fun _ => load W a)) load_names (configure_labels ++ load_labels).
Proof.
  apply steps_bind; [| intros _].
  - eapply steps_weaken; [apply configure_steps | reflexivity | reflexivity].
  - eapply steps_weaken; [apply load_steps | reflexivity | reflexivity].
Qed.

Lemma main_after_read st :
  main W a st
  = bind (bind (configure W a) (fun _ => load W a))
      (fun _ => bind (apply_scale W a)
         (fun _ => associate W a ;~ align W a ;~
                   (if negb (args.no_metrics a) then metrics W a else ret tt) ;~
                   (if args.show_plots a then plot W else ret tt))) st.
Proof. unfold main. rewrite bind_assoc. reflexivity. Qed.

(** X3: line 77 converts [--scale] before anything else of the scaling,
    with or without [--automatic_scale]: when [float()] rejects it, the run
    fails, no scale is computed or printed, [utils.scale_dict] is never
    called and [scale] stays unbound; if the two files were read, the run
    ends with the error of [float()] in the state the load left. *)
Theorem rejected_scale_stops_before_scaling e :
  py_float (float_of_str W) (args.scale a) = inl e ->
  let r := run W a in
  (exists e', r.1 = inl e')
  /\ called "utils.compute_scale_from_trajectories" r.2 = false
  /\ called "Using scale: %f" r.2 = false
  /\ called "utils.scale_dict" r.2 = false
  /\ ns r.2 !! "scale" = None
  /\ (forall st1, bind (configure W a) (fun _ => load W a) initial = (inr tt, st1) ->
        r = (inl e, st1)).
Proof.
  intros He r.
  destruct (run_footprint _ _ _ read_steps) as [Hlabels Hnames].
  assert (Hrun : r = match bind (configure W a) (fun _ => load W a) initial with
                     | (inl e', st1) => (inl e', st1)
                     | (inr _, st1) => (inl e, st1)
                     end).
  { subst r. unfold run. rewrite main_after_read. unfold bind at 1.
    destruct (bind (configure W a) (fun _ => load W a) initial) as [[e' | []] st1];
      [reflexivity |].
    unfold bind at 1. rewrite (apply_scale_rejected st1 e He). reflexivity. }
  assert (Hst : r.2 = (bind (configure W a) (fun _ => load W a) initial).2).
  { rewrite Hrun.
    destruct (bind (configure W a) (fun _ => load W a) initial) as [[e' | []] st1];
      reflexivity. }
  rewrite Hst. repeat split.
  - rewrite Hrun.
    destruct (bind (configure W a) (fun _ => load W a) initial) as [[e' | []] st1];
      eexists; reflexivity.
  - eapply not_called; [exact Hlabels | reflexivity].
  - eapply not_called; [exact Hlabels | reflexivity].
  - eapply not_called; [exact Hlabels | reflexivity].
  - apply Hnames. reflexivity.
  - intros st1 Hread. rewrite Hrun, Hread. reflexivity.
Qed.

End ScaleOption.

Ltac pure_args := repeat constructor; cbn [snd]; footprint.

Section Covariances.

Context {num : Type} `{Arith num}.
Variable W : World num.
Variable a : args.t num.



Lemma steps_names {A : Type} (m : M num A) Ws Ls st n :
  steps m Ws Ls -> mem n Ws = false -> ns (m st).2 !! n = ns st !! n.
Proof. intros Hm Hn. destruct (Hm st) as (evs & _ & _ & Hns). apply Hns, Hn. Qed.


End Covariances.

Section PlotFlag.

Context {num : Type} `{Arith num}.
Variable W : World num.
Variable a : args.t num.

(** A plot that returns has made its call last, with the four values bound
    to the stamps and positions. *)
Lemma plot_inr st st' :
  plot W st = (inr tt, st') ->
  exists gs gx es ex,
    ns st' !! "gt_stamps" = Some gs /\ ns st' !! "gt_xyz" = Some gx
    /\ ns st' !! "est_stamps" = Some es /\ ns st' !! "est_xyz" = Some ex
    /\ last (out st')
       = Some (ECall "plot_utils.plot_2d_traj_xyz" [gs; gx; es; ex]
                 [("save_fig", VBool true)]).
Proof.
  intros Hrun. unfold plot in Hrun.
  do 10 (apply bind_inr in Hrun as ([] & ? & _ & Hrun)).
  apply bind_inr in Hrun as (v & st1 & Hcall & Hret).
  unfold ret in Hret. injection Hret as <-.
  apply call_inr in Hcall as (vs & kvs & Hvs & Hkvs & _ & ->); [| pure_args ..].
  unfold eval_kwargs, lit, bind, ret in Hkvs. injection Hkvs as <-.
  unfold eval_args, get, bind, ret in Hvs.
  destruct (ns _ !! "gt_stamps") as [gs |] eqn:Hgs; [| discriminate].
  destruct (ns _ !! "gt_xyz") as [gx |] eqn:Hgx; [| discriminate].
  destruct (ns _ !! "est_stamps") as [es |] eqn:Hes; [| discriminate].
  destruct (ns _ !! "est_xyz") as [ex |] eqn:Hex; [| discriminate].
  injection Hvs as <-. exists gs, gx, es, ex. cbn [ns out].
  rewrite last_snoc. auto 10.
Qed.

Lemma run_ends_with_plot :
  args.show_plots a = true -> (run W a).1 = inr tt ->
  exists st, plot W st = (inr tt, (run W a).2).
Proof.
  intros Hp Hok. unfold run in *. destruct (main W a initial) as [r st'] eqn:Hmain.
  cbn [fst snd] in *. subst r. unfold main in Hmain. rewrite Hp in Hmain.
  do 6 (apply bind_inr in Hmain as ([] & ? & _ & Hmain)).
  cbv beta iota in Hmain. eexists. exact Hmain.
Qed.

Lemma no_plot_labels f :
  args.show_plots a = false -> mem f plot_labels = true ->
  mem f (prepare_labels ++ finish_labels a) = false.
Proof.
  intros Hp Hf. unfold finish_labels, metrics_labels. rewrite Hp.
  cbn in Hf.
  destruct (String.eqb f "utils.rotm_to_rpy") eqn:E1.
  - apply String.eqb_eq in E1 as ->.
    destruct (args.no_metrics a), (args.ate_manifold a), (args.rpe a), (args.ddt a);
      reflexivity.
  - destruct (String.eqb f "plot_utils.plot_2d_traj_xyz") eqn:E2; [| discriminate].
    apply String.eqb_eq in E2 as ->.
    destruct (args.no_metrics a), (args.ate_manifold a), (args.rpe a), (args.ddt a);
      reflexivity.
Qed.

Lemma no_plot_names n :
  args.show_plots a = false -> mem n plot_names = true ->
  mem n (prepare_names ++ finish_names a) = false.
Proof.
  intros Hp Hn. unfold finish_names, metrics_names. rewrite Hp.
  assert (Hcases : In n plot_names).
  { unfold mem in Hn. apply existsb_exists in Hn as (x & Hx & Heq).
    apply String.eqb_eq in Heq as ->. exact Hx. }
  cbn in Hcases.
  repeat (destruct Hcases as [<- | Hcases];
          [destruct (args.no_metrics a), (args.ate_manifold a), (args.rpe a), (args.ddt a);
             reflexivity |]).
  destruct Hcases.
Qed.

(** X13: without [--show_plots] no run calls [utils.rotm_to_rpy] or
    [plot_utils.plot_2d_traj_xyz] and none of the names of lines 158-179 is
    bound.  With it, a run that completes ends with the call
    [plot_2d_traj_xyz(gt_stamps, gt_xyz, est_stamps, est_xyz,
    save_fig=True)] on the values bound to these four names. *)
Theorem plot_only_with_flag_and_last :
  let r := run W a in
  (args.show_plots a = false ->
     called "utils.rotm_to_rpy" r.2 = false
     /\ called "plot_utils.plot_2d_traj_xyz" r.2 = false
     /\ forall n, mem n plot_names = true -> ns r.2 !! n = None)
  /\ (args.show_plots a = true -> r.1 = inr tt ->
      exists gs gx es ex,
        ns r.2 !! "gt_stamps" = Some gs /\ ns r.2 !! "gt_xyz" = Some gx
        /\ ns r.2 !! "est_stamps" = Some es /\ ns r.2 !! "est_xyz" = Some ex
        /\ last (out r.2)
           = Some (ECall "plot_utils.plot_2d_traj_xyz" [gs; gx; es; ex]
                     [("save_fig", VBool true)])).
Proof.
  intros r. split.
  - intros Hp.
    destruct (run_footprint _ _ _ (main_steps W a)) as [Hlabels Hnames].
    split; [| split].
    + eapply not_called; [exact Hlabels |]. apply no_plot_labels; [exact Hp | reflexivity].
    + eapply not_called; [exact Hlabels |]. apply no_plot_labels; [exact Hp | reflexivity].
    + intros n Hn. apply Hnames. apply no_plot_names; assumption.
  - intros Hp Hok. destruct (run_ends_with_plot Hp Hok) as [st Hplot].
    apply plot_inr in Hplot. exact Hplot.
Qed.

End PlotFlag.

Ltac run_script :=
  unfold is_tum_cov; run_monad.

Section ReadingBlocks.

Context {num : Type} `{Arith num}.
Variable W : World num.
Variable a : args.t num.

(** X2: lines 58-71 read the two files, ask for the format of each and
    convert each with its own format.  Whether the results are unpacked
    into poses and covariances depends on the format of the ground truth
    alone: if it is not 'tum_cov', [gt_poses] and [est_poses] are bound to
    what the conversions return, whatever the format of the estimate, and
    no covariance is bound; if it is, both results are unpacked into two,
    and an estimate whose conversion does not return two items stops the
    load with [ValueError] or [TypeError] after all six calls, with
    [gt_poses] and [gt_cov] bound. *)
Theorem load_unpacks_by_gt_format st dg de fg fe pg pe :
  callee W "utils.read_file_dict" [VStr (args.gt_file a)] [] = Some dg ->
  callee W "utils.read_file_dict" [VStr (args.est_file a)] [] = Some de ->
  callee W "utils.check_valid_pose_format" [dg] [] = Some fg ->
  callee W "utils.check_valid_pose_format" [de] [] = Some fe ->
  callee W "utils.convert_file_dict_to_pose_dict" [dg] [("file_format", fg)] = Some pg ->
  callee W "utils.convert_file_dict_to_pose_dict" [de] [("file_format", fe)] = Some pe ->
  let ns4 := <["est_format" := fe]>
               (<["gt_format" := fg]>
                  (<["est_dict" := de]> (<["gt_dict" := dg]> (ns st)))) in
  let evs := out st
             ++ [ECall "utils.read_file_dict" [VStr (args.gt_file a)] [];
                 ECall "utils.read_file_dict" [VStr (args.est_file a)] [];
                 ECall "utils.check_valid_pose_format" [dg] [];
                 ECall "utils.check_valid_pose_format" [de] [];
                 ECall "utils.convert_file_dict_to_pose_dict" [dg] [("file_format", fg)];
                 ECall "utils.convert_file_dict_to_pose_dict" [de] [("file_format", fe)]] in
  (py_eq_str fg "tum_cov" = false ->
     load W a st
     = (inr tt, State (<["est_poses" := pe]> (<["gt_poses" := pg]> ns4)) evs))
  /\ (py_eq_str fg "tum_cov" = true ->
      forall p c, py_iter pg = Some [p; c] ->
        let ns6 := <["gt_cov" := c]> (<["gt_poses" := p]> ns4) in
        load W a st
        = match py_iter pe with
          | Some [p'; c'] =>
              (inr tt, State (<["est_cov" := c']> (<["est_poses" := p']> ns6)) evs)
          | Some _ =>
              (inl (ValueError "wrong number of values to unpack"), State ns6 evs)
          | None =>
              (inl (TypeError "cannot unpack non-iterable object"), State ns6 evs)
          end).
Proof.
  intros Hrg Hre Hcg Hce Hvg Hve ns4 evs. subst ns4 evs.
  split.
  - intros Hcov. unfold load. run_script.
    simpl_state. rewrite Hrg. simpl_state. rewrite Hre. simpl_state. rewrite Hcg.
    simpl_state. rewrite Hce. simpl_state. rewrite Hcov. simpl_state. rewrite Hvg.
    simpl_state. rewrite Hve. simpl_state. rewrite <- !app_assoc. reflexivity.
  - intros Hcov p c Hpg ns6. subst ns6. unfold load. run_script.
    simpl_state. rewrite Hrg. simpl_state. rewrite Hre. simpl_state. rewrite Hcg.
    simpl_state. rewrite Hce. simpl_state. rewrite Hcov. simpl_state. rewrite Hvg.
    simpl_state. rewrite Hpg. cbn [length Nat.eqb]. rewrite set_all_ns.
    cbn [zip zip_with foldl fst snd]. simpl_state. rewrite Hve. simpl_state.
    rewrite <- !app_assoc. cbn [app].
    destruct (py_iter pe) as [[| p' [| c' [| x l]]] |]; try reflexivity.
Qed.

(** X5: without covariances, lines 88-89 call
    [utils.associate_and_filter] once, on the two scaled trajectories with
    [float(offset)], [float(max_difference)], [float(offset_initial)] and
    the [recommended_offset] flag, and rebind [gt_poses] and [est_poses] to
    the two items of the result; a result that is not two items leaves both
    as they were and raises. *)
Theorem association_replaces_both_trajectories st g e f o md oi v :
  args.ignore_timestamp_match a = false ->
  ns st !! "gt_poses" = Some g ->
  ns st !! "est_poses" = Some e ->
  ns st !! "gt_format" = Some f ->
  py_eq_str f "tum_cov" = false ->
  py_float (float_of_str W) (args.offset a) = inr o ->
  py_float (float_of_str W) (args.max_difference a) = inr md ->
  py_float (float_of_str W) (args.offset_initial a) = inr oi ->
  let kws := [("offset", VFloat o); ("max_difference", VFloat md);
              ("offset_initial", VFloat oi);
              ("recommended_offset", VBool (args.recommended_offset a))] in
  callee W "utils.associate_and_filter" [g; e] kws = Some v ->
  let evs := out st ++ [ECall "utils.associate_and_filter" [g; e] kws] in
  associate W a st
  = match py_iter v with
    | Some [g'; e'] =>
        (inr tt, State (<["est_poses" := e']> (<["gt_poses" := g']> (ns st))) evs)
    | Some _ => (inl (ValueError "wrong number of values to unpack"), State (ns st) evs)
    | None => (inl (TypeError "cannot unpack non-iterable object"), State (ns st) evs)
    end.
Proof.
  intros Hig Hg He Hf Hcov Ho Hmd Hoi kws Hv evs. subst evs.
  unfold associate, associate_kwargs. rewrite Hig. cbn [negb]. run_script.
  simpl_state. rewrite Hg. simpl_state. rewrite He, Ho, Hmd, Hoi. simpl_state.
  fold kws. rewrite Hv.
  destruct (py_iter v) as [[| g' [| e' [| x l]]] |]; try reflexivity.
  cbn [length Nat.eqb]. rewrite set_all_ns.
  cbn [zip zip_with foldl fst snd]. simpl_state. rewrite Hf, Hcov. reflexivity.
Qed.

(** X7: with [--alignment manifold], the estimate's covariance is passed
    to [utils.align_trajectories_manifold] as [cov_est] exactly when the
    ground-truth format is 'tum_cov'; in both cases [align_gt=False] is
    passed and the three items of the result are bound to [gt_poses_align],
    [est_poses_align] and [T_align_man].  With the format 'tum_cov' and
    [est_cov] unbound, the alignment stops with [NameError] before any
    call. *)
Theorem manifold_alignment_passes_covariance st g e f :
  args.alignment a = "manifold" ->
  ns st !! "gt_poses" = Some g ->
  ns st !! "est_poses" = Some e ->
  ns st !! "gt_format" = Some f ->
  let result kws v :=
    let evs := out st ++ [ECall "utils.align_trajectories_manifold" [g; e] kws] in
    match py_iter v with
    | Some [x; y; z] =>
        (inr tt,
         State (<["T_align_man" := z]>
                  (<["est_poses_align" := y]> (<["gt_poses_align" := x]> (ns st)))) evs)
    | Some _ => (inl (ValueError "wrong number of values to unpack"), State (ns st) evs)
    | None => (inl (TypeError "cannot unpack non-iterable object"), State (ns st) evs)
    end in
  (py_eq_str f "tum_cov" = false ->
   forall v,
     callee W "utils.align_trajectories_manifold" [g; e] [("align_gt", VBool false)]
     = Some v ->
     align W a st = result [("align_gt", VBool false)] v)
  /\ (py_eq_str f "tum_cov" = true ->
      forall ec v,
        ns st !! "est_cov" = Some ec ->
        callee W "utils.align_trajectories_manifold" [g; e]
          [("cov_est", ec); ("align_gt", VBool false)] = Some v ->
        align W a st = result [("cov_est", ec); ("align_gt", VBool false)] v)
  /\ (py_eq_str f "tum_cov" = true ->
      ns st !! "est_cov" = None ->
      align W a st = (inl (NameError "est_cov"), st)).
Proof.
  intros Ha Hg He Hf result. subst result. cbv beta.
  unfold align. rewrite Ha. rewrite bool_decide_eq_true_2 by reflexivity.
  split; [| split].
  - intros Hcov v Hv. run_script. simpl_state. rewrite Hf, Hcov. simpl_state.
    rewrite Hg. simpl_state. rewrite He. simpl_state. rewrite Hv.
    destruct (py_iter v) as [[| x [| y [| z [| w l]]]] |]; reflexivity.
  - intros Hcov ec v Hec Hv. run_script. simpl_state. rewrite Hf, Hcov. simpl_state.
    rewrite Hg. simpl_state. rewrite He. simpl_state. rewrite Hec. simpl_state.
    rewrite Hv.
    destruct (py_iter v) as [[| x [| y [| z [| w l]]]] |]; reflexivity.
  - intros Hcov Hec. run_script. simpl_state. rewrite Hf, Hcov. simpl_state.
    rewrite Hg. simpl_state. rewrite He. simpl_state. rewrite Hec. reflexivity.
Qed.

End ReadingBlocks.

Section OwnErrors.

Context {num : Type} `{Arith num}.

Ltac own := intros e Hq; first [discriminate Hq | injection Hq as <-; exact I].

Lemma own_error_inr {A : Type} (x : A) : own_error (inr x : res A).
Proof. own. Qed.

Lemma own_error_res_bind {A B : Type} (r : res A) (k : A -> res B) :
  own_error r -> (forall x, own_error (k x)) -> own_error (res_bind r k).
Proof.
  intros Hr Hk e. destruct r as [e' | x]; cbn.
  - intros Hq. injection Hq as ->. apply (Hr e). reflexivity.
  - apply Hk.
Qed.

Lemma own_error_py_float fs (v : value num) : own_error (py_float fs v).
Proof. destruct v; cbn; try own. destruct (fs s); own. Qed.

Lemma own_error_py_int zs (v : value num) : own_error (py_int zs v).
Proof.
  destruct v; cbn; try own.
  - destruct (trunc x); own.
  - destruct (zs s); own.
Qed.

Lemma own_error_as_array (v : value num) : own_error (as_array v).
Proof.
  unfold as_array.
  destruct (as_scalar v); [own |].
  destruct (as_row v); [own |].
  match goal with |- context [match ?r with Some _ => _ | None => _ end] =>
    destruct r as [m |]; [destruct (rect m) |] end; own.
Qed.

Lemma own_error_norm (v : value num) : own_error (np_linalg_norm_axis0 v).
Proof.
  apply own_error_res_bind; [apply own_error_as_array |].
  intros [x | r | m]; own.
Qed.

Lemma own_error_rows_slice lo hi (v : value num) : own_error (rows_slice lo hi v).
Proof. destruct v; own. Qed.

Lemma own_error_np_divide (x y : value num) : own_error (np_divide x y).
Proof.
  apply own_error_res_bind; [apply own_error_as_array | intros x'].
  apply own_error_res_bind; [apply own_error_as_array | intros y'].
  destruct (broadcast2 div (rows x') (rows y')); own.
Qed.

Lemma own_error_translation_of (v : value num) : own_error (translation_of v).
Proof.
  destruct v; try own. cbn.
  destruct (mapM _ _); own.
Qed.

Lemma own_error_rotation_of (v : value num) : own_error (rotation_of v).
Proof. destruct v; own. Qed.

Lemma own_error_np_matrix_transposed (l : list (value num)) :
  own_error (np_matrix_transposed l).
Proof.
  destruct l as [| v l]; [apply own_error_inr |].
  apply own_error_res_bind; [apply own_error_as_array |].
  intros [x | r | m]; own.
Qed.

End OwnErrors.

Section Uncaught.

Context {num : Type} `{Arith num}.
Variable W : World num.

Lemma sac_ret {A : Type} (x : A) : stops_at_call W (ret x : M num A).
Proof. intros st f st' Hq. discriminate. Qed.

Lemma sac_raise {A : Type} e :
  (forall f, e <> CalleeError f) -> stops_at_call W (raise e : M num A).
Proof. intros He st f st' Hq. injection Hq as -> _. destruct (He f). reflexivity. Qed.

Lemma sac_lift {A : Type} (r : res A) : own_error r -> stops_at_call W (lift r : M num A).
Proof. intros Hr st f st' Hq. injection Hq as -> _. destruct (Hr _ eq_refl). Qed.

Lemma sac_get n : stops_at_call W (get n : M num (value num)).
Proof. intros st f st'. unfold get. destruct (ns st !! n); discriminate. Qed.

Lemma sac_set n (v : value num) : stops_at_call W (set n v).
Proof. intros st f st' Hq. discriminate. Qed.

Lemma sac_emit (e : event num) : stops_at_call W (emit e).
Proof. intros st f st' Hq. discriminate. Qed.

Lemma sac_bind {A B : Type} (m : M num A) (k : A -> M num B) :
  stops_at_call W m -> (forall x, stops_at_call W (k x)) -> stops_at_call W (bind m k).
Proof.
  intros Hm Hk st f st' Hq. apply bind_inl in Hq as [Hq | (x & st1 & _ & Hq)].
  - exact (Hm st f st' Hq).
  - exact (Hk x st1 f st' Hq).
Qed.

Lemma sac_eval_args (es : list (M num (value num))) :
  Forall (stops_at_call W) es -> stops_at_call W (eval_args es).
Proof.
  induction 1 as [| e es He _ IH]; cbn [eval_args]; [apply sac_ret |].
  apply sac_bind; [exact He | intros v].
  apply sac_bind; [exact IH | intros vs; apply sac_ret].
Qed.

Lemma sac_eval_kwargs (kws : list (string * M num (value num))) :
  Forall (fun ke => stops_at_call W ke.2) kws -> stops_at_call W (eval_kwargs kws).
Proof.
  induction 1 as [| [k e] kws He _ IH]; cbn [eval_kwargs]; [apply sac_ret |].
  apply sac_bind; [exact He | intros v].
  apply sac_bind; [exact IH | intros vs; apply sac_ret].
Qed.

Lemma sac_call f es kws :
  Forall (stops_at_call W) es ->
  Forall (fun ke => stops_at_call W ke.2) kws ->
  stops_at_call W (call W f es kws).
Proof.
  intros Hes Hkws. unfold call.
  apply sac_bind; [apply sac_eval_args, Hes | intros vs].
  apply sac_bind; [apply sac_eval_kwargs, Hkws | intros kvs].
  intros st g st' Hq. unfold bind, emit, raise, ret in Hq.
  destruct (callee W f vs kvs) as [v |] eqn:Hc; [discriminate |].
  injection Hq as <- <-. exists vs, kvs. cbn [out].
  rewrite last_snoc. auto.
Qed.

Lemma sac_assign n (e : M num (value num)) :
  stops_at_call W e -> stops_at_call W (assign n e).
Proof. intros He. apply sac_bind; [exact He | intros v; apply sac_set]. Qed.

Lemma sac_set_all (nvs : list (string * value num)) : stops_at_call W (set_all nvs).
Proof. intros st f st' Hq. rewrite set_all_ns in Hq. discriminate. Qed.

Lemma sac_assign_tuple names (e : M num (value num)) :
  stops_at_call W e -> stops_at_call W (assign_tuple names e).
Proof.
  intros He. apply sac_bind; [exact He | intros v].
  destruct (py_iter v) as [items |]; [| apply sac_raise; discriminate].
  destruct (Nat.eqb _ _); [apply sac_set_all | apply sac_raise; discriminate].
Qed.

Lemma sac_for_each {A B : Type} (f : A -> M num B) (l : list A) :
  (forall x, stops_at_call W (f x)) -> stops_at_call W (for_each f l).
Proof.
  intros Hf. induction l as [| x l IH]; cbn [for_each]; [apply sac_ret |].
  apply sac_bind; [apply Hf | intros y].
  apply sac_bind; [exact IH | intros ys; apply sac_ret].
Qed.

End Uncaught.

Ltac uncaught :=
  repeat first
    [ apply sac_ret
    | apply sac_raise; discriminate
    | apply sac_lift;
      first [ apply own_error_py_float | apply own_error_py_int | apply own_error_norm
            | apply own_error_rows_slice | apply own_error_np_divide
            | apply own_error_translation_of | apply own_error_rotation_of
            | apply own_error_np_matrix_transposed ]
    | apply sac_get
    | apply sac_set
    | apply sac_emit
    | apply sac_assign
    | apply sac_assign_tuple
    | apply sac_call; [repeat constructor | repeat constructor]
    | apply sac_for_each; intros
    | apply sac_bind; [| intros]
    | match goal with
      | |- stops_at_call _ (if ?b then _ else _) => destruct b
      | |- stops_at_call _ (match ?x with _ => _ end) => destruct x
      | |- stops_at_call _ ?m => let h := head_of m in progress unfold h
      end
    | progress cbn [snd] ].

Section UncaughtRun.

Context {num : Type} `{Arith num}.
Variable W : World num.
Variable a : args.t num.

Lemma main_stops_at_call : stops_at_call W (main W a).
Proof. uncaught. Qed.

(** X15: the script catches no exception of the functions it calls: a run
    that ends with the exception of a callee made that call last, and the
    callee refused it. *)
Theorem library_exception_ends_run f :
  (run W a).1 = inl (CalleeError f) ->
  exists pos kws,
    last (out (run W a).2) = Some (ECall f pos kws) /\ callee W f pos kws = None.
Proof.
  intros Hrun. apply (main_stops_at_call initial f (run W a).2).
  unfold run in *. destruct (main W a initial) as [r st']. cbn [fst snd] in *.
  rewrite Hrun. reflexivity.
Qed.

End UncaughtRun.

Section PlotBlock.

Context {num : Type} `{Arith num}.
Variable W : World num.

Lemma insert_sorted_perm (x : num) (l : list num) : insert_sorted x l ≡ₚ x :: l.
Proof.
  induction l as [| y l IH]; cbn [insert_sorted]; [reflexivity |].
  destruct (leb x y); [reflexivity |].
  rewrite IH. apply Permutation_swap.
Qed.

Lemma py_sort_perm (l : list num) : py_sort l ≡ₚ l.
Proof.
  unfold py_sort. induction l as [| x l IH]; cbn [foldr]; [reflexivity |].
  rewrite insert_sorted_perm, IH. reflexivity.
Qed.

(** What [ordered_by_leb] decides. *)
Lemma ordered_by_leb_spec (l : list num) :
  ordered_by_leb l = true ->
  (forall u v, In u l -> In v l -> leb u v = true \/ leb v u = true)
  /\ (forall u v w, In u l -> In v l -> In w l ->
        leb u v = true -> leb v w = true -> leb u w = true).
Proof.
  unfold ordered_by_leb. intros Ho. apply andb_true_iff in Ho as [Ht Hr].
  rewrite forallb_forall in Ht. rewrite forallb_forall in Hr. split.
  - intros u v Hu Hv. specialize (Ht u Hu). rewrite forallb_forall in Ht.
    apply orb_true_iff, Ht, Hv.
  - intros u v w Hu Hv Hw Huv Hvw. specialize (Hr u Hu).
    rewrite forallb_forall in Hr. specialize (Hr v Hv).
    rewrite forallb_forall in Hr. specialize (Hr w Hw).
    rewrite Huv, Hvw in Hr. exact Hr.
Qed.

(** Where [<=] is total and transitive on the items, [list.sort()] leaves
    the list ascending. *)
Lemma insert_sorted_sorted (D : list num) (x : num) (l : list num) :
  (forall u v, In u D -> In v D -> leb u v = true \/ leb v u = true) ->
  (forall u v w, In u D -> In v D -> In w D ->
     leb u v = true -> leb v w = true -> leb u w = true) ->
  In x D -> Forall (fun y => In y D) l ->
  StronglySorted (fun u v => leb u v = true) l ->
  StronglySorted (fun u v => leb u v = true) (insert_sorted x l).
Proof.
  intros Htotal Htrans Hx HD Hl.
  induction Hl as [| y l Hl IH Hy]; cbn [insert_sorted].
  - repeat constructor.
  - apply Forall_cons in HD as [HyD HlD]. destruct (leb x y) eqn:Hxy.
    + constructor; [constructor; assumption |].
      constructor; [exact Hxy |].
      rewrite List.Forall_forall in Hy, HlD. apply List.Forall_forall.
      intros z Hz. exact (Htrans x y z Hx HyD (HlD z Hz) Hxy (Hy z Hz)).
    + constructor; [exact (IH HlD) |].
      rewrite insert_sorted_perm. constructor; [| exact Hy].
      destruct (Htotal x y Hx HyD) as [Hq | Hq]; [congruence | exact Hq].
Qed.

Lemma py_sort_sorted (l : list num) :
  ordered_by_leb l = true ->
  StronglySorted (fun u v => leb u v = true) (py_sort l).
Proof.
  intros Ho. destruct (ordered_by_leb_spec l Ho) as [Htotal Htrans].
  assert (Hsub : forall l', (forall y, In y l' -> In y l) ->
            StronglySorted (fun u v => leb u v = true) (py_sort l')).
  { unfold py_sort. induction l' as [| x l' IH]; intros Hin; cbn [foldr]; [constructor |].
    apply (insert_sorted_sorted l); try assumption.
    - apply Hin. left. reflexivity.
    - apply List.Forall_forall. intros y Hy. apply Hin. right.
      apply (Permutation_in y (py_sort_perm l')). exact Hy.
    - apply IH. intros y Hy. apply Hin. right. exact Hy. }
  apply Hsub. auto.
Qed.

Lemma mapM_as_float (xs : list num) : mapM as_float (map VFloat xs) = Some xs.
Proof.
  induction xs as [| x xs IH]; [reflexivity |].
  cbn. cbn in IH. rewrite IH. reflexivity.
Qed.

Lemma mapM_is_Some_omap {A B : Type} (f : A -> option B) (l : list A) :
  Forall (fun x => is_Some (f x)) l -> mapM f l = Some (omap f l).
Proof.
  induction 1 as [| x l [y Hy] _ IH]; [reflexivity |].
  cbn. cbn in IH. rewrite Hy. cbn. rewrite IH. reflexivity.
Qed.

Lemma shaped_rows (T : Matrix num) :
  pose_shaped T -> Forall (fun r : list num => is_Some (r !! 3)) (take 3 T).
Proof.
  intros [_ Hrows]. apply Forall_take.
  eapply Forall_impl; [exact Hrows |]. intros r Hr.
  apply lookup_lt_is_Some. rewrite Hr. lia.
Qed.

Lemma translation_shaped (T : Matrix num) :
  pose_shaped T -> translation_of (VArr T) = inr (VVec (xyz_of T)).
Proof.
  intros HT. unfold translation_of, xyz_of.
  rewrite (mapM_is_Some_omap (fun r : list num => r !! 3) _ (shaped_rows T HT)).
  reflexivity.
Qed.

Lemma length_omap_all {A B : Type} (f : A -> option B) (l : list A) :
  Forall (fun x => is_Some (f x)) l -> length (omap f l) = length l.
Proof.
  induction 1 as [| x l [y Hy] _ IH]; [reflexivity |].
  cbn [omap list_omap]. rewrite Hy. cbn [length]. rewrite IH. reflexivity.
Qed.

Lemma xyz_length (T : Matrix num) : pose_shaped T -> length (xyz_of T) = 3.
Proof.
  intros HT. unfold xyz_of.
  rewrite (length_omap_all (fun r : list num => r !! 3) _ (shaped_rows T HT)).
  destruct HT as [Hlen _]. rewrite length_take. lia.
Qed.

Lemma for_each_lift {A B : Type} (g : A -> res B) (l : list A) (ys : list B) st :
  Forall2 (fun x y => g x = inr y) l ys ->
  for_each (fun x => lift (g x) : M num B) l st = (inr ys, st).
Proof.
  induction 1 as [| x y l ys Hxy _ IH]; [reflexivity |].
  cbn [for_each]. unfold bind at 1. unfold lift at 1. rewrite Hxy.
  unfold bind at 1. rewrite IH. reflexivity.
Qed.

Lemma for_each_rpy (items : list (num * Matrix num)) st :
  (forall pos kws, exists r,
      callee W "utils.rotm_to_rpy" pos kws = Some (VVec r) /\ length r = 3) ->
  exists rs,
    for_each (fun kv : num * value num =>
                call W "utils.rotm_to_rpy" [lift (rotation_of kv.2)] [])
      (map (fun p : num * Matrix num => (p.1, VArr p.2)) items) st
    = (inr (map VVec rs),
       State (ns st) (out st ++ map (fun p : num * Matrix num => rpy_event p.2) items))
    /\ Forall (fun r => length r = 3) rs /\ length rs = length items.
Proof.
  intros Hrpy. revert st. induction items as [| p items IH]; intros st.
  - exists []. cbn. rewrite app_nil_r. destruct st. auto.
  - destruct (Hrpy [VArr (map (take 3) (take 3 p.2))] []) as (r & Hr & Hlen).
    destruct (IH (State (ns st) (out st ++ [rpy_event p.2]))) as (rs & Hrun & Hall & Hn).
    exists (r :: rs). split; [| split; [constructor; assumption | cbn; lia]].
    cbn [map for_each fst snd]. unfold bind at 1.
    rewrite (call_run W "utils.rotm_to_rpy" _ _ _ [VArr (map (take 3) (take 3 p.2))] []);
      [| reflexivity | reflexivity].
    rewrite Hr. unfold bind at 1. unfold rpy_event in Hrun at 1. rewrite Hrun.
    cbn [ns out]. unfold ret. rewrite <- app_assoc. reflexivity.
Qed.

Lemma as_row_vecs (ts : list (list num)) : mapM as_row (map (@VVec num) ts) = Some ts.
Proof.
  induction ts as [| t ts IH]; [reflexivity |].
  cbn. cbn in IH. rewrite IH. reflexivity.
Qed.

Lemma np_matrix_transposed_vecs (ts : list (list num)) n :
  ts <> [] -> Forall (fun r => length r = n) ts ->
  np_matrix_transposed (map VVec ts) = inr (VArr (transpose_rows n ts)).
Proof.
  intros Hne Hall. destruct ts as [| t ts]; [congruence |].
  pose proof (as_row_vecs (t :: ts)) as Hrows.
  unfold np_matrix_transposed. cbn [map] in *. unfold as_array.
  cbn [as_scalar as_row].
  replace (mapM as_scalar (VVec t :: map VVec ts)) with (@None (list num)) by reflexivity.
  rewrite Hrows. rewrite (rect_same_length (t :: ts) n Hall).
  cbn [res_bind ncols]. inversion Hall; subst. reflexivity.
Qed.

Lemma transpose_rows_lookup (n i : nat) (m : Matrix num) :
  i < n -> transpose_rows n m !! i = Some (omap (fun r : list num => r !! i) m).
Proof.
  revert i m. induction n as [| n IH]; intros i m Hi; [lia |].
  cbn [transpose_rows]. destruct i as [| i].
  - cbn. f_equal. induction m as [| r m IHm]; [reflexivity |].
    cbn [omap list_omap]. rewrite IHm. destruct r; reflexivity.
  - cbn [lookup list_lookup]. rewrite IH by lia. f_equal.
    induction m as [| r m IHm]; [reflexivity |].
    cbn [map omap list_omap]. rewrite IHm. destruct r; reflexivity.
Qed.

Lemma omap_lookup_all {A B : Type} (f : A -> option B) (l : list A) j x y :
  Forall (fun x => is_Some (f x)) l ->
  l !! j = Some x -> f x = Some y -> omap f l !! j = Some y.
Proof.
  intros Hall. revert j. induction Hall as [| z l [w Hw] _ IH]; intros j Hj Hy.
  - discriminate.
  - cbn [omap list_omap]. rewrite Hw. destruct j as [| j].
    + injection Hj as ->. rewrite Hy in Hw. injection Hw as ->. reflexivity.
    + cbn. apply IH; assumption.
Qed.

(** Column [j] of the positions is the position of the [j]-th pose given. *)
Lemma positions_entry (poses : list (Matrix num)) i j T x :
  Forall pose_shaped poses ->
  poses !! j = Some T -> i < 3 -> entry T i 3 = Some x ->
  entry (positions poses) i j = Some x.
Proof.
  intros Hall Hj Hi Hx. unfold positions.
  destruct poses as [| T0 poses']; [discriminate |].
  set (poses := T0 :: poses') in *.
  unfold entry at 1. rewrite (transpose_rows_lookup 3 i _ Hi). cbn [mbind option_bind].
  assert (Hxyz : xyz_of T !! i = Some x).
  { assert (HT : pose_shaped T).
    { rewrite Forall_lookup in Hall. exact (Hall j T Hj). }
    unfold entry in Hx. destruct (T !! i) as [r |] eqn:Hr; [| discriminate].
    cbn in Hx. unfold xyz_of.
    apply (omap_lookup_all _ _ i r x (shaped_rows T HT)); [| exact Hx].
    rewrite lookup_take_lt by exact Hi. exact Hr. }
  apply (omap_lookup_all _ _ j (xyz_of T) x).
  - apply Forall_map. eapply Forall_impl; [exact Hall |]. intros T' HT'. cbn.
    apply lookup_lt_is_Some. rewrite (xyz_length T' HT'). exact Hi.
  - rewrite list_lookup_fmap, Hj. reflexivity.
  - exact Hxyz.
Qed.

End PlotBlock.

Section PlotRun.

Context {num : Type} `{Arith num}.
Variable W : World num.

Lemma bind_run {A B : Type} (m : M num A) (k : A -> M num B) st x st1 :
  m st = (inr x, st1) -> bind m k st = k x st1.
Proof. intros Hm. unfold bind. rewrite Hm. reflexivity. Qed.

Lemma assign_name n m st (v : value num) :
  ns st !! m = Some v ->
  assign n (get m) st = (inr tt, State (<[n := v]> (ns st)) (out st)).
Proof. intros Hm. unfold assign, get, set, bind. rewrite Hm. reflexivity. Qed.

Lemma stamps_of_dict (items : list (num * Matrix num)) :
  map (fun kv : num * value num => VFloat kv.1)
    (map (fun p : num * Matrix num => (p.1, VArr p.2)) items)
  = map VFloat (map fst items).
Proof. rewrite !map_map. reflexivity. Qed.

Lemma assign_keys n m st (items : list (num * Matrix num)) :
  ns st !! m = Some (pose_dict items) ->
  assign n (keys_list (get m)) st
  = (inr tt, State (<[n := VList (map VFloat (map fst items))]> (ns st)) (out st)).
Proof.
  intros Hm. unfold assign, keys_list, get, set, bind, ret. rewrite Hm.
  unfold pose_dict. rewrite stamps_of_dict. reflexivity.
Qed.

Lemma sort_stamps n st (ks : list num) :
  ns st !! n = Some (VList (map VFloat ks)) ->
  sort_in_place n st
  = (inr tt, State (<[n := VList (map VFloat (py_sort ks))]> (ns st)) (out st)).
Proof.
  intros Hn. unfold sort_in_place, get, set, bind. rewrite Hn.
  rewrite mapM_as_float. reflexivity.
Qed.

Lemma positions_run (poses : list (Matrix num)) :
  Forall pose_shaped poses ->
  np_matrix_transposed (map VVec (map xyz_of poses)) = inr (VArr (positions poses)).
Proof.
  intros Hall. destruct poses as [| T poses]; [reflexivity |].
  unfold positions. apply np_matrix_transposed_vecs; [discriminate |].
  apply Forall_map. eapply Forall_impl; [exact Hall |].
  intros T' HT'. apply xyz_length, HT'.
Qed.

Lemma assign_positions n m st (items : list (num * Matrix num)) :
  ns st !! m = Some (pose_dict items) ->
  Forall (fun p : num * Matrix num => pose_shaped p.2) items ->
  assign n (matrix_over (get m) (fun T => lift (translation_of T))) st
  = (inr tt, State (<[n := VArr (positions (map snd items))]> (ns st)) (out st)).
Proof.
  intros Hm Hall. unfold assign, matrix_over. unfold bind at 1 2. unfold get at 1.
  rewrite Hm. unfold pose_dict.
  erewrite bind_run;
    [| apply (for_each_lift (fun kv : num * value num => translation_of kv.2) _
                (map VVec (map xyz_of (map snd items))))].
  - unfold lift. rewrite positions_run; [reflexivity |].
    apply Forall_map. exact Hall.
  - clear Hm. induction Hall as [| p items Hp _ IH]; [constructor |].
    cbn [map]. constructor; [| exact IH]. cbn [snd]. apply translation_shaped, Hp.
Qed.

Lemma angles_run (rs : list (list num)) :
  Forall (fun r => length r = 3) rs ->
  exists m, np_matrix_transposed (map VVec rs) = inr (VArr m).
Proof.
  intros Hall. destruct rs as [| r rs]; [exists []; reflexivity |].
  eexists. apply (np_matrix_transposed_vecs _ 3); [discriminate | exact Hall].
Qed.

Lemma assign_angles n m st (items : list (num * Matrix num)) :
  ns st !! m = Some (pose_dict items) ->
  (forall pos kws, exists r,
      callee W "utils.rotm_to_rpy" pos kws = Some (VVec r) /\ length r = 3) ->
  exists v,
    assign n (matrix_over (get m)
                (fun T => call W "utils.rotm_to_rpy" [lift (rotation_of T)] [])) st
    = (inr tt,
       State (<[n := v]> (ns st))
         (out st ++ map (fun p : num * Matrix num => rpy_event p.2) items)).
Proof.
  intros Hm Hrpy. destruct (for_each_rpy W items st Hrpy) as (rs & Hrun & Hall & _).
  destruct (angles_run rs Hall) as [mx Hmx]. exists (VArr mx).
  unfold assign, matrix_over. unfold bind at 1 2. unfold get at 1. rewrite Hm.
  unfold pose_dict. erewrite bind_run; [| exact Hrun].
  unfold lift. rewrite Hmx. reflexivity.
Qed.

(** X14: the plot block on two dictionaries of 4x4 poses.  It calls
    [utils.rotm_to_rpy] on the rotation block of every pose of the ground
    truth and then of the estimate (the angles are bound and not plotted),
    and then [plot_2d_traj_xyz] once.  With timestamps that [<=] orders
    (totally and transitively: no NaN among them), the timestamps it passes
    are the keys sorted, a permutation of them in ascending order, but the
    positions are not reordered: column [j] of [gt_xyz] and of [est_xyz] is
    the translation of the [j]-th pose in the order of the dictionary. *)
Theorem plot_stamps_sorted_positions_in_dict_order st (pg pe : list (num * Matrix num)) :
  ns st !! "gt_poses_align" = Some (pose_dict pg) ->
  ns st !! "est_poses_align" = Some (pose_dict pe) ->
  Forall (fun p : num * Matrix num => pose_shaped p.2) pg ->
  Forall (fun p : num * Matrix num => pose_shaped p.2) pe ->
  ordered_by_leb (map fst pg) = true ->
  ordered_by_leb (map fst pe) = true ->
  (forall pos kws, exists r,
      callee W "utils.rotm_to_rpy" pos kws = Some (VVec r) /\ length r = 3) ->
  (forall pos kws, is_Some (callee W "plot_utils.plot_2d_traj_xyz" pos kws)) ->
  exists st',
    plot W st = (inr tt, st')
    /\ out st'
       = out st
         ++ map (fun p : num * Matrix num => rpy_event p.2) pg
         ++ map (fun p : num * Matrix num => rpy_event p.2) pe
         ++ [ECall "plot_utils.plot_2d_traj_xyz"
               [sorted_stamps pg; VArr (positions (map snd pg));
                sorted_stamps pe; VArr (positions (map snd pe))]
               [("save_fig", VBool true)]]
    /\ py_sort (map fst pg) ≡ₚ map fst pg
    /\ py_sort (map fst pe) ≡ₚ map fst pe
    /\ StronglySorted (fun u v => leb u v = true) (py_sort (map fst pg))
    /\ StronglySorted (fun u v => leb u v = true) (py_sort (map fst pe))
    /\ (forall i j p x,
          pg !! j = Some p -> i < 3 -> entry p.2 i 3 = Some x ->
          entry (positions (map snd pg)) i j = Some x)
    /\ (forall i j p x,
          pe !! j = Some p -> i < 3 -> entry p.2 i 3 = Some x ->
          entry (positions (map snd pe)) i j = Some x).
Proof.
  intros Hg He Hpg Hpe Hog Hoe Hrpy Hplot.
  assert (Hentries : forall (items : list (num * Matrix num)),
             Forall (fun p : num * Matrix num => pose_shaped p.2) items ->
             forall i j p x,
               items !! j = Some p -> i < 3 -> entry p.2 i 3 = Some x ->
               entry (positions (map snd items)) i j = Some x).
  { intros items Hall i j p x Hj Hi Hx.
    apply (positions_entry (map snd items) i j p.2 x); [| | exact Hi | exact Hx].
    - apply Forall_map. exact Hall.
    - rewrite list_lookup_fmap. rewrite Hj. reflexivity. }
  unfold plot.
  erewrite bind_run; [| apply assign_name; exact Hg].
  erewrite bind_run; [| apply assign_name; simpl_state; exact He].
  erewrite bind_run; [| apply assign_keys; simpl_state; reflexivity].
  erewrite bind_run; [| apply sort_stamps; simpl_state; reflexivity].
  erewrite bind_run; [| apply assign_keys; simpl_state; reflexivity].
  erewrite bind_run; [| apply sort_stamps; simpl_state; reflexivity].
  erewrite bind_run;
    [| apply (assign_positions _ _ _ pg); [simpl_state; reflexivity | exact Hpg]].
  erewrite bind_run;
    [| apply (assign_positions _ _ _ pe); [simpl_state; reflexivity | exact Hpe]].
  match goal with |- context [bind (assign "gt_angles" _) _ ?s] =>
    destruct (assign_angles "gt_angles" "gt_data" s pg) as [va Hva];
      [simpl_state; reflexivity | exact Hrpy |]
  end.
  erewrite bind_run; [| exact Hva].
  match goal with |- context [bind (assign "est_angles" _) _ ?s] =>
    destruct (assign_angles "est_angles" "est_data" s pe) as [vb Hvb];
      [simpl_state; reflexivity | exact Hrpy |]
  end.
  erewrite bind_run; [| exact Hvb].
  unfold bind.
  rewrite (call_run W "plot_utils.plot_2d_traj_xyz" _ _ _
             [sorted_stamps pg; VArr (positions (map snd pg));
              sorted_stamps pe; VArr (positions (map snd pe))]
             [("save_fig", VBool true)]);
    [| unfold eval_args, get, bind, ret; simpl_state; reflexivity | reflexivity].
  match goal with |- context [callee W "plot_utils.plot_2d_traj_xyz" ?p ?k] =>
    destruct (Hplot p k) as [v ->]
  end.
  eexists. split; [reflexivity |]. cbn [ns out].
  split; [rewrite <- !app_assoc; reflexivity |].
  split; [apply py_sort_perm |]. split; [apply py_sort_perm |].
  split; [apply py_sort_sorted, Hog |]. split; [apply py_sort_sorted, Hoe |].
  split; [apply Hentries, Hpg | apply Hentries, Hpe].
Qed.

End PlotRun.

Section KnownAlignment.

Context {num : Type} `{Arith num}.
Variable W : World num.
Variable a : args.t num.

Lemma unpack_three_binds n1 n2 n3 f es kws st st' :
  n1 <> n2 -> n1 <> n3 -> n2 <> n3 ->
  Forall (fun e => steps e [] []) es ->
  Forall (fun ke : string * M num (value num) => steps ke.2 [] []) kws ->
  assign_tuple [n1; n2; n3] (call W f es kws) st = (inr tt, st') ->
  exists vs kvs v x y z,
    callee W f vs kvs = Some v /\ py_iter v = Some [x; y; z]
    /\ ns st' !! n1 = Some x /\ ns st' !! n2 = Some y /\ ns st' !! n3 = Some z
    /\ out st' = out st ++ [ECall f vs kvs].
Proof.
  intros H12 H13 H23 Hes Hkws Hrun.
  apply assign_tuple_call_inr in Hrun
    as (vs & kvs & v & items & _ & _ & Hv & Hit & Hlen & ->); [| assumption ..].
  destruct items as [| x [| y [| z [| w items]]]]; try discriminate Hlen.
  exists vs, kvs, v, x, y, z. cbn [zip zip_with foldl fst snd ns out].
  split; [exact Hv |]. split; [exact Hit |].
  rewrite lookup_insert_ne by congruence. rewrite lookup_insert_ne by congruence.
  rewrite lookup_insert_eq. rewrite lookup_insert_ne by congruence.
  rewrite !lookup_insert_eq. auto.
Qed.

Lemma unpack_two_binds n1 n2 f es kws st st' :
  n1 <> n2 ->
  Forall (fun e => steps e [] []) es ->
  Forall (fun ke : string * M num (value num) => steps ke.2 [] []) kws ->
  assign_tuple [n1; n2] (call W f es kws) st = (inr tt, st') ->
  exists vs kvs v x y,
    callee W f vs kvs = Some v /\ py_iter v = Some [x; y]
    /\ ns st' !! n1 = Some x /\ ns st' !! n2 = Some y
    /\ out st' = out st ++ [ECall f vs kvs].
Proof.
  intros H12 Hes Hkws Hrun.
  apply assign_tuple_call_inr in Hrun
    as (vs & kvs & v & items & _ & _ & Hv & Hit & Hlen & ->); [| assumption ..].
  destruct items as [| x [| y [| w items]]]; try discriminate Hlen.
  exists vs, kvs, v, x, y. cbn [zip zip_with foldl fst snd ns out].
  split; [exact Hv |]. split; [exact Hit |].
  rewrite lookup_insert_ne by congruence. rewrite !lookup_insert_eq. auto.
Qed.

(** X8: when [--alignment] is 'manifold', 'horn' or 'first' and the
    alignment returns, exactly one aligner was called, the one of the mode,
    and [gt_poses_align] and [est_poses_align] are bound to the first two
    items of its result; the result has a third item (the transformation)
    for 'manifold' and 'horn' and none for 'first'. *)
Theorem known_alignment_binds_both st st' :
  args.alignment a = "manifold" \/ args.alignment a = "horn"
  \/ args.alignment a = "first" ->
  align W a st = (inr tt, st') ->
  exists f pos kws v x y rest,
    In (args.alignment a, f, length rest)
      [("manifold", "utils.align_trajectories_manifold", 1);
       ("horn", "utils.align_trajectories_horn", 1);
       ("first", "utils.align_trajectories_to_first", 0)]
    /\ out st' = out st ++ [ECall f pos kws]
    /\ callee W f pos kws = Some v
    /\ py_iter v = Some (x :: y :: rest)
    /\ ns st' !! "gt_poses_align" = Some x
    /\ ns st' !! "est_poses_align" = Some y.
Proof.
  intros Hmode Hrun. unfold align in Hrun.
  destruct Hmode as [Hm | [Hm | Hm]]; rewrite Hm in *.
  - rewrite bool_decide_eq_true_2 in Hrun by reflexivity.
    apply bind_inr in Hrun as (cov & st1 & Hcov & Hrun).
    apply is_tum_cov_inr in Hcov as (-> & _).
    destruct cov;
      apply unpack_three_binds in Hrun
        as (vs & kvs & v & x & y & z & Hv & Hit & Hx & Hy & _ & Hout);
      try discriminate; try (pure_args; fail);
      exists "utils.align_trajectories_manifold", vs, kvs, v, x, y, [z];
      cbn [In length]; auto 10.
  - rewrite bool_decide_eq_false_2 in Hrun by discriminate.
    rewrite bool_decide_eq_true_2 in Hrun by reflexivity.
    apply unpack_three_binds in Hrun
      as (vs & kvs & v & x & y & z & Hv & Hit & Hx & Hy & _ & Hout);
      try discriminate; try (pure_args; fail).
    exists "utils.align_trajectories_horn", vs, kvs, v, x, y, [z].
    cbn [In length]. auto 10.
  - rewrite bool_decide_eq_false_2 in Hrun by discriminate.
    rewrite bool_decide_eq_false_2 in Hrun by discriminate.
    rewrite bool_decide_eq_true_2 in Hrun by reflexivity.
    apply unpack_two_binds in Hrun
      as (vs & kvs & v & x & y & Hv & Hit & Hx & Hy & Hout);
      try discriminate; try (pure_args; fail).
    exists "utils.align_trajectories_to_first", vs, kvs, v, x, y, [].
    cbn [In length]. auto 10.
Qed.

End KnownAlignment.

(** ** Names read before they are bound *)

Section SafeRules.

Context {num : Type} `{Arith num}.
Variable W : World num.

Lemma safe_ret {A : Type} inv B (x : A) : safe inv B (ret x : M num A).
Proof. intros st HB Hinv. split; [intros n; discriminate | auto]. Qed.

Lemma safe_raise {A : Type} inv B e :
  (forall n, e <> NameError n) -> safe inv B (raise e : M num A).
Proof.
  intros He st HB Hinv. split; [| auto].
  intros n Hq. injection Hq as ->. exact (He n eq_refl).
Qed.

Lemma safe_lift {A : Type} inv B (r : res A) : own_error r -> safe inv B (lift r : M num A).
Proof.
  intros Hr st HB Hinv. split; [| auto].
  intros n Hq. cbn in Hq. exact (Hr _ Hq).
Qed.

Lemma safe_get inv B n : mem n B = true -> safe inv B (get n : M num (value num)).
Proof.
  intros Hn st HB Hinv. unfold get. destruct (HB n Hn) as [v ->].
  split; [intros m; discriminate | auto].
Qed.

Lemma safe_set inv B n (v : value num) :
  inv = None \/ n <> "gt_format" -> safe inv B (set n v).
Proof.
  intros Hn st HB Hinv. unfold set. cbn [fst snd ns].
  split; [intros m; discriminate |]. split.
  - intros m Hm. destruct (decide (n = m)) as [<- | Hne].
    + rewrite lookup_insert_eq. eauto.
    + rewrite lookup_insert_ne by exact Hne. exact Hm.
  - intros f Hf. destruct Hn as [Hn | Hn]; [congruence |].
    rewrite lookup_insert_ne by exact Hn. apply Hinv, Hf.
Qed.

Lemma safe_emit inv B (e : event num) : safe inv B (emit e).
Proof. intros st HB Hinv. split; [intros n; discriminate | auto]. Qed.

Lemma has_kept B (st st' : state num) :
  has B st -> (forall n, is_Some (ns st !! n) -> is_Some (ns st' !! n)) -> has B st'.
Proof. intros HB Hm n Hn. apply Hm, HB, Hn. Qed.

Lemma safe_bind {A C : Type} inv B (m : M num A) (k : A -> M num C) :
  safe inv B m -> (forall x, safe inv B (k x)) -> safe inv B (bind m k).
Proof.
  intros Hm Hk st HB Hinv. destruct (Hm st HB Hinv) as (Hne & Hmono & Hfmt).
  unfold bind. destruct (m st) as [[e | x] st1]; cbn [fst snd] in *.
  - split; [| auto]. intros n Hq. injection Hq as ->. exact (Hne n eq_refl).
  - destruct (Hk x st1 (has_kept B st st1 HB Hmono) Hfmt) as (Hne' & Hmono' & Hfmt').
    split; [exact Hne' |]. split; [| exact Hfmt'].
    intros n Hn. apply Hmono', Hmono, Hn.
Qed.

(** A continuation may rely on the names its predecessor has bound. *)
Lemma safe_bind_bound {A C : Type} inv B B' (m : M num A) (k : A -> M num C) :
  safe inv B m ->
  (forall st x st', m st = (inr x, st') -> forall n, mem n B' = true ->
     mem n B = true \/ is_Some (ns st' !! n)) ->
  (forall x, safe inv B' (k x)) -> safe inv B (bind m k).
Proof.
  intros Hm Hpost Hk st HB Hinv. destruct (Hm st HB Hinv) as (Hne & Hmono & Hfmt).
  unfold bind. destruct (m st) as [[e | x] st1] eqn:Hrun; cbn [fst snd] in *.
  - split; [| auto]. intros n Hq. injection Hq as ->. exact (Hne n eq_refl).
  - assert (HB' : has B' st1).
    { intros n Hn. destruct (Hpost st x st1 Hrun n Hn) as [Hin | Hb]; [| exact Hb].
      apply Hmono, HB, Hin. }
    destruct (Hk x st1 HB' Hfmt) as (Hne' & Hmono' & Hfmt').
    split; [exact Hne' |]. split; [| exact Hfmt'].
    intros n Hn. apply Hmono', Hmono, Hn.
Qed.

Lemma safe_assign inv B n (e : M num (value num)) :
  inv = None \/ n <> "gt_format" -> safe inv B e -> safe inv B (assign n e).
Proof. intros Hn He. apply safe_bind; [exact He | intros v; apply safe_set, Hn]. Qed.

Lemma safe_set_all inv B (nvs : list (string * value num)) :
  inv = None \/ mem "gt_format" (map fst nvs) = false -> safe inv B (set_all nvs).
Proof.
  intros Hn. induction nvs as [| [n v] nvs IH]; cbn [set_all]; [apply safe_ret |].
  assert (Hsplit : inv = None
                   \/ ("gt_format" <> n /\ mem "gt_format" (map fst nvs) = false)).
  { destruct Hn as [Hn | Hn]; [left; exact Hn | right].
    unfold mem in *. cbn [map fst existsb] in Hn.
    apply orb_false_elim in Hn as [Hn1 Hn2]. apply String.eqb_neq in Hn1. auto. }
  apply safe_bind; [| intros _; apply IH].
  - apply safe_set. destruct Hsplit as [Hi | [Hne _]]; [left; exact Hi | right; congruence].
  - destruct Hsplit as [Hi | [_ Hrest]]; [left; exact Hi | right; exact Hrest].
Qed.

Lemma mem_fst_zip (names : list string) (items : list (value num)) n :
  mem n (map fst (zip names items)) = true -> mem n names = true.
Proof.
  unfold mem. revert items.
  induction names as [| m names IH]; intros [| x items] Hn;
    cbn [zip zip_with map fst existsb] in *; try discriminate.
  apply orb_true_iff in Hn as [Hn | Hn]; [rewrite Hn; reflexivity |].
  rewrite (IH items Hn). apply orb_true_r.
Qed.

Lemma safe_assign_tuple inv B names (e : M num (value num)) :
  inv = None \/ mem "gt_format" names = false ->
  safe inv B e -> safe inv B (assign_tuple names e).
Proof.
  intros Hn He. apply safe_bind; [exact He | intros v].
  destruct (py_iter v) as [items |]; [| apply safe_raise; discriminate].
  destruct (Nat.eqb _ _); [| apply safe_raise; discriminate].
  apply safe_set_all. destruct Hn as [Hn | Hn]; [left; exact Hn | right].
  destruct (mem "gt_format" (map fst (zip names items))) eqn:Hz; [| reflexivity].
  apply mem_fst_zip in Hz. congruence.
Qed.

Lemma safe_bind_assign {C : Type} inv B n (e : M num (value num)) (k : unit -> M num C) :
  inv = None \/ n <> "gt_format" ->
  safe inv B e -> (forall x, safe inv (n :: B) (k x)) -> safe inv B (bind (assign n e) k).
Proof.
  intros Hn He Hk. apply (safe_bind_bound inv B (n :: B)); [apply safe_assign; assumption | | exact Hk].
  intros st [] st' Hrun m Hm. unfold assign in Hrun.
  apply bind_inr in Hrun as (v & st1 & _ & Hset). unfold set in Hset.
  injection Hset as <-. cbn [ns]. unfold mem in *. cbn [existsb] in Hm.
  destruct (String.eqb m n) eqn:Heq.
  - apply String.eqb_eq in Heq as ->. right. rewrite lookup_insert_eq. eauto.
  - left. exact Hm.
Qed.

Lemma foldl_insert_kept (nvs : list (string * value num)) (m0 : gmap string (value num)) n :
  is_Some (m0 !! n) -> is_Some (foldl (fun m nv => <[nv.1 := nv.2]> m) m0 nvs !! n).
Proof.
  revert m0. induction nvs as [| [k v] nvs IH]; intros m0 Hn; [exact Hn |].
  cbn [foldl fst snd]. apply IH. destruct (decide (k = n)) as [-> | Hne].
  - rewrite lookup_insert_eq. eauto.
  - rewrite lookup_insert_ne by exact Hne. exact Hn.
Qed.

Lemma foldl_insert_bound (nvs : list (string * value num)) (m0 : gmap string (value num)) n :
  mem n (map fst nvs) = true ->
  is_Some (foldl (fun m nv => <[nv.1 := nv.2]> m) m0 nvs !! n).
Proof.
  unfold mem. revert m0. induction nvs as [| [k v] nvs IH]; intros m0 Hn;
    cbn [map fst existsb] in Hn; [discriminate |].
  cbn [foldl fst snd]. apply orb_true_iff in Hn as [Hn | Hn].
  - apply String.eqb_eq in Hn as ->. apply foldl_insert_kept.
    rewrite lookup_insert_eq. eauto.
  - apply IH, Hn.
Qed.

Lemma mem_zip_all (names : list string) (items : list (value num)) n :
  length items = length names -> mem n names = true ->
  mem n (map fst (zip names items)) = true.
Proof.
  unfold mem. revert items.
  induction names as [| m names IH]; intros [| x items] Hlen Hn;
    cbn [zip zip_with map fst existsb length] in *; try discriminate.
  apply orb_true_iff in Hn as [Hn | Hn]; [rewrite Hn; reflexivity |].
  rewrite (IH items); [apply orb_true_r | lia | exact Hn].
Qed.

Lemma mem_app n l1 l2 : mem n (l1 ++ l2) = mem n l1 || mem n l2.
Proof. unfold mem. apply existsb_app. Qed.

Lemma safe_bind_assign_tuple {C : Type} inv B names (e : M num (value num))
    (k : unit -> M num C) :
  inv = None \/ mem "gt_format" names = false ->
  safe inv B e -> (forall x, safe inv (names ++ B) (k x)) ->
  safe inv B (bind (assign_tuple names e) k).
Proof.
  intros Hn He Hk.
  apply (safe_bind_bound inv B (names ++ B));
    [apply safe_assign_tuple; assumption | | exact Hk].
  intros st [] st' Hrun m Hm. unfold assign_tuple in Hrun.
  apply bind_inr in Hrun as (v & st1 & _ & Hset).
  destruct (py_iter v) as [items |]; [| discriminate].
  destruct (Nat.eqb (length items) (length names)) eqn:Hlen; [| discriminate].
  apply Nat.eqb_eq in Hlen. rewrite set_all_ns in Hset. injection Hset as <-.
  cbn [ns]. rewrite mem_app in Hm. apply orb_true_iff in Hm as [Hm | Hm].
  - right. apply foldl_insert_bound. apply mem_zip_all; assumption.
  - left. exact Hm.
Qed.

Lemma safe_cov {C : Type} f c B (k : bool -> M num C) :
  py_eq_str f "tum_cov" = c ->
  safe (Some f) B (k c) -> safe (Some f) B (bind is_tum_cov k).
Proof.
  intros Hc Hk st HB Hinv.
  assert (Hrun : bind is_tum_cov k st = k c st).
  { unfold is_tum_cov, bind, get, ret. rewrite (Hinv f eq_refl), Hc. reflexivity. }
  rewrite Hrun. apply Hk; assumption.
Qed.

Lemma safe_eval_args inv B (es : list (M num (value num))) :
  Forall (safe inv B) es -> safe inv B (eval_args es).
Proof.
  induction 1 as [| e es He _ IH]; cbn [eval_args]; [apply safe_ret |].
  apply safe_bind; [exact He | intros v].
  apply safe_bind; [exact IH | intros vs; apply safe_ret].
Qed.

Lemma safe_eval_kwargs inv B (kws : list (string * M num (value num))) :
  Forall (fun ke => safe inv B ke.2) kws -> safe inv B (eval_kwargs kws).
Proof.
  induction 1 as [| [k e] kws He _ IH]; cbn [eval_kwargs]; [apply safe_ret |].
  apply safe_bind; [exact He | intros v].
  apply safe_bind; [exact IH | intros vs; apply safe_ret].
Qed.

Lemma safe_call inv B f es kws :
  Forall (safe inv B) es ->
  Forall (fun ke => safe inv B ke.2) kws ->
  safe inv B (call W f es kws).
Proof.
  intros Hes Hkws. unfold call.
  apply safe_bind; [apply safe_eval_args, Hes | intros vs].
  apply safe_bind; [apply safe_eval_kwargs, Hkws | intros kvs].
  apply safe_bind; [apply safe_emit | intros _].
  destruct (callee W f vs kvs); [apply safe_ret | apply safe_raise; discriminate].
Qed.

Lemma safe_for_each {A C : Type} inv B (f : A -> M num C) (l : list A) :
  (forall x, safe inv B (f x)) -> safe inv B (for_each f l).
Proof.
  intros Hf. induction l as [| x l IH]; cbn [for_each]; [apply safe_ret |].
  apply safe_bind; [apply Hf | intros y].
  apply safe_bind; [exact IH | intros ys; apply safe_ret].
Qed.

Lemma safe_ext {A : Type} inv B (m m' : M num A) :
  (forall st, m st = m' st) -> safe inv B m' -> safe inv B m.
Proof. intros Heq Hm st HB Hinv. rewrite Heq. apply Hm; assumption. Qed.

Lemma safe_bind_assoc {A C D : Type} inv B (m : M num A) (k : A -> M num C)
    (k' : C -> M num D) :
  safe inv B (bind m (fun x => bind (k x) k')) -> safe inv B (bind (bind m k) k').
Proof. apply safe_ext. intros st. apply bind_assoc. Qed.

End SafeRules.

Ltac is_statement h :=
  lazymatch h with
  | @call => idtac | @get => idtac | @lift => idtac | @emit => idtac
  | @ret => idtac | @raise => idtac | @set => idtac | @for_each => idtac
  end.

Ltac all_args :=
  repeat lazymatch goal with
         | |- Forall _ [] => apply List.Forall_nil
         | |- Forall _ (_ :: _) => apply List.Forall_cons
         | |- Forall _ ?l => let h := head_of l in unfold h
         end.

Ltac keeps_format := first [left; reflexivity | right; discriminate | right; reflexivity].

(** Reads are checked against the names bound so far, following the syntax
    of a block; a name bound by an assignment is available after it. *)
Ltac safely_step :=
  lazymatch goal with
  | |- safe _ _ (snd (_, _)) => cbn [snd]
  | |- safe _ _ (snd ?p) => let h := head_of p in unfold h
  | |- safe _ _ (ret _) => apply safe_ret
  | |- safe _ _ (raise _) => apply safe_raise; discriminate
  | |- safe _ _ (lift _) =>
      apply safe_lift;
      first [ apply own_error_py_float | apply own_error_py_int | apply own_error_norm
            | apply own_error_rows_slice | apply own_error_np_divide
            | apply own_error_translation_of | apply own_error_rotation_of
            | apply own_error_np_matrix_transposed ]
  | |- safe _ _ (get _) => apply safe_get; reflexivity
  | |- safe _ _ (set _ _) => apply safe_set; keeps_format
  | |- safe _ _ (emit _) => apply safe_emit
  | |- safe _ _ (call _ _ _ _) => apply safe_call; [all_args | all_args]
  | |- safe _ _ (for_each _ _) => apply safe_for_each; intros
  | |- safe _ _ (bind (bind _ _) _) => apply safe_bind_assoc
  | |- safe _ _ (bind (assign _ _) _) =>
      apply safe_bind_assign; [keeps_format | | intros]
  | |- safe _ _ (bind (assign_tuple _ _) _) =>
      apply safe_bind_assign_tuple; [keeps_format | | intros]
  | |- safe (Some ?f) _ (bind is_tum_cov _) =>
      lazymatch goal with
      | Hc : py_eq_str f "tum_cov" = _ |- _ => apply (safe_cov _ _ _ _ Hc); cbv beta iota
      end
  | |- safe _ _ (bind (if ?b then _ else _) _) => destruct b
  | |- safe _ _ (bind (match ?x with _ => _ end) _) => destruct x
  | |- safe _ _ (bind ?m _) =>
      let h := head_of m in
      first [ is_statement h; apply safe_bind; [| intros] | unfold h at 1 ]
  | |- safe _ _ (if ?b then _ else _) => destruct b
  | |- safe _ _ (match ?x with _ => _ end) => destruct x
  | |- safe _ _ (assign _ _) => apply safe_assign; [keeps_format |]
  | |- safe _ _ (assign_tuple _ _) => apply safe_assign_tuple; [keeps_format |]
  | |- safe _ _ ?m => let h := head_of m in unfold h at 1
  | |- safe _ _ _ => fail
  | |- _ => progress cbn [snd]
  end.

Ltac safely := repeat safely_step.

Section NameErrors.

Context {num : Type} `{Arith num}.
Variable W : World num.
Variable a : args.t num.

Lemma read_safe : safe None [] (bind (configure W a) (fun _ => load W a)).
Proof. safely. Qed.

Lemma scale_to_align_safe f :
  safe (Some f) (loaded_names f) (apply_scale W a ;~ associate W a ;~ align W a).
Proof. unfold loaded_names. destruct (py_eq_str f "tum_cov") eqn:Hcov; safely. Qed.

Lemma has_nil (st : state num) : has [] st.
Proof. intros n Hn. discriminate. Qed.

Lemma has_cons x l (st : state num) :
  is_Some (ns st !! x) -> has l st -> has (x :: l) st.
Proof.
  intros Hx Hl n Hn. unfold mem in Hn. cbn [existsb] in Hn.
  apply orb_true_iff in Hn as [Hn | Hn].
  - apply String.eqb_eq in Hn as ->. exact Hx.
  - apply Hl, Hn.
Qed.

(** What a load that returns has bound. *)
Lemma load_bound st st' :
  load W a st = (inr tt, st') ->
  exists f, ns st' !! "gt_format" = Some f /\ has (loaded_names f) st'.
Proof.
  intros Hrun. unfold load in Hrun.
  apply bind_inr in Hrun as ([] & st1 & H1 & Hrun).
  apply assign_call_inr in H1 as (? & ? & v1 & _ & _ & _ & ->); [| pure_args ..].
  apply bind_inr in Hrun as ([] & st2 & H2 & Hrun).
  apply assign_call_inr in H2 as (? & ? & v2 & _ & _ & _ & ->); [| pure_args ..].
  apply bind_inr in Hrun as ([] & st3 & H3 & Hrun).
  apply assign_call_inr in H3 as (? & ? & f & _ & _ & _ & ->); [| pure_args ..].
  apply bind_inr in Hrun as ([] & st4 & H4 & Hrun).
  apply assign_call_inr in H4 as (? & ? & v4 & _ & _ & _ & ->); [| pure_args ..].
  apply bind_inr in Hrun as (cov & st5 & Hcov & Hrun).
  apply is_tum_cov_inr in Hcov as (-> & f' & Hf & ->).
  revert Hf. simpl_state. intros Hf. injection Hf as <-.
  exists f. unfold loaded_names.
  destruct (py_eq_str f "tum_cov").
  - apply bind_inr in Hrun as ([] & st6 & H6 & H7).
    apply assign_tuple_call_inr in H6
      as (? & ? & v6 & items6 & _ & _ & _ & _ & Hlen6 & ->); [| pure_args ..].
    destruct items6 as [| p [| c [| ? ?]]]; try discriminate Hlen6.
    apply assign_tuple_call_inr in H7
      as (? & ? & v7 & items7 & _ & _ & _ & _ & Hlen7 & ->); [| pure_args ..].
    destruct items7 as [| p' [| c' [| ? ?]]]; try discriminate Hlen7.
    cbn [zip zip_with foldl fst snd ns]. split; [simpl_state; reflexivity |].
    cbn [app]. repeat (apply has_cons; [simpl_state; eauto |]). apply has_nil.
  - apply bind_inr in Hrun as ([] & st6 & H6 & H7).
    apply assign_call_inr in H6 as (? & ? & v6 & _ & _ & _ & ->); [| pure_args ..].
    apply assign_call_inr in H7 as (? & ? & v7 & _ & _ & _ & ->); [| pure_args ..].
    cbn [ns]. split; [simpl_state; reflexivity |].
    cbn [app]. repeat (apply has_cons; [simpl_state; eauto |]). apply has_nil.
Qed.

(** No stage up to the alignment reads a name that is not bound. *)
Lemma prepare_reads_bound n : (prepare W a initial).1 <> inl (NameError n).
Proof.
  assert (Hsplit : prepare W a initial
                   = bind (bind (configure W a) (fun _ => load W a))
                       (fun _ => apply_scale W a ;~ associate W a ;~ align W a) initial).
  { unfold prepare. symmetry.
    exact (bind_assoc (configure W a) (fun _ => load W a)
             (fun _ => apply_scale W a ;~ associate W a ;~ align W a) initial). }
  rewrite Hsplit. unfold bind at 1.
  destruct (read_safe initial (has_nil initial)) as (Hne & _); [discriminate |].
  destruct (bind (configure W a) (fun _ => load W a) initial) as [[e | []] st1] eqn:Hread;
    cbn [fst snd] in *.
  - exact (Hne n).
  - apply bind_inr in Hread as ([] & st0 & _ & Hload).
    apply load_bound in Hload as (f & Hf & Hhas).
    destruct (scale_to_align_safe f st1 Hhas) as (Hne' & _).
    + intros f' Hq. injection Hq as <-. exact Hf.
    + exact (Hne' n).
Qed.

Lemma align_bound st st' :
  args.alignment a = "manifold" \/ args.alignment a = "horn"
  \/ args.alignment a = "first" ->
  align W a st = (inr tt, st') ->
  has ["gt_poses_align"; "est_poses_align"] st'.
Proof.
  intros Hmode Hrun. unfold align in Hrun.
  assert (Hgoal : is_Some (ns st' !! "gt_poses_align")
                  /\ is_Some (ns st' !! "est_poses_align")).
  { destruct Hmode as [Hm | [Hm | Hm]]; rewrite Hm in *.
    - rewrite bool_decide_eq_true_2 in Hrun by reflexivity.
      apply bind_inr in Hrun as (cov & st1 & Hcov & Hrun).
      apply is_tum_cov_inr in Hcov as (-> & _).
      destruct cov;
        apply unpack_three_binds in Hrun
          as (? & ? & ? & x & y & z & _ & _ & Hx & Hy & _);
        try discriminate; try (pure_args; fail); rewrite Hx, Hy; eauto.
    - rewrite bool_decide_eq_false_2 in Hrun by discriminate.
      rewrite bool_decide_eq_true_2 in Hrun by reflexivity.
      apply unpack_three_binds in Hrun
        as (? & ? & ? & x & y & z & _ & _ & Hx & Hy & _);
        try discriminate; try (pure_args; fail). rewrite Hx, Hy. eauto.
    - rewrite bool_decide_eq_false_2 in Hrun by discriminate.
      rewrite bool_decide_eq_false_2 in Hrun by discriminate.
      rewrite bool_decide_eq_true_2 in Hrun by reflexivity.
      apply unpack_two_binds in Hrun
        as (? & ? & ? & x & y & _ & _ & Hx & Hy & _);
        try discriminate; try (pure_args; fail). rewrite Hx, Hy. eauto. }
  destruct Hgoal as [Hx Hy].
  apply has_cons; [exact Hx |]. apply has_cons; [exact Hy |]. apply has_nil.
Qed.

Lemma prepare_aligned st :
  args.alignment a = "manifold" \/ args.alignment a = "horn"
  \/ args.alignment a = "first" ->
  prepare W a initial = (inr tt, st) ->
  has ["gt_poses_align"; "est_poses_align"] st.
Proof.
  intros Hmode Hrun. unfold prepare in Hrun.
  do 4 (apply bind_inr in Hrun as ([] & ? & _ & Hrun)).
  exact (align_bound _ _ Hmode Hrun).
Qed.

Lemma before_rpe_safe :
  safe None ["gt_poses_align"; "est_poses_align"]
    (before_rpe W a ;~ (if args.rpe a then rpe W a else ret tt)).
Proof. safely. Qed.

Lemma finish_safe :
  args.no_metrics a = true \/ args.ddt a = false \/ args.rpe a = true ->
  safe None ["gt_poses_align"; "est_poses_align"] (finish W a).
Proof.
  intros Hflags. unfold finish, metrics.
  destruct (args.no_metrics a) eqn:Hnm; cbn [negb].
  - safely.
  - destruct (args.rpe a) eqn:Hrpe.
    + safely.
    + destruct (args.ddt a) eqn:Hddt; [| safely].
      destruct Hflags as [Hq | [Hq | Hq]]; discriminate.
Qed.

Lemma no_name_error_from {A : Type} (m : M num A) B st n :
  safe None B m -> has B st -> (m st).1 <> inl (NameError n).
Proof.
  intros Hm HB. destruct (Hm st HB) as (Hne & _); [discriminate |]. exact (Hne n).
Qed.

Lemma known_or_unknown :
  (args.alignment a = "manifold" \/ args.alignment a = "horn"
   \/ args.alignment a = "first")
  \/ unknown_alignment a.
Proof.
  unfold unknown_alignment.
  destruct (decide (args.alignment a = "manifold")); [auto |].
  destruct (decide (args.alignment a = "horn")); [auto |].
  destruct (decide (args.alignment a = "first")); auto.
Qed.

(** X17: a run can find only two names unbound.  If it ends with
    [NameError], then either the name is [gt_poses_align], the alignment
    mode is none of the three and metrics or plots were asked for, or the
    name is [rpe_error], with [--ddt] given without [--rpe] and the metrics
    on.  Every other name the script reads has been bound by the time it is
    read. *)
Theorem name_errors_only_from_alignment_or_ddt n :
  (run W a).1 = inl (NameError n) ->
  (n = "gt_poses_align" /\ unknown_alignment a
   /\ (args.no_metrics a = false \/ args.show_plots a = true))
  \/ (n = "rpe_error" /\ args.ddt a = true /\ args.rpe a = false
      /\ args.no_metrics a = false).
Proof.
  intros Hrun. destruct known_or_unknown as [Hmode | Hmode].
  - right.
    assert (Hsafe : args.no_metrics a = true \/ args.ddt a = false \/ args.rpe a = true ->
                    False).
    { intros Hflags. unfold run in Hrun. rewrite main_split in Hrun.
      unfold bind in Hrun.
      pose proof (prepare_reads_bound n) as Hprep.
      destruct (prepare W a initial) as [[e | []] st] eqn:Hp; cbn [fst snd] in *.
      - congruence.
      - exact (no_name_error_from _ _ st n (finish_safe Hflags)
                 (prepare_aligned st Hmode Hp) Hrun). }
    destruct (args.no_metrics a) eqn:Hnm; [destruct Hsafe; auto |].
    destruct (args.ddt a) eqn:Hddt; [| destruct Hsafe; auto].
    destruct (args.rpe a) eqn:Hrpe; [destruct Hsafe; auto |].
    destruct (run_ddt_without_rpe W a Hddt Hrpe Hnm) as (r1 & st1 & Hbefore & _ & Hform).
    rewrite Hform in Hrun.
    destruct r1 as [e | []]; cbn [fst] in Hrun.
    + exfalso. injection Hrun as ->.
      unfold before_ddt in Hbefore. unfold bind at 1 in Hbefore.
      pose proof (prepare_reads_bound n) as Hprep.
      destruct (prepare W a initial) as [[e' | []] st] eqn:Hp; cbn [fst snd] in *.
      * injection Hbefore as -> _. congruence.
      * apply (no_name_error_from _ _ st n before_rpe_safe (prepare_aligned st Hmode Hp)).
        rewrite Hbefore. reflexivity.
    + injection Hrun as <-. auto.
  - left. destruct (run_unknown_alignment W a Hmode) as (r1 & st1 & Hprep & _ & _ & Hform).
    rewrite Hform in Hrun. pose proof (prepare_reads_bound n) as Hne.
    rewrite Hprep in Hne. cbn [fst] in Hne.
    destruct r1 as [e | []]; cbn [fst] in Hrun; [congruence |].
    destruct (args.no_metrics a); cbn [negb fst] in Hrun.
    + destruct (args.show_plots a); cbn [fst] in Hrun; [| discriminate].
      injection Hrun as <-. auto.
    + injection Hrun as <-. auto.
Qed.

End NameErrors.

(** ** The plot configuration *)

Section Configuration.

Context {num : Type} `{Arith num}.
Variable W : World num.
Variable a : args.t num.

Lemma steps_sub {A : Type} (m : M num A) Ws Ls Ws' Ls' :
  steps m Ws Ls ->
  (forall n, In n Ws -> In n Ws') -> (forall l, In l Ls -> In l Ls') ->
  steps m Ws' Ls'.
Proof.
  intros Hm HW HL. eapply steps_weaken; [exact Hm | |].
  - apply forallb_forall. intros n Hn. unfold mem. apply existsb_exists.
    exists n. split; [apply HW, Hn | apply String.eqb_refl].
  - apply forallb_forall. intros n Hn. unfold mem. apply existsb_exists.
    exists n. split; [apply HL, Hn | apply String.eqb_refl].
Qed.

(** Everything after the plot configuration only adds events. *)
Lemma after_configure_steps :
  steps (load W a ;~ apply_scale W a ;~ associate W a ;~ align W a ;~ finish W a)
    (prepare_names ++ finish_names a) (prepare_labels ++ finish_labels a).
Proof.
  unfold prepare_names, prepare_labels.
  apply steps_bind; [| intros _].
  { eapply steps_sub; [apply load_steps | |];
      intros n Hn; rewrite !in_app_iff; tauto. }
  apply steps_bind; [| intros _].
  { eapply steps_sub; [apply apply_scale_steps | |];
      intros n Hn; rewrite !in_app_iff; tauto. }
  apply steps_bind; [| intros _].
  { eapply steps_sub; [apply associate_steps | |];
      intros n Hn; rewrite !in_app_iff; tauto. }
  apply steps_bind; [| intros _].
  { eapply steps_sub; [apply align_steps | |];
      intros n Hn; rewrite !in_app_iff; tauto. }
  eapply steps_sub; [apply finish_steps | |];
    intros n Hn; rewrite !in_app_iff; tauto.
Qed.

(** X16: every run starts by configuring [plot_utils], with or without
    [--show_plots]: the first event is the call of [set_language] with
    [--plot_lang], and if it returns the second is the call of
    [set_file_extension] with [--plot_format]; when either raises, the run
    ends there, before any file is read. *)
Theorem plot_configuration_comes_first :
  let r := run W a in
  let lang := ECall "plot_utils.set_language" [] [("lang", VStr (args.plot_lang a))] in
  let ext := ECall "plot_utils.set_file_extension" []
               [("ext", VStr (args.plot_format a))] in
  (exists rest, out r.2 = lang :: rest)
  /\ (callee W "plot_utils.set_language" [] [("lang", VStr (args.plot_lang a))] = None ->
      r = (inl (CalleeError "plot_utils.set_language"), State ∅ [lang]))
  /\ (is_Some (callee W "plot_utils.set_language" [] [("lang", VStr (args.plot_lang a))]) ->
      (exists rest, out r.2 = lang :: ext :: rest)
      /\ (callee W "plot_utils.set_file_extension" []
            [("ext", VStr (args.plot_format a))] = None ->
          r = (inl (CalleeError "plot_utils.set_file_extension"),
               State ∅ [lang; ext]))).
Proof.
  intros r lang ext.
  assert (Hmain : r = bind (configure W a)
                        (fun _ => load W a ;~ apply_scale W a ;~ associate W a ;~
                                  align W a ;~ finish W a) initial) by reflexivity.
  unfold configure in Hmain. unfold bind at 1 2 in Hmain.
  rewrite (call_run W "plot_utils.set_language" _ _ _ []
             [("lang", VStr (args.plot_lang a))]) in Hmain by reflexivity.
  destruct (callee W "plot_utils.set_language" [] [("lang", VStr (args.plot_lang a))])
    as [v1 |] eqn:H1.
  - unfold bind at 1 in Hmain.
    rewrite (call_run W "plot_utils.set_file_extension" _ _ _ []
               [("ext", VStr (args.plot_format a))]) in Hmain by reflexivity.
    destruct (callee W "plot_utils.set_file_extension" []
                [("ext", VStr (args.plot_format a))]) as [v2 |] eqn:H2.
    + unfold ret at 1 in Hmain. cbn [ns out initial app] in Hmain.
      match type of Hmain with _ = ?k ?s =>
        destruct (after_configure_steps s) as (evs & Hout & _)
      end.
      rewrite <- Hmain in Hout. cbn [out app] in Hout.
      split; [eexists; exact Hout |]. split; [discriminate |].
      intros _. split; [eexists; exact Hout | discriminate].
    + cbn [ns out initial app] in Hmain. rewrite Hmain. cbn [snd out].
      split; [eexists; reflexivity |]. split; [discriminate |].
      intros _. split; [eexists; reflexivity | reflexivity].
  - cbn [ns out initial app] in Hmain. rewrite Hmain. cbn [snd out].
    split; [eexists; reflexivity |]. split; [reflexivity |].
    intros [v Hv]. discriminate.
Qed.

End Configuration.

(** * Whole blocks and runs *)

(** ** DDT from the results of RPE *)

Section DdtFromRpe.

Context {num : Type} `{Arith num}.
Variable W : World num.
Variable a : args.t num.

(** An RPE block that returns has unpacked the answer of
    [slam_metrics.RPE] into the four names. *)
Lemma rpe_inr st st' :
  rpe W a st = (inr tt, st') ->
  exists pos kws res e te re d,
    In (ECall "slam_metrics.RPE" pos kws) (out st')
    /\ callee W "slam_metrics.RPE" pos kws = Some res
    /\ py_iter res = Some [e; te; re; d]
    /\ ns st' !! "rpe_error" = Some e /\ ns st' !! "rpe_distance" = Some d.
Proof.
  intros Hrun. unfold rpe in Hrun.
  apply bind_inr in Hrun as ([] & st1 & Hprint & Hrun).
  apply bind_inr in Hrun as ([] & st2 & Hcall & Hstat).
  apply assign_tuple_call_inr in Hcall
    as (vs & kvs & v & items & _ & _ & Hv & Hit & Hlen & ->); [| pure_args ..].
  destruct items as [| e [| te [| re [| d [| x items]]]]]; try discriminate Hlen.
  exists vs, kvs, v, e, te, re, d.
  match type of Hstat with statistics_split _ _ _ ?s = _ =>
    destruct (statistics_split_steps W a "rpe_error" s) as (evs & Ho & _ & Hk)
  end.
  rewrite Hstat in Ho, Hk. cbn [snd] in Ho, Hk.
  split; [| split; [exact Hv | split; [exact Hit |]]].
  - rewrite Ho. cbn [out]. apply in_or_app. left. apply in_or_app. right. left. reflexivity.
  - rewrite !Hk by reflexivity. cbn [rpe_names zip zip_with foldl fst snd ns].
    simpl_state. split; reflexivity.
Qed.

(** The DDT block once the two names are bound: it binds the quotient, or
    stops with the error of [np.divide] right after its title. *)
Lemma ddt_run st e d :
  ns st !! "rpe_error" = Some e -> ns st !! "rpe_distance" = Some d ->
  match np_divide e d with
  | inr q => ns (ddt W a st).2 !! "ddt" = Some q
  | inl err => ddt W a st = (inl err, State (ns st) (out st ++ [EPrint "\nDDT" []]))
  end.
Proof.
  intros He Hd. unfold ddt.
  set (k := statistics_split W a "ddt").
  unfold print, assign, divide, get, emit, lift, set, bind.
  cbn [ns out]. rewrite He. cbn [ns out]. rewrite Hd.
  destruct (np_divide e d) as [err | q]; [reflexivity |].
  cbn [ns out]. subst k.
  match goal with |- context [statistics_split W a "ddt" ?s] =>
    destruct (statistics_split_steps W a "ddt" s) as (_ & _ & _ & Hk);
    destruct (statistics_split W a "ddt" s) as [[err | []] s2]
  end.
  all: cbn [snd] in *; rewrite Hk by reflexivity; cbn [ns]; apply lookup_insert_eq.
Qed.

Lemma before_ddt_steps :
  steps (before_ddt W a)
    (prepare_names ++ ["ate_horn_error"; "ate_se3_error"] ++ rpe_names)
    (prepare_labels ++ ate_horn_labels ++ ate_se3_labels ++ rpe_labels).
Proof.
  unfold before_ddt.
  apply steps_bind; [| intros _].
  { eapply steps_sub; [apply prepare_steps | |];
      intros n Hn; rewrite !in_app_iff; tauto. }
  apply steps_bind; [| intros _].
  { eapply steps_sub; [apply before_rpe_steps | |];
      intros n Hn; rewrite !in_app_iff in *; tauto. }
  destruct (args.rpe a); [| apply steps_ret].
  eapply steps_sub; [apply rpe_steps | |];
    intros n Hn; rewrite !in_app_iff; tauto.
Qed.

(** C2: DDT is computed from what RPE left in the namespace.  With both
    [--rpe] and [--ddt] and the metrics on, a run that reaches the DDT block
    has called [slam_metrics.RPE], holds its first and fourth item (the
    error array and the traveled distances) in [rpe_error] and
    [rpe_distance], and binds [ddt] to [np.divide] of the two, or ends with
    the error of that division right after the block's title; and whatever
    a run binds to [ddt] is such a quotient.  With [--ddt] alone nothing is
    ever bound to [ddt]: when the metrics are on the run cannot complete,
    and if it gets as far as the DDT block it ends there with [NameError]
    for [rpe_error], right after the block's title. *)
Theorem ddt_needs_rpe :
  args.ddt a = true ->
  let r := run W a in
  (args.rpe a = true -> args.no_metrics a = false ->
   forall st1, before_ddt W a initial = (inr tt, st1) ->
     exists pos kws res e te re d,
       In (ECall "slam_metrics.RPE" pos kws) (out st1)
       /\ callee W "slam_metrics.RPE" pos kws = Some res
       /\ py_iter res = Some [e; te; re; d]
       /\ ns st1 !! "rpe_error" = Some e
       /\ ns st1 !! "rpe_distance" = Some d
       /\ ns st1 !! "ddt" = None
       /\ match np_divide e d with
          | inr q => ns r.2 !! "ddt" = Some q
          | inl err =>
              r = (inl err, State (ns st1) (out st1 ++ [EPrint "\nDDT" []]))
          end)
  /\ (args.rpe a = true ->
      forall q, ns r.2 !! "ddt" = Some q ->
        exists pos kws res e te re d,
          In (ECall "slam_metrics.RPE" pos kws) (out r.2)
          /\ callee W "slam_metrics.RPE" pos kws = Some res
          /\ py_iter res = Some [e; te; re; d]
          /\ np_divide e d = inr q)
  /\ (args.rpe a = false ->
      ns r.2 !! "ddt" = None
      /\ (args.no_metrics a = false -> exists e, r.1 = inl e)
      /\ (forall st1, args.no_metrics a = false ->
            (before_ddt W a) initial = (inr tt, st1) ->
            r = (inl (NameError "rpe_error"),
                 State (ns st1) (out st1 ++ [EPrint "\nDDT" []])))).
Proof.
  intros Hd r.
  assert (Hreach : args.rpe a = true -> args.no_metrics a = false ->
            forall st1, before_ddt W a initial = (inr tt, st1) ->
              r = bind (ddt W a)
                    (fun _ => if args.show_plots a then plot W else ret tt) st1
              /\ ns st1 !! "ddt" = None
              /\ exists pos kws res e te re d,
                   In (ECall "slam_metrics.RPE" pos kws) (out st1)
                   /\ callee W "slam_metrics.RPE" pos kws = Some res
                   /\ py_iter res = Some [e; te; re; d]
                   /\ ns st1 !! "rpe_error" = Some e
                   /\ ns st1 !! "rpe_distance" = Some d).
  { intros Hr Hm st1 Hb. split; [| split].
    - subst r. unfold run. rewrite main_split_ddt by exact Hm.
      unfold bind at 1. rewrite Hb. unfold from_ddt. rewrite Hd. reflexivity.
    - destruct (run_footprint _ _ _ before_ddt_steps) as [_ Hn].
      rewrite Hb in Hn. apply Hn. reflexivity.
    - unfold before_ddt in Hb. rewrite Hr in Hb.
      apply bind_inr in Hb as ([] & st00 & _ & Hb).
      apply bind_inr in Hb as ([] & st0 & _ & Hrpe).
      exact (rpe_inr _ _ Hrpe). }
  split; [| split].
  - intros Hr Hm st1 Hb.
    destruct (Hreach Hr Hm st1 Hb)
      as (Hrun & Hnone & pos & kws & res & e & te & re & d & Hin & Hc & Hit & He & Hdist).
    exists pos, kws, res, e, te, re, d.
    do 6 (split; [assumption |]).
    pose proof (ddt_run st1 e d He Hdist) as Hddt.
    destruct (np_divide e d) as [err | q].
    + rewrite Hrun. unfold bind. rewrite Hddt. reflexivity.
    + rewrite Hrun. unfold bind.
      destruct (ddt W a st1) as [[err | []] st2]; cbn [snd] in *; [exact Hddt |].
      rewrite (steps_names _ _ _ st2 "ddt" (plot_if_steps W a)) by reflexivity.
      exact Hddt.
  - intros Hr q Hq.
    destruct (args.no_metrics a) eqn:Hm.
    { destruct (run_footprint _ _ _ (main_steps W a)) as [_ Hn].
      subst r. unfold run in Hq. rewrite Hn in Hq; [discriminate |].
      unfold finish_names. rewrite Hm. destruct (args.show_plots a); reflexivity. }
    destruct (before_ddt W a initial) as [[e0 | []] st1] eqn:Hb.
    { exfalso. destruct (run_footprint _ _ _ before_ddt_steps) as [_ Hn].
      rewrite Hb in Hn. cbn [snd] in Hn.
      subst r. unfold run in Hq. rewrite main_split_ddt in Hq by exact Hm.
      unfold bind at 1 in Hq. rewrite Hb in Hq. cbn [snd] in Hq.
      rewrite Hn in Hq by reflexivity. discriminate. }
    destruct (Hreach Hr eq_refl st1 eq_refl)
      as (Hrun & Hnone & pos & kws & res & e & te & re & d & Hin & Hc & Hit & He & Hdist).
    exists pos, kws, res, e, te, re, d.
    pose proof (ddt_run st1 e d He Hdist) as Hddt.
    pose proof (fun ev => event_kept (ddt W a) _ _ ev st1 (ddt_steps W a)) as Hev.
    rewrite Hrun in Hq |- *. unfold bind in Hq |- *.
    destruct (np_divide e d) as [err | q'].
    + exfalso. rewrite Hddt in Hq. cbn [snd ns] in Hq. congruence.
    + destruct (ddt W a st1) as [[err | []] st2]; cbn [snd] in *.
      * rewrite Hddt in Hq. injection Hq as <-. auto.
      * rewrite (steps_names _ _ _ st2 "ddt" (plot_if_steps W a)) in Hq by reflexivity.
        rewrite Hddt in Hq. injection Hq as <-.
        split; [| auto].
        apply (event_kept _ _ _ _ st2 (plot_if_steps W a)). auto.
  - intros Hr. split; [apply run_never_binds_ddt_without_rpe, Hr |].
    destruct (args.no_metrics a) eqn:Hm; [split; discriminate |].
    destruct (run_ddt_without_rpe W a Hd Hr Hm) as (r1 & st1 & Hb & Hn & Hrun).
    subst r. rewrite Hrun. split.
    + intros _. destruct r1; eauto.
    + intros st1' _ Hb'. rewrite Hb in Hb'. injection Hb' as -> ->. reflexivity.
Qed.

End DdtFromRpe.

(** ** The Horn ATE has no flag *)

Section HornAlways.

Context {num : Type} `{Arith num}.
Variable W : World num.
Variable a : args.t num.

(** Once a call was made it stays made, also when what follows fails. *)
Lemma called_bind {A B : Type} (m : M num A) (k : A -> M num B) Ws Ls f st :
  (forall x, steps (k x) Ws Ls) ->
  called f (m st).2 = true -> called f (bind m k st).2 = true.
Proof.
  intros Hk Hc. unfold bind. destruct (m st) as [[e | x] st1]; [exact Hc |].
  apply (called_later _ _ _ _ _ (Hk x)). exact Hc.
Qed.

(** With the two aligned trajectories bound, the metrics begin with a call
    of [slam_metrics.ATE_Horn], whatever it answers. *)
Lemma metrics_call_horn st :
  is_Some (ns st !! "gt_poses_align") -> is_Some (ns st !! "est_poses_align") ->
  called "slam_metrics.ATE_Horn" (metrics W a st).2 = true.
Proof.
  intros [g Hg] [e He]. unfold metrics.
  eapply called_bind; [intros _; apply rest_after_ate_steps |].
  unfold ate_horn_all.
  eapply (called_bind _ _ ["ate_horn_error"] ate_horn_labels); [intros _; footprint |].
  unfold ate_horn. unfold bind at 1. unfold print, emit. cbv beta iota.
  eapply (called_bind _ _ ["ate_horn_error"] ate_horn_labels); [intros _; footprint |].
  unfold assign, bind. cbn [ns out].
  rewrite (call_run W "slam_metrics.ATE_Horn" _ _ _ [g; e] []);
    [| run_monad; cbn [ns]; rewrite Hg; cbn [ns]; rewrite He; reflexivity | reflexivity].
  destruct (callee W "slam_metrics.ATE_Horn" [g; e] []);
    unfold set; cbn [fst snd ns out]; rewrite called_app; cbn; apply orb_true_r.
Qed.

Lemma horn_not_before_metrics : mem "slam_metrics.ATE_Horn" prepare_labels = false.
Proof. reflexivity. Qed.

(** C4 (as amended): the Horn ATE has no option of its own.  A run calls
    [slam_metrics.ATE_Horn] exactly when the metrics are not bypassed, the
    stages up to the alignment have gone through and the alignment mode is
    one of the three, whatever metrics were selected.  The manifold ATE, RPE
    and DDT are computed only when their flag is set and the metrics are
    not bypassed (DDT only when [--rpe] is set as well); and in a run that
    completes, each of the four has been computed exactly when the metrics
    are not bypassed and, for the three that have a flag, the flag is
    set. *)
Theorem metrics_computed_by_flags :
  let r := run W a in
  (called "slam_metrics.ATE_Horn" r.2 = true <->
     args.no_metrics a = false
     /\ (prepare W a initial).1 = inr tt
     /\ (args.alignment a = "manifold" \/ args.alignment a = "horn"
         \/ args.alignment a = "first"))
  /\ (called "slam_metrics.ATE_SE3" r.2 = true ->
      args.ate_manifold a = true /\ args.no_metrics a = false)
  /\ (called "slam_metrics.RPE" r.2 = true ->
      args.rpe a = true /\ args.no_metrics a = false)
  /\ (bound "ddt" r.2 = true ->
      args.ddt a = true /\ args.rpe a = true /\ args.no_metrics a = false)
  /\ (r.1 = inr tt ->
      called "slam_metrics.ATE_Horn" r.2 = negb (args.no_metrics a)
      /\ called "slam_metrics.ATE_SE3" r.2 = negb (args.no_metrics a) && args.ate_manifold a
      /\ called "slam_metrics.RPE" r.2 = negb (args.no_metrics a) && args.rpe a
      /\ bound "ddt" r.2 = negb (args.no_metrics a) && args.ddt a).
Proof.
  intros r. subst r.
  assert (Hate : called "slam_metrics.ATE_Horn" (run W a).2 = true ->
                 args.no_metrics a = false).
  { intros Hc. apply called_in_footprint in Hc.
    unfold finish_labels, metrics_labels in Hc.
    destruct (args.no_metrics a); [| reflexivity].
    destruct (args.show_plots a); vm_compute in Hc; discriminate. }
  assert (Hse3 : called "slam_metrics.ATE_SE3" (run W a).2 = true ->
                 args.ate_manifold a = true /\ args.no_metrics a = false).
  { intros Hc. apply called_in_footprint in Hc.
    unfold finish_labels, metrics_labels in Hc.
    destruct (args.no_metrics a), (args.ate_manifold a), (args.rpe a), (args.ddt a),
      (args.show_plots a); vm_compute in Hc; (discriminate || auto). }
  assert (Hrpe : called "slam_metrics.RPE" (run W a).2 = true ->
                 args.rpe a = true /\ args.no_metrics a = false).
  { intros Hc. apply called_in_footprint in Hc.
    unfold finish_labels, metrics_labels in Hc.
    destruct (args.no_metrics a), (args.ate_manifold a), (args.rpe a), (args.ddt a),
      (args.show_plots a); vm_compute in Hc; (discriminate || auto). }
  assert (Hddt : bound "ddt" (run W a).2 = true ->
                 args.ddt a = true /\ args.rpe a = true /\ args.no_metrics a = false).
  { intros Hb.
    assert (Hr : args.rpe a = true).
    { destruct (args.rpe a) eqn:Hr; [reflexivity |].
      rewrite (not_bound _ _ (run_never_binds_ddt_without_rpe W a Hr)) in Hb.
      discriminate. }
    apply bound_in_footprint in Hb.
    unfold finish_names, metrics_names in Hb. rewrite Hr in Hb.
    destruct (args.no_metrics a), (args.ate_manifold a), (args.ddt a),
      (args.show_plots a); vm_compute in Hb; (discriminate || auto). }
  split; [| split; [exact Hse3 | split; [exact Hrpe | split; [exact Hddt |]]]].
  - split.
    + intros Hc. split; [exact (Hate Hc) |].
      destruct (known_or_unknown a) as [Hmode | Hmode].
      * split; [| exact Hmode].
        destruct (run_footprint _ _ _ (prepare_steps W a)) as [Hl _].
        unfold run in Hc. rewrite main_split in Hc. unfold bind in Hc.
        destruct (prepare W a initial) as [[e | []] st1]; [| reflexivity].
        cbn [snd] in *. rewrite (not_called _ _ _ Hl horn_not_before_metrics) in Hc.
        discriminate.
      * exfalso.
        destruct (run_unknown_alignment W a Hmode) as (r1 & st1 & Hp & Hl & _ & Hrun).
        assert (Hno : called "slam_metrics.ATE_Horn" st1 = false)
          by (apply (not_called _ _ _ Hl); reflexivity).
        rewrite Hrun in Hc. destruct r1 as [e | []]; cbn [snd] in Hc; [congruence |].
        destruct (negb (args.no_metrics a)); cbn [snd] in Hc.
        -- rewrite called_app in Hc. unfold called, labels in Hno. cbn [out] in Hno.
           unfold called at 1, labels in Hc. cbn [out] in Hc.
           rewrite Hno in Hc. discriminate.
        -- destruct (args.show_plots a); cbn [snd] in Hc; congruence.
    + intros (Hm & Hp & Hmode).
      unfold run. rewrite main_split. unfold bind.
      destruct (prepare W a initial) as [[e | []] st1] eqn:Hprep; [discriminate |].
      pose proof (prepare_aligned W a st1 Hmode Hprep) as Hhas.
      unfold finish. rewrite Hm. cbn [negb].
      eapply called_bind; [intros _; apply plot_if_steps |].
      apply metrics_call_horn; apply Hhas; reflexivity.
  - intros Hok. destruct (args.no_metrics a) eqn:Hm; cbn [negb andb].
    { repeat split.
      all: match goal with |- ?c = false => destruct c; [exfalso | reflexivity] end.
      all: intuition congruence. }
    repeat split.
    all: destruct (run_completed W a Hok Hm) as (st1 & st2 & Hmet & Hfin); rewrite Hfin.
    + eapply called_kept; [apply plot_if_steps |].
      eapply metrics_post_ate, Hmet.
    + destruct (args.ate_manifold a) eqn:Hf.
      * eapply called_kept; [apply plot_if_steps |]. eapply metrics_post_se3; eauto.
      * rewrite <- Hfin.
        destruct (called "slam_metrics.ATE_SE3" (run W a).2); [exfalso | reflexivity].
        intuition congruence.
    + destruct (args.rpe a) eqn:Hf.
      * eapply called_kept; [apply plot_if_steps |]. eapply metrics_post_rpe; eauto.
      * rewrite <- Hfin.
        destruct (called "slam_metrics.RPE" (run W a).2); [exfalso | reflexivity].
        intuition congruence.
    + destruct (args.ddt a) eqn:Hf.
      * eapply bound_kept; [apply plot_if_steps | reflexivity |].
        eapply metrics_post_ddt; eauto.
      * rewrite <- Hfin.
        destruct (bound "ddt" (run W a).2); [exfalso | reflexivity].
        intuition congruence.
Qed.

End HornAlways.

(** ** The computed scale is the one applied *)

Section ScaleLines.

Context {num : Type} `{Arith num}.
Variable W : World num.

(** Lines 80-82 without covariances: both names are rebound to what
    [utils.scale_dict] returns. *)
Lemma scale_both_plain st v gt est f gt' est' :
  ns st !! "scale" = Some v -> formats_f v = true ->
  ns st !! "gt_poses" = Some gt -> ns st !! "est_poses" = Some est ->
  ns st !! "gt_format" = Some f -> py_eq_str f "tum_cov" = false ->
  callee W "utils.scale_dict" [gt] [("scale_factor", VInt 1)] = Some gt' ->
  callee W "utils.scale_dict" [est] [("scale_factor", v)] = Some est' ->
  scale_both W st
  = (inr tt,
     State (<["est_poses" := est']> (<["gt_poses" := gt']> (ns st)))
       (out st ++ [EPrint "Using scale: %f" (operands v);
                   ECall "utils.scale_dict" [gt] [("scale_factor", VInt 1)];
                   ECall "utils.scale_dict" [est] [("scale_factor", v)]])).
Proof.
  intros Hs Hv Hgt Hest Hf Hcov Hg He. unfold scale_both. run_script.
  simpl_state. rewrite Hs, Hv. simpl_state. rewrite Hgt. simpl_state. rewrite Hg.
  simpl_state. rewrite Hest. simpl_state. rewrite Hs. simpl_state. rewrite He.
  simpl_state. rewrite Hf, Hcov. rewrite <- !app_assoc. reflexivity.
Qed.

(** Lines 80-85 with covariances: the two poses and the estimate's
    covariance are rebound, the scaled covariance of the ground truth goes
    to [gt_cov_]. *)
Lemma scale_both_cov st v gt est f cg ce gt' est' cg' ce' :
  ns st !! "scale" = Some v -> formats_f v = true ->
  ns st !! "gt_poses" = Some gt -> ns st !! "est_poses" = Some est ->
  ns st !! "gt_cov" = Some cg -> ns st !! "est_cov" = Some ce ->
  ns st !! "gt_format" = Some f -> py_eq_str f "tum_cov" = true ->
  callee W "utils.scale_dict" [gt] [("scale_factor", VInt 1)] = Some gt' ->
  callee W "utils.scale_dict" [est] [("scale_factor", v)] = Some est' ->
  callee W "utils.scale_dict" [cg] [("scale_factor", VInt 1); ("is_cov", VBool true)]
  = Some cg' ->
  callee W "utils.scale_dict" [ce] [("scale_factor", v); ("is_cov", VBool true)]
  = Some ce' ->
  scale_both W st
  = (inr tt,
     State (<["est_cov" := ce']>
              (<["gt_cov_" := cg']>
                 (<["est_poses" := est']> (<["gt_poses" := gt']> (ns st)))))
       (out st ++ [EPrint "Using scale: %f" (operands v);
                   ECall "utils.scale_dict" [gt] [("scale_factor", VInt 1)];
                   ECall "utils.scale_dict" [est] [("scale_factor", v)];
                   ECall "utils.scale_dict" [cg]
                     [("scale_factor", VInt 1); ("is_cov", VBool true)];
                   ECall "utils.scale_dict" [ce]
                     [("scale_factor", v); ("is_cov", VBool true)]])).
Proof.
  intros Hs Hv Hgt Hest Hcg Hce Hf Hcov Hg He Hg' He'. unfold scale_both. run_script.
  simpl_state. rewrite Hs, Hv. simpl_state. rewrite Hgt. simpl_state. rewrite Hg.
  simpl_state. rewrite Hest. simpl_state. rewrite Hs. simpl_state. rewrite He.
  simpl_state. rewrite Hf, Hcov. simpl_state. rewrite Hcg. simpl_state. rewrite Hg'.
  simpl_state. rewrite Hce. simpl_state. rewrite Hs. simpl_state. rewrite He'.
  simpl_state. rewrite <- !app_assoc. reflexivity.
Qed.

(** A scale that ['%f'] cannot format stops the scaling at line 80. *)
Lemma scale_both_unformatted st v :
  ns st !! "scale" = Some v -> formats_f v = false ->
  scale_both W st = (inl (TypeError "must be real number"), st).
Proof.
  intros Hs Hv. unfold scale_both. unfold bind at 1. unfold print_f, bind, get.
  rewrite Hs, Hv. reflexivity.
Qed.

(** C5 (as amended): with [--automatic_scale], the scale is the value
    [utils.compute_scale_from_trajectories] returns for the two
    trajectories: it is printed, the ground truth is scaled by 1 and the
    estimate by that value, and [gt_poses] and [est_poses] are rebound to
    the two results, as are the covariances when the format has them (a
    value that ['%f'] cannot format stops the run at the print).  The [--scale] given is still converted by [float()] first; for
    two values that [float()] accepts it makes no difference: two command
    lines that differ only in [--scale] give runs with the same outcome, the
    same calls and printed lines (hence the same scaled trajectories and
    statistics), and the same bindings except possibly that of the name
    [scale] in a run that has failed; runs that complete end in the same
    state. *)
Theorem automatic_scale_ignores_given_scale a s1 s2 x1 x2 :
  args.automatic_scale a = true ->
  py_float (float_of_str W) s1 = inr x1 ->
  py_float (float_of_str W) s2 = inr x2 ->
  let r1 := run W (args.with_scale s1 a) in
  let r2 := run W (args.with_scale s2 a) in
  (forall st gt est f v gt' est',
     ns st !! "gt_poses" = Some gt -> ns st !! "est_poses" = Some est ->
     ns st !! "gt_format" = Some f -> py_eq_str f "tum_cov" = false ->
     callee W "utils.compute_scale_from_trajectories" [gt; est] [] = Some v ->
     formats_f v = true ->
     callee W "utils.scale_dict" [gt] [("scale_factor", VInt 1)] = Some gt' ->
     callee W "utils.scale_dict" [est] [("scale_factor", v)] = Some est' ->
     apply_scale W (args.with_scale s1 a) st
     = (inr tt,
        State (<["est_poses" := est']>
                 (<["gt_poses" := gt']> (<["scale" := v]> (ns st))))
          (out st ++ [ECall "utils.compute_scale_from_trajectories" [gt; est] [];
                      EPrint "Using scale: %f" (operands v);
                      ECall "utils.scale_dict" [gt] [("scale_factor", VInt 1)];
                      ECall "utils.scale_dict" [est] [("scale_factor", v)]])))
  /\ (forall st gt est f cg ce v gt' est' cg' ce',
        ns st !! "gt_poses" = Some gt -> ns st !! "est_poses" = Some est ->
        ns st !! "gt_cov" = Some cg -> ns st !! "est_cov" = Some ce ->
        ns st !! "gt_format" = Some f -> py_eq_str f "tum_cov" = true ->
        callee W "utils.compute_scale_from_trajectories" [gt; est] [] = Some v ->
        formats_f v = true ->
        callee W "utils.scale_dict" [gt] [("scale_factor", VInt 1)] = Some gt' ->
        callee W "utils.scale_dict" [est] [("scale_factor", v)] = Some est' ->
        callee W "utils.scale_dict" [cg]
          [("scale_factor", VInt 1); ("is_cov", VBool true)] = Some cg' ->
        callee W "utils.scale_dict" [ce]
          [("scale_factor", v); ("is_cov", VBool true)] = Some ce' ->
        apply_scale W (args.with_scale s1 a) st
        = (inr tt,
           State (<["est_cov" := ce']>
                    (<["gt_cov_" := cg']>
                       (<["est_poses" := est']>
                          (<["gt_poses" := gt']> (<["scale" := v]> (ns st))))))
             (out st ++ [ECall "utils.compute_scale_from_trajectories" [gt; est] [];
                         EPrint "Using scale: %f" (operands v);
                         ECall "utils.scale_dict" [gt] [("scale_factor", VInt 1)];
                         ECall "utils.scale_dict" [est] [("scale_factor", v)];
                         ECall "utils.scale_dict" [cg]
                           [("scale_factor", VInt 1); ("is_cov", VBool true)];
                         ECall "utils.scale_dict" [ce]
                           [("scale_factor", v); ("is_cov", VBool true)]])))
  /\ (forall st gt est v gt',
        ns st !! "gt_poses" = Some gt -> ns st !! "est_poses" = Some est ->
        callee W "utils.compute_scale_from_trajectories" [gt; est] [] = Some v ->
        formats_f v = true ->
        callee W "utils.scale_dict" [gt] [("scale_factor", VInt 1)] = Some gt' ->
        exists rest,
          out (apply_scale W (args.with_scale s1 a) st).2
          = out st ++ [ECall "utils.compute_scale_from_trajectories" [gt; est] [];
                       EPrint "Using scale: %f" (operands v);
                       ECall "utils.scale_dict" [gt] [("scale_factor", VInt 1)];
                       ECall "utils.scale_dict" [est] [("scale_factor", v)]] ++ rest)
  /\ (forall st gt est v,
        ns st !! "gt_poses" = Some gt -> ns st !! "est_poses" = Some est ->
        callee W "utils.compute_scale_from_trajectories" [gt; est] [] = Some v ->
        formats_f v = false ->
        apply_scale W (args.with_scale s1 a) st
        = (inl (TypeError "must be real number"),
           State (<["scale" := v]> (ns st))
             (out st ++ [ECall "utils.compute_scale_from_trajectories" [gt; est] []])))
  /\ r1.1 = r2.1
  /\ out r1.2 = out r2.2
  /\ (forall n, n <> "scale" -> ns r1.2 !! n = ns r2.2 !! n)
  /\ (r1.1 = inr tt -> r1.2 = r2.2).
Proof.
  intros Ha H1 H2 r1 r2.
  assert (Hchoose : forall st gt est v,
            ns st !! "gt_poses" = Some gt -> ns st !! "est_poses" = Some est ->
            callee W "utils.compute_scale_from_trajectories" [gt; est] [] = Some v ->
            apply_scale W (args.with_scale s1 a) st
            = scale_both W
                (State (<["scale" := v]> (ns st))
                   (out st ++ [ECall "utils.compute_scale_from_trajectories"
                                 [gt; est] []]))).
  { intros st gt est v Hgt Hest Hv. rewrite apply_scale_split. unfold bind.
    rewrite (choose_scale_automatic W (args.with_scale s1 a) st x1 Ha H1), Hgt, Hest.
    cbn zeta. rewrite Hv. reflexivity. }
  split; [| split; [| split; [| split]]].
  - intros st gt est f v g1 e1 Hgt Hest Hf Hcov Hv Hfmt Hg He.
    rewrite (Hchoose st gt est v Hgt Hest Hv).
    rewrite (scale_both_plain _ v gt est f g1 e1); simpl_state; auto.
    rewrite <- !app_assoc. reflexivity.
  - intros st gt est f cg ce v g1 e1 c1 c2 Hgt Hest Hcg Hce Hf Hcov Hv Hfmt Hg He Hg1 He1.
    rewrite (Hchoose st gt est v Hgt Hest Hv).
    rewrite (scale_both_cov _ v gt est f cg ce g1 e1 c1 c2); simpl_state; auto.
    rewrite <- !app_assoc. reflexivity.
  - intros st gt est v gt' Hgt Hest Hv Hfmt Hc.
    rewrite (Hchoose st gt est v Hgt Hest Hv).
    destruct (scale_both_events W
                (State (<["scale" := v]> (ns st))
                   (out st ++ [ECall "utils.compute_scale_from_trajectories" [gt; est] []]))
                v gt est gt') as (rest & Ho); simpl_state; auto.
    exists rest. rewrite Ho. cbn [out]. rewrite <- !app_assoc. reflexivity.
  - intros st gt est v Hgt Hest Hv Hfmt.
    rewrite (Hchoose st gt est v Hgt Hest Hv).
    apply (scale_both_unformatted _ v); simpl_state; auto.
  - subst r1 r2. unfold run. rewrite !main_with_scale. unfold bind.
    destruct (configure W a initial) as [[e | []] st1]; [auto |].
    destruct (load W a st1) as [[e | []] st2]; [auto |].
    rewrite (choose_scale_automatic W (args.with_scale s1 a) st2 x1 Ha H1).
    rewrite (choose_scale_automatic W (args.with_scale s2 a) st2 x2 Ha H2).
    destruct (ns st2 !! "gt_poses") as [gt |].
    2: { cbn. repeat split; auto. intros n Hn. rewrite !lookup_insert_ne by auto.
         reflexivity. discriminate. }
    destruct (ns st2 !! "est_poses") as [est |].
    2: { cbn. repeat split; auto. intros n Hn. rewrite !lookup_insert_ne by auto.
         reflexivity. discriminate. }
    cbn zeta.
    destruct (callee W "utils.compute_scale_from_trajectories" [gt; est] []) as [v |].
    2: { cbn. repeat split; auto. intros n Hn. rewrite !lookup_insert_ne by auto.
         reflexivity. discriminate. }
    auto.
Qed.

End ScaleLines.

(** ** Multiplication by 1 in binary64 *)

Section Binary64Facts.

Local Open Scope Z_scope.



End Binary64Facts.

(** ** What scaling changes *)

Section ScalingScript.

Context {num : Type} `{Arith num}.
Variable W : World num.
Variable translational : nat -> bool.









End ScalingScript.

(** ** The norms of the Horn ATE *)

Section HornNorms.

Import Exact.
Local Open Scope R_scope.

Variable W : World R.
Variable a : args.t R.



End HornNorms.

(** ** The remaining lines on samples *)

Section MoreRuns.

Import Binary64.

Local Open Scope float_scope.

(** X6, on a sample: the default alignment of two loaded trajectories. *)
Lemma horn_alignment_unpacks_three_witness :
  (align Demo.world Demo.plain Cases.loaded).1 = inr tt
  /\ ns (align Demo.world Demo.plain Cases.loaded).2 !! "T_align_horn"
     = Some (Sample.pose 0 0 0).
Proof.
  rewrite (horn_alignment_unpacks_three Demo.world Demo.plain Cases.loaded
             (pose_dict Cases.gt_items) (pose_dict Cases.est_items)
             (VTuple [pose_dict Cases.gt_items; pose_dict Cases.est_items;
                      Sample.pose 0 0 0])).
  - split; reflexivity.
  - reflexivity.
  - reflexivity.
  - reflexivity.
  - reflexivity.
Defined.

(** X8, on a sample: [--alignment manifold]. *)
Lemma known_alignment_binds_both_witness :
  exists x y,
    ns (align Demo.world Cases.manifold Cases.loaded).2 !! "gt_poses_align" = Some x
    /\ ns (align Demo.world Cases.manifold Cases.loaded).2 !! "est_poses_align" = Some y.
Proof.
  destruct (known_alignment_binds_both Demo.world Cases.manifold Cases.loaded
              (align Demo.world Cases.manifold Cases.loaded).2)
    as (f & pos & kws & v & x & y & rest & _ & _ & _ & _ & Hx & Hy).
  - left. reflexivity.
  - vm_compute. reflexivity.
  - exists x, y. split; assumption.
Defined.

(** X7, on a sample: plain TUM files, no covariance passed. *)
Lemma manifold_alignment_passes_covariance_witness :
  (align Demo.world Cases.manifold Cases.loaded).1 = inr tt.
Proof.
  destruct (manifold_alignment_passes_covariance Demo.world Cases.manifold Cases.loaded
              (pose_dict Cases.gt_items) (pose_dict Cases.est_items) (VStr "tum")
              eq_refl eq_refl eq_refl eq_refl)
    as [Hplain _].
  rewrite (Hplain eq_refl
             (VTuple [pose_dict Cases.gt_items; pose_dict Cases.est_items;
                      Sample.pose 0 0 0]) eq_refl).
  reflexivity.
Defined.

(** X5, on a sample. *)
Lemma association_replaces_both_trajectories_witness :
  (associate Demo.world Demo.plain Cases.loaded).1 = inr tt.
Proof.
  rewrite (association_replaces_both_trajectories Demo.world Demo.plain Cases.loaded
             (pose_dict Cases.gt_items) (pose_dict Cases.est_items) (VStr "tum")
             0 (2 / 100) 0
             (VTuple [pose_dict Cases.gt_items; pose_dict Cases.est_items]));
    reflexivity.
Defined.

(** X2, on a sample: plain TUM files bind no covariance. *)
Lemma load_unpacks_by_gt_format_witness :
  (load Demo.world Demo.plain initial).1 = inr tt
  /\ ns (load Demo.world Demo.plain initial).2 !! "gt_cov" = None.
Proof.
  destruct (load_unpacks_by_gt_format Demo.world Demo.plain initial
              (VDict (Sample.files !!! 0%nat).2) (VDict (Sample.files !!! 1%nat).2)
              (VStr "tum") (VStr "tum")
              (VDict (Sample.files !!! 0%nat).2) (VDict (Sample.files !!! 1%nat).2)
              eq_refl eq_refl eq_refl eq_refl eq_refl eq_refl)
    as [Hplain _].
  rewrite (Hplain eq_refl). split; reflexivity.
Defined.

(** X9, on a sample: the name holds the 'Z' errors in the end. *)
Lemma horn_ate_four_passes_witness :
  ns (ate_horn_all Demo.world Demo.plain Cases.aligned).2 !! "ate_horn_error"
  = Some (VArr [[0; 0]; [0; 0]; [2; 0]]).
Proof.
  assert (Hstat : forall pos kws,
             is_Some (callee Demo.world "slam_metrics.compute_statistics" pos kws))
    by (intros pos kws; exists VNone; reflexivity).
  rewrite (horn_ate_four_passes Demo.world Demo.plain Cases.aligned
             (pose_dict Cases.gt_items) (pose_dict Cases.est_items)
             [[0; 0]; [0; 1]; [2; 0]] [[0; 0]; [0; 0]; [0; 0]]
             [[0; 0]; [0; 1]; [0; 0]] [[0; 0]; [0; 0]; [2; 0]] 2 2 2 2
             ltac:(vm_compute; reflexivity) ltac:(vm_compute; reflexivity)
             ltac:(vm_compute; reflexivity) ltac:(vm_compute; reflexivity)
             ltac:(vm_compute; reflexivity) ltac:(vm_compute; reflexivity)
             ltac:(repeat constructor) ltac:(repeat constructor)
             ltac:(repeat constructor) ltac:(repeat constructor) Hstat).
  cbn [ns snd]. apply lookup_insert_eq.
Defined.

(** X10, on a sample. *)
Lemma rpe_block_unpacks_four_witness :
  ns (rpe Demo.world Demo.rpe_ddt Cases.aligned).2 !! "rpe_distance"
  = Some (VVec Demo.distances).
Proof.
  assert (Hstat : forall pos kws,
             is_Some (callee Demo.world "slam_metrics.compute_statistics" pos kws))
    by (intros pos kws; exists VNone; reflexivity).
  destruct (rpe_block_unpacks_four Demo.world Demo.rpe_ddt Cases.aligned
              (pose_dict Cases.gt_items) (pose_dict Cases.est_items)
              10000 1 0
              (VTuple [VArr Demo.errors; VArr (take 3 Demo.errors);
                       VArr (take 3 (drop 3 Demo.errors)); VVec Demo.distances])
              Demo.errors (VArr (take 3 Demo.errors))
              (VArr (take 3 (drop 3 Demo.errors))) (VVec Demo.distances) 2
              ltac:(vm_compute; reflexivity) ltac:(vm_compute; reflexivity)
              ltac:(vm_compute; reflexivity) ltac:(vm_compute; reflexivity)
              ltac:(vm_compute; reflexivity) ltac:(vm_compute; reflexivity)
              ltac:(vm_compute; reflexivity) ltac:(reflexivity)
              ltac:(repeat constructor) Hstat) as [Hrun _].
  rewrite Hrun. cbn [ns snd]. apply lookup_insert_eq.
Defined.

(** X11, on a sample: [--max_pairs 1e4]. *)
Lemma rpe_rejects_max_pairs_before_call_witness :
  rpe Demo.world Cases.text_pairs Cases.aligned
  = (inl (ValueError "invalid literal for int()"),
     State (ns Cases.aligned) [EPrint "\nRPE - %s [%s]" [VFloat 1; VStr "m"]]).
Proof.
  rewrite (rpe_rejects_max_pairs_before_call Demo.world Cases.text_pairs Cases.aligned
             (pose_dict Cases.gt_items) (pose_dict Cases.est_items)
             (ValueError "invalid literal for int()"));
    reflexivity.
Defined.

(** X12, on a sample: three distances for two pairs. *)
Lemma ddt_shape_mismatch_raises_witness :
  (ddt Demo.world Demo.plain Cases.mismatched).1
  = inl (ValueError "operands could not be broadcast together").
Proof.
  rewrite (ddt_shape_mismatch_raises Demo.world Demo.plain Cases.mismatched
             Demo.errors [1; 2; 3] 2);
    try reflexivity; try discriminate; try (cbn; lia).
  repeat constructor.
Defined.

(** X3, on a sample: [--scale abc]. *)
Lemma rejected_scale_stops_before_scaling_witness :
  run Demo.world Cases.text_scale
  = (inl (ValueError "could not convert string to float"),
     (bind (configure Demo.world Cases.text_scale)
        (fun _ => load Demo.world Cases.text_scale) initial).2).
Proof.
  destruct (rejected_scale_stops_before_scaling Demo.world Cases.text_scale
              (ValueError "could not convert string to float") eq_refl)
    as (_ & _ & _ & _ & _ & Hrun).
  apply Hrun. vm_compute. reflexivity.
Defined.


(** X13, on two samples: without and with [--show_plots]. *)
Lemma plot_only_with_flag_and_last_witness :
  called "plot_utils.plot_2d_traj_xyz" (run Demo.world Demo.plain).2 = false
  /\ exists gs gx es ex,
       last (out (run Demo.world Cases.plots).2)
       = Some (ECall "plot_utils.plot_2d_traj_xyz" [gs; gx; es; ex]
                 [("save_fig", VBool true)]).
Proof.
  split.
  - destruct (plot_only_with_flag_and_last Demo.world Demo.plain) as [Hoff _].
    destruct (Hoff eq_refl) as (_ & Hplot & _). exact Hplot.
  - destruct (plot_only_with_flag_and_last Demo.world Cases.plots) as [_ Hon].
    destruct Hon as (gs & gx & es & ex & _ & _ & _ & _ & Hlast);
      [reflexivity | vm_compute; reflexivity |].
    exists gs, gx, es, ex. exact Hlast.
Defined.

(** X15, on a sample: a file that cannot be read. *)
Lemma library_exception_ends_run_witness :
  exists pos kws,
    last (out (run Demo.world Cases.missing).2)
    = Some (ECall "utils.read_file_dict" pos kws).
Proof.
  destruct (library_exception_ends_run Demo.world Cases.missing "utils.read_file_dict")
    as (pos & kws & Hlast & _).
  - vm_compute. reflexivity.
  - exists pos, kws. exact Hlast.
Defined.

(** X14, on a sample: two poses stored later one first; the stamps come
    out as 1, 2 and the x coordinates as 2, 1. *)
Lemma plot_stamps_sorted_positions_in_dict_order_witness :
  exists st',
    plot Demo.world Cases.aligned = (inr tt, st')
    /\ last (out st')
       = Some (ECall "plot_utils.plot_2d_traj_xyz"
                 [VList [VFloat 1; VFloat 2]; VArr [[2; 1]; [0; 0]; [0; 0]];
                  VList [VFloat 1; VFloat 2]; VArr [[2; 1]; [0; 1]; [2; 0]]]
                 [("save_fig", VBool true)]).
Proof.
  destruct (plot_stamps_sorted_positions_in_dict_order Demo.world Cases.aligned
              Cases.gt_items Cases.est_items)
    as (st' & Hrun & Hout & _).
  - reflexivity.
  - reflexivity.
  - repeat constructor.
  - repeat constructor.
  - vm_compute. reflexivity.
  - vm_compute. reflexivity.
  - intros pos kws. exists [0; 0; 0]. split; reflexivity.
  - intros pos kws. exists VNone. reflexivity.
  - exists st'. split; [exact Hrun |]. rewrite Hout.
    rewrite !app_assoc. rewrite last_snoc. vm_compute. reflexivity.
Defined.

(** X16, on a sample. *)
Lemma plot_configuration_comes_first_witness :
  exists rest,
    out (run Demo.world Demo.plain).2
    = ECall "plot_utils.set_language" [] [("lang", VStr "EN")]
      :: ECall "plot_utils.set_file_extension" [] [("ext", VStr "pdf")] :: rest.
Proof.
  destruct (plot_configuration_comes_first Demo.world Demo.plain) as (_ & _ & Hext).
  destruct Hext as [Hrest _]; [exists VNone; reflexivity |].
  exact Hrest.
Defined.

(** X17, on a sample: [--alignment icp --show_plots]. *)
Lemma name_errors_only_from_alignment_or_ddt_witness :
  (run Demo.world Demo.icp).1 = inl (NameError "gt_poses_align")
  /\ unknown_alignment Demo.icp.
Proof.
  assert (Hrun : (run Demo.world Demo.icp).1 = inl (NameError "gt_poses_align"))
    by (vm_compute; reflexivity).
  destruct (name_errors_only_from_alignment_or_ddt Demo.world Demo.icp
              "gt_poses_align" Hrun) as [(_ & Hmode & _) | (Hn & _)].
  - split; [exact Hrun | exact Hmode].
  - discriminate Hn.
Defined.

End MoreRuns.

(** ** Whole blocks and runs on samples *)

Section DdtSamples.
Import Binary64.
Local Open Scope float_scope.

(** C2, on the sample: [gt.txt est.txt --rpe --ddt] binds [ddt] to the
    quotient of the error array and the distances that the call of
    [slam_metrics.RPE] returned; [gt.txt est.txt --ddt] binds nothing to
    [ddt] and ends with [NameError] for [rpe_error]. *)
Lemma ddt_needs_rpe_witness :
  ns (run Demo.world Demo.rpe_ddt).2 !! "ddt"
  = Some (VArr (divide_rows Demo.errors Demo.distances))
  /\ ns (run Demo.world Demo.ddt_only).2 !! "ddt" = None
  /\ (run Demo.world Demo.ddt_only).1 = inl (NameError "rpe_error").
Proof.
  split.
  - destruct (ddt_needs_rpe Demo.world Demo.rpe_ddt eq_refl) as [Hwith _].
    destruct (Hwith eq_refl eq_refl (before_ddt Demo.world Demo.rpe_ddt initial).2)
      as (pos & kws & res & e & te & re & d & _ & _ & _ & He & Hd & _ & Hq).
    + vm_compute. reflexivity.
    + assert (Hdiv : np_divide e d
                     = inr (VArr (divide_rows Demo.errors Demo.distances))).
      { vm_compute in He, Hd. injection He as <-. injection Hd as <-.
        vm_compute. reflexivity. }
      rewrite Hdiv in Hq. exact Hq.
  - destruct (ddt_needs_rpe Demo.world Demo.ddt_only eq_refl) as (_ & _ & Hno).
    destruct (Hno eq_refl) as (Hunbound & _ & Hstop).
    split; [exact Hunbound |].
    rewrite (Hstop (before_ddt Demo.world Demo.ddt_only initial).2 eq_refl).
    + reflexivity.
    + vm_compute. reflexivity.
Defined.
End DdtSamples.

Section HornSamples.
Import Binary64.
Local Open Scope float_scope.

(** C4, on two samples: [gt.txt est.txt] calls the Horn ATE; with
    [--alignment icp] no run does. *)
Lemma metrics_computed_by_flags_witness :
  called "slam_metrics.ATE_Horn" (run Demo.world Demo.plain).2 = true
  /\ called "slam_metrics.ATE_Horn" (run Demo.world Demo.icp).2 = false.
Proof.
  split.
  - destruct (metrics_computed_by_flags Demo.world Demo.plain) as [[_ Hback] _].
    assert (Hp : (prepare Demo.world Demo.plain initial).1 = inr tt)
      by (vm_compute; reflexivity).
    exact (Hback (conj eq_refl (conj Hp (or_intror (or_introl eq_refl))))).
  - destruct (metrics_computed_by_flags Demo.world Demo.icp) as [[Hfwd _] _].
    destruct (called "slam_metrics.ATE_Horn" (run Demo.world Demo.icp).2);
      [exfalso | reflexivity].
    destruct (Hfwd eq_refl) as (_ & _ & [Hm | [Hm | Hm]]);
      vm_compute in Hm; discriminate Hm.
Defined.
End HornSamples.

Section ScaleSamples.
Import Binary64.
Local Open Scope float_scope.

(** C5, on the sample: with [--automatic_scale], [--scale 3] (given as
    text) and [--scale 1.0] give the same run, in which the estimate is
    scaled by the computed 2. *)
Lemma automatic_scale_ignores_given_scale_witness :
  let a1 := args.with_scale (VStr "3") Demo.automatic in
  let a2 := args.with_scale (VFloat 1) Demo.automatic in
  (run Demo.world a1).1 = inr tt
  /\ run Demo.world a1 = run Demo.world a2
  /\ ns (apply_scale Demo.world a1 Cases.loaded).2 !! "est_poses"
     = Some (VDict [(2, VArr [[1; 0; 0; 4]; [0; 1; 0; 0]; [0; 0; 1; 4]; [0; 0; 0; 1]]);
                    (1, VArr [[1; 0; 0; 2]; [0; 1; 0; 2]; [0; 0; 1; 0]; [0; 0; 0; 1]])]).
Proof.
  destruct (automatic_scale_ignores_given_scale Demo.world Demo.automatic
              (VStr "3") (VFloat 1) 3 1 eq_refl)
    as (Hbind & _ & _ & _ & Hres & _ & _ & Hstate).
  - vm_compute. reflexivity.
  - vm_compute. reflexivity.
  - assert (Hok : (run Demo.world (args.with_scale (VStr "3") Demo.automatic)).1
                  = inr tt) by (vm_compute; reflexivity).
    split; [exact Hok|].
    split; [apply injective_projections; [exact Hres | exact (Hstate Hok)] |].
    rewrite (Hbind Cases.loaded (pose_dict Cases.gt_items) (pose_dict Cases.est_items)
               (VStr "tum") (VFloat 2) (pose_dict Cases.gt_items)
               (VDict [(2, VArr [[1; 0; 0; 4]; [0; 1; 0; 0]; [0; 0; 1; 4]; [0; 0; 0; 1]]);
                       (1, VArr [[1; 0; 0; 2]; [0; 1; 0; 2]; [0; 0; 1; 0]; [0; 0; 0; 1]])])
               eq_refl eq_refl eq_refl eq_refl
               ltac:(vm_compute; reflexivity) eq_refl
               ltac:(vm_compute; reflexivity) ltac:(vm_compute; reflexivity)).
    cbn [snd ns]. apply lookup_insert_eq.
Defined.

(** C5 as stated does not hold: with [--automatic_scale], the run of
    [--scale abc] stops at the conversion of line 77, before any scale is
    computed, while that of [--scale 3] completes with the computed scale:
    the two command lines differ only in the scale supplied. *)
Lemma automatic_scale_still_converts_given_scale :
  let a1 := args.with_scale (VStr "abc") Demo.automatic in
  let a2 := args.with_scale (VStr "3") Demo.automatic in
  args.automatic_scale a1 = true /\ args.automatic_scale a2 = true
  /\ (run Demo.world a1).1 = inl (ValueError "could not convert string to float")
  /\ called "utils.compute_scale_from_trajectories" (run Demo.world a1).2 = false
  /\ called "utils.scale_dict" (run Demo.world a1).2 = false
  /\ called "slam_metrics.compute_statistics" (run Demo.world a1).2 = false
  /\ (run Demo.world a2).1 = inr tt
  /\ called "utils.compute_scale_from_trajectories" (run Demo.world a2).2 = true
  /\ called "utils.scale_dict" (run Demo.world a2).2 = true
  /\ called "slam_metrics.compute_statistics" (run Demo.world a2).2 = true.
Proof. vm_compute. repeat split. Qed.
End ScaleSamples.

Section ScalingSamples.

Import Binary64.

Local Open Scope float_scope.


End ScalingSamples.

Section ExactHorn.

Import Exact.
Local Open Scope R_scope.


End ExactHorn.

Section FloatHorn.
Import Binary64.
Import Cases.
Local Open Scope float_scope.


End FloatHorn.
